(** * Revive logbook: enrichment, local store and table view

    A shallow embedding of the data layer of the revive logbook:

    - [lib/revive-enrichment.ts]: [getCategory], [getLikelihood],
      [enrichRevives];
    - [lib/indexeddb.ts]: [initDB] (the [onupgradeneeded] handler),
      [saveRevives], [getAllRevives], [getOldestTimestamp],
      [saveExcludedFilters], [getExcludedFilters];
    - [components/revives-table.tsx]: the filter pipeline of
      [filteredAndSortedRevives], the exclusion toggles and pagination;
    - [components/revives-dashboard.tsx]: [fetchRevives].

    Conventions.  A JavaScript [number] that holds an identifier, a count or
    a timestamp is a [Z]; one that holds a measurement (skill, chance, a
    page number typed by the user) is a [Q], the exact value of the double.
    Comparisons are those of the exact values; the arithmetic of the skill
    gain rounds every result to the nearest double ([Double]).  Strings are
    [string]s holding the UTF-8 bytes of the text, compared and searched
    byte by byte.  An optional field is an [option].  React state is a
    record, an event handler is a function on that record. *)

From Stdlib Require Import ZArith QArith Qround Qpower Qabs Lqa String Ascii List Sorted
  Permutation.
From Stdlib Require Import Floats.SpecFloat.
From stdpp Require Import base list gmap sets strings pretty.

Local Open Scope string_scope.

(** ** JavaScript primitives used by the sources *)

Module JS.

(** [s.includes(pat)]: [pat] occurs in [s] as a contiguous substring. *)
Fixpoint includes (s pat : string) : bool :=
  String.prefix pat s ||
  match s with
  | EmptyString => false
  | String _ s' => includes s' pat
  end.

(** [patterns.some(p => s.includes(p))]. *)
Definition some_includes (patterns : list string) (s : string) : bool :=
  existsb (fun p => includes s p) patterns.

(** [x || 0] on a number: a falsy number is replaced by [0]. *)
Definition or_zero (x : Q) : Q := if Qeq_bool x 0 then 0%Q else x.

(** [x || 0] on an optional number: [undefined] is falsy too. *)
Definition opt_or_zero (x : option Q) : Q :=
  match x with
  | None => 0%Q
  | Some q => or_zero q
  end.

(** [s || ""] on an optional string. *)
Definition opt_or_empty (x : option string) : string :=
  match x with
  | None => ""
  | Some s => s
  end.

(** [Math.round]: the nearest integer, halves rounded up. *)
Definition Math_round (x : Q) : Z := Qfloor (x + (1 # 2))%Q.

(** [Math.ceil]. *)
Definition Math_ceil (x : Q) : Z := Qceiling x.

(** Strings are held as their UTF-8 bytes.  [utf8 cp] is the encoding of
    the code point [cp]. *)
Definition byte (n : N) : ascii := ascii_of_N n.

Definition utf8 (cp : N) : string :=
  if (cp <? 0x80)%N then String (byte cp) ""
  else if (cp <? 0x800)%N then
    String (byte (0xC0 + cp / 0x40)) (String (byte (0x80 + cp mod 0x40)) "")
  else if (cp <? 0x10000)%N then
    String (byte (0xE0 + cp / 0x1000))
      (String (byte (0x80 + (cp / 0x40) mod 0x40))
         (String (byte (0x80 + cp mod 0x40)) ""))
  else
    String (byte (0xF0 + cp / 0x40000))
      (String (byte (0x80 + (cp / 0x1000) mod 0x40))
         (String (byte (0x80 + (cp / 0x40) mod 0x40))
            (String (byte (0x80 + cp mod 0x40)) ""))).

(** The string of a sequence of code points. *)
Definition encode (cps : list N) : string := foldr (fun cp s => utf8 cp +:+ s) "" cps.

(** The code points [String.prototype.trim] strips: WhiteSpace (TAB, VT,
    FF, the space separators of Unicode, ZWNBSP) and LineTerminator (LF,
    CR, LS, PS) of ECMAScript. *)
Definition white_space_code_points : list N :=
  [0x9; 0xA; 0xB; 0xC; 0xD; 0x20; 0xA0; 0x1680;
   0x2000; 0x2001; 0x2002; 0x2003; 0x2004; 0x2005; 0x2006; 0x2007; 0x2008;
   0x2009; 0x200A; 0x2028; 0x2029; 0x202F; 0x205F; 0x3000; 0xFEFF]%N.

Definition white_space : list string := map utf8 white_space_code_points.

(** [strip_prefix w s]: what follows [w] in [s], when [s] starts with [w]. *)
Fixpoint strip_prefix (w s : string) : option string :=
  match w, s with
  | EmptyString, _ => Some s
  | String a w', String b s' => if Ascii.eqb a b then strip_prefix w' s' else None
  | String _ _, EmptyString => None
  end.

(** What follows the white-space character [s] starts with, if it starts
    with one. *)
Definition after_space (s : string) : option string :=
  foldr (fun w found =>
           match strip_prefix w s with
           | Some rest => Some rest
           | None => found
           end) None white_space.

(** Leading white space is dropped one character at a time; a string has
    no more white-space characters than bytes. *)
Fixpoint trim_start_from (n : nat) (s : string) : string :=
  match n with
  | O => s
  | S n' =>
      match after_space s with
      | Some rest => trim_start_from n' rest
      | None => s
      end
  end.

Definition trim_start (s : string) : string := trim_start_from (String.length s) s.

(** [s] is made of white space only. *)
Definition blank (s : string) : bool :=
  match trim_start s with
  | EmptyString => true
  | String _ _ => false
  end.

(** Trailing white space is dropped: a byte is kept unless everything from
    it to the end is white space. *)
Fixpoint trim_end (s : string) : string :=
  match s with
  | EmptyString => EmptyString
  | String c s' => if blank s then EmptyString else String c (trim_end s')
  end.

(** [String.prototype.trim]. *)
Definition trim (s : string) : string := trim_end (trim_start s).

(** [toLowerCase] on the ASCII letters; the bytes of other characters are
    left as they are. *)
Definition lower_char (c : ascii) : ascii :=
  let n := nat_of_ascii c in
  if (65 <=? n)%nat && (n <=? 90)%nat then ascii_of_nat (n + 32) else c.

Fixpoint toLowerCase (s : string) : string :=
  match s with
  | EmptyString => EmptyString
  | String c s' => String (lower_char c) (toLowerCase s')
  end.

(** Truthiness of a string: only the empty string is falsy. *)
Definition truthy (s : string) : bool :=
  match s with
  | EmptyString => false
  | String _ _ => true
  end.

End JS.

(** ** Data model ([ReviveData], [EnrichedRevive]) *)

Record Faction := { faction_id : Z; faction_name : string }.

Record Reviver := {
  reviver_id : Z;
  reviver_name : string;
  reviver_faction : option Faction;
  skill : option Q
}.

Record Target := {
  target_id : Z;
  target_name : string;
  target_faction : option Faction;
  hospital_reason : option string
}.

Record ReviveData := {
  id : Z;
  reviver : Reviver;
  target : Target;
  result : string;
  success_chance : Q;
  timestamp : Z
}.

Inductive category := PvP | OD | Crime | RR | SelfHosp | Casino.

Inductive likelihood := Low | Medium | High | VeryHigh.

(** [EnrichedRevive extends ReviveData]: the object spread copies the six
    raw fields, the derived ones are added next to them. *)
Record EnrichedRevive := {
  e_id : Z;
  e_reviver : Reviver;
  e_target : Target;
  e_result : string;
  e_success_chance : Q;
  e_timestamp : Z;
  Success : bool;
  Category : category;
  Chance : Q;
  Likelihood : likelihood;
  Gain : option Q;
  HospitalizedBy : string
}.

(** The raw part of an enriched record. *)
Definition raw_of (e : EnrichedRevive) : ReviveData :=
  {| id := e_id e; reviver := e_reviver e; target := e_target e;
     result := e_result e; success_chance := e_success_chance e;
     timestamp := e_timestamp e |}.

(** [enriched[i].Gain = g] on one object. *)
Definition set_Gain (g : option Q) (e : EnrichedRevive) : EnrichedRevive :=
  {| e_id := e_id e; e_reviver := e_reviver e; e_target := e_target e;
     e_result := e_result e; e_success_chance := e_success_chance e;
     e_timestamp := e_timestamp e;
     Success := Success e; Category := Category e; Chance := Chance e;
     Likelihood := Likelihood e; Gain := g;
     HospitalizedBy := HospitalizedBy e |}.

(** ** [getCategory] and [getLikelihood] *)

Definition getCategory (reason : string) : category :=
  if JS.includes reason "Shot themselves in the foot" then RR
  else if JS.includes reason "Severe emesis following Ipecac Syrup ingestion" then SelfHosp
  else if JS.includes reason "Punched in the face by Leslie"
          || JS.includes reason "face punch"
          || JS.includes reason "kick to the throat"
          || JS.includes reason "choke hold" then Casino
  else if JS.some_includes ["Lost to"; "Mugged by"; "Hospitalized by"] reason then PvP
  else if JS.some_includes ["Overdosed on"; "Collapsed after"] reason then OD
  else Crime.

Definition getLikelihood (chance : Q) : likelihood :=
  if Qle_bool chance 30 then Low
  else if Qle_bool chance 60 then Medium
  else if Qle_bool chance 80 then High
  else VeryHigh.

(** The pattern rules, one predicate per category, in the order in which the
    classification is documented to test them. *)
Module Rules.

Definition rr (reason : string) : bool :=
  JS.includes reason "Shot themselves in the foot".

Definition self_hosp (reason : string) : bool :=
  JS.includes reason "Severe emesis following Ipecac Syrup ingestion".

Definition casino (reason : string) : bool :=
  existsb (JS.includes reason)
    ["Punched in the face by Leslie"; "face punch"; "kick to the throat"; "choke hold"].

Definition pvp (reason : string) : bool :=
  existsb (JS.includes reason) ["Lost to"; "Mugged by"; "Hospitalized by"].

Definition od (reason : string) : bool :=
  existsb (JS.includes reason) ["Overdosed on"; "Collapsed after"].

Definition table : list ((string -> bool) * category) :=
  [(rr, RR); (self_hosp, SelfHosp); (casino, Casino); (pvp, PvP); (od, OD)].

(** Top-to-bottom evaluation of a rule table: the first rule whose
    predicate holds decides, [fallback] when none does. *)
Fixpoint first_match (rules : list ((string -> bool) * category))
    (fallback : category) (reason : string) : category :=
  match rules with
  | [] => fallback
  | (p, c) :: rest => if p reason then c else first_match rest fallback reason
  end.

End Rules.

(** ** JavaScript arithmetic and [Array.prototype.sort] *)

Module JSNum.

(** The exact result of an operation, as the reduced fraction, so
    that a value has one representation.  It is used where the program
    looks at the sign of the result, or works on small integers; where the
    rounding of doubles shows, in the skill gain, the operations of
    [Double] below are used. *)
Definition sub (a b : Q) : Q := Qred (a - b).
Definition mul (a b : Q) : Q := Qred (a * b).
Definition div (a b : Q) : Q := Qred (a / b).
Definition of_Z (z : Z) : Q := inject_Z z.

Section Sort.
Context {A : Type} (compareFn : A -> A -> Q).

(** [x] is placed before the first element it does not follow, that
    is the first [y] with [compareFn x y <= 0]. *)
Fixpoint sort_insert (x : A) (l : list A) : list A :=
  match l with
  | [] => [x]
  | y :: l' =>
      if Qle_bool (compareFn x y) 0 then x :: y :: l' else y :: sort_insert x l'
  end.

(** [arr.sort(compareFn)]: a stable sort.  Elements are inserted from
    the last to the first, each one in front of the elements it
    compares equal to, which all came after it. *)
Definition sort (l : list A) : list A := foldr sort_insert [] l.
End Sort.

End JSNum.

(** ** Arithmetic on doubles *)

(** A JavaScript number that is finite is given by its exact value, a
    rational.  An arithmetic operation of IEEE 754 binary64 gives the
    double nearest to the exact result, the one with the even mantissa of
    two that are as near.  A result of magnitude [2 ^ 1024] or more, which
    JavaScript has as [Infinity], [NaN] and the sign of zero are not
    represented. *)
Module Double.

Definition pow2 (e : Z) : Q := (2 ^ e)%Q.

(** The [l] with [2 ^ l <= |x| < 2 ^ (l + 1)], for [x] other than [0]:
    the difference of the bit lengths of numerator and denominator, or
    one less. *)
Definition magnitude (x : Q) : Z :=
  let l := (Z.log2 (Z.abs (Qnum x)) - Z.log2 (Z.pos (Qden x)))%Z in
  if Qle_bool (pow2 l) (Qabs x) then l else (l - 1)%Z.

(** The exponent of the last bit of a mantissa of 53 bits, not below that
    of the subnormal numbers. *)
Definition exponent (x : Q) : Z := Z.max (magnitude x - 52) (-1074).

(** The nearest integer, the even one of two that are as near. *)
Definition nearest_even (x : Q) : Z :=
  let f := Qfloor x in
  match Qcompare (x - inject_Z f) (1 # 2) with
  | Lt => f
  | Eq => if Z.even f then f else (f + 1)%Z
  | Gt => (f + 1)%Z
  end.

(** The double nearest to [x]. *)
Definition round (x : Q) : Q :=
  let x := Qred x in
  if Qeq_bool x 0 then 0%Q
  else Qred (inject_Z (nearest_even (x / pow2 (exponent x))) * pow2 (exponent x)).

Definition sub (a b : Q) : Q := round (a - b).
Definition mul (a b : Q) : Q := round (a * b).
Definition div (a b : Q) : Q := round (a / b).


(** The value of a finite number of the Standard Library's
    specification of IEEE 754. *)
Definition of_spec_float (f : spec_float) : option Q :=
  match f with
  | S754_zero _ => Some 0%Q
  | S754_finite s m e =>
      Some (Qred ((if s then -1 else 1) * inject_Z (Z.pos m) * pow2 e))
  | S754_infinity _ | S754_nan => None
  end.

(** The quotient of two positive integers in binary64, by the Standard
    Library's specification. *)
Definition spec_quotient (n d : positive) : option Q :=
  of_spec_float (SFdiv 53 1024 (S754_finite false n 0) (S754_finite false d 0)).

End Double.

(** ** [enrichRevives] *)

(** First pass: the per-record enrichment. *)
Definition enrich_one (revive : ReviveData) : EnrichedRevive :=
  let hospitalizedBy := JS.opt_or_empty (hospital_reason (target revive)) in
  let chance := JS.or_zero (success_chance revive) in
  {| e_id := id revive; e_reviver := reviver revive; e_target := target revive;
     e_result := result revive; e_success_chance := success_chance revive;
     e_timestamp := timestamp revive;
     Success := String.eqb (result revive) "success";
     Category := getCategory hospitalizedBy;
     Chance := chance;
     Likelihood := getLikelihood chance;
     Gain := None;
     HospitalizedBy := hospitalizedBy |}.

(** The objects [{ revive: r, index: idx }] of the second pass.  [revive]
    aliases [enriched[index]]; the loop reads only its raw fields, which are
    never written, so the pair holds the record as it was when paired. *)
Record Indexed := { revive : EnrichedRevive; index : nat }.

Definition is_my_successful (userReviveId : Z) (p : Indexed) : bool :=
  (reviver_id (e_reviver (revive p)) =? userReviveId)%Z
  && negb (target_id (e_target (revive p)) =? userReviveId)%Z
  && String.eqb (e_result (revive p)) "success".

Definition by_timestamp (a b : Indexed) : Q :=
  JSNum.of_Z (e_timestamp (revive a) - e_timestamp (revive b)).

Definition mySuccessfulRevives (enriched : list EnrichedRevive) (userReviveId : Z)
    : list Indexed :=
  JSNum.sort by_timestamp
    (List.filter (is_my_successful userReviveId)
       (imap (fun idx r => {| revive := r; index := idx |}) enriched)).

(** The gain written for [current] when [next] follows it:
    [Math.round(gain * 100) / 100], in doubles. *)
Definition gain_of (current next : EnrichedRevive) : Q :=
  let currentSkill := JS.opt_or_zero (skill (e_reviver current)) in
  let nextSkill := JS.opt_or_zero (skill (e_reviver next)) in
  if Qle_bool 100 nextSkill then 0%Q
  else
    let gain := Double.sub currentSkill nextSkill in
    Double.div (JSNum.of_Z (JS.Math_round (Double.mul gain 100))) 100.

(** One iteration of the [for] loop, at counter [i]. *)
Definition gain_step (sel : list Indexed) (enriched : list EnrichedRevive) (i : nat)
    : list EnrichedRevive :=
  match sel !! i, sel !! (i + 1)%nat with
  | Some current, Some next =>
      alter (set_Gain (Some (gain_of (revive current) (revive next))))
        (index current) enriched
  | _, _ => enriched
  end.

Definition enrichRevives (revives : list ReviveData) (userReviveId : Z)
    : list EnrichedRevive :=
  match revives with
  | [] => []
  | _ =>
      let enriched := map enrich_one revives in
      let sel := mySuccessfulRevives enriched userReviveId in
      foldl (gain_step sel) enriched (seq 0 (length sel - 1))
  end.


(** *** The skill gain as documented *)

Module GainSpec.


(** A missing skill is [0]. *)
Definition skill_of (r : ReviveData) : Q := JS.opt_or_zero (skill (reviver r)).

(** Rounding to two decimals: the nearest multiple of [1/100], the upper
    one of two that are as near. *)
Definition round2 (x : Q) : Q := inject_Z (Qfloor (x * 100 + (1 # 2))) / 100.

(** The difference of the two skills as the program has it: the skills
    are doubles, their difference is rounded to a double and so is its
    hundredfold; this is the hundredth part of the latter. *)
Definition difference (current next : ReviveData) : Q :=
  Double.mul (Double.sub (skill_of current) (skill_of next)) 100 / 100.

(** The gain: the double nearest to the two-decimal rounding of the
    difference. *)
Definition gain (current next : ReviveData) : Q :=
  if Qle_bool 100 (skill_of next) then 0%Q
  else Double.round (round2 (difference current next)).


End GainSpec.

(** ** The local store ([lib/indexeddb.ts]) *)

Inductive Mode := user | faction.

(** The value kept under the settings key ["excludedFilters"]. *)
Record ExcludedFilters := { players : list string; factions : list string }.

(** The settings store holds values under fixed keys. *)
Record SettingsStore := {
  apiKey : option string;
  apiMode : option Mode;
  excludedFilters : option ExcludedFilters
}.

Definition empty_settings : SettingsStore :=
  {| apiKey := None; apiMode := None; excludedFilters := None |}.

(** The database: its version ([0] before it is first opened) and its object
    stores, [None] for a store that does not exist.  A store of revives has
    key path ["id"]: it holds its records in ascending order of [id]. *)
Record IDBDatabase := {
  version : Z;
  settings : option SettingsStore;
  userRevives : option (list ReviveData);
  factionRevives : option (list ReviveData);
  legacyRevives : option (list ReviveData);
  paymentStatus : option (gmap string bool)
}.

Module IDB.

Definition DB_VERSION : Z := 3.

(** [store.put(value)] on a store with key path ["id"]: the record
    replaces the one stored under its key, or is added in key order. *)
Fixpoint put (value : ReviveData) (store : list ReviveData) : list ReviveData :=
  match store with
  | [] => [value]
  | x :: rest =>
      if (id value <? id x)%Z then value :: x :: rest
      else if (id value =? id x)%Z then value :: rest
      else x :: put value rest
  end.

(** [store.get(key)]. *)
Definition get (key : Z) (store : list ReviveData) : option ReviveData :=
  List.find (fun r => (id r =? key)%Z) store.

Definition set_settings (s : option SettingsStore) (db : IDBDatabase) : IDBDatabase :=
  {| version := version db; settings := s; userRevives := userRevives db;
     factionRevives := factionRevives db; legacyRevives := legacyRevives db;
     paymentStatus := paymentStatus db |}.

Definition set_userRevives (s : option (list ReviveData)) (db : IDBDatabase) : IDBDatabase :=
  {| version := version db; settings := settings db; userRevives := s;
     factionRevives := factionRevives db; legacyRevives := legacyRevives db;
     paymentStatus := paymentStatus db |}.

Definition set_factionRevives (s : option (list ReviveData)) (db : IDBDatabase) : IDBDatabase :=
  {| version := version db; settings := settings db; userRevives := userRevives db;
     factionRevives := s; legacyRevives := legacyRevives db;
     paymentStatus := paymentStatus db |}.

Definition set_legacyRevives (s : option (list ReviveData)) (db : IDBDatabase) : IDBDatabase :=
  {| version := version db; settings := settings db; userRevives := userRevives db;
     factionRevives := factionRevives db; legacyRevives := s;
     paymentStatus := paymentStatus db |}.

Definition set_paymentStatus (s : option (gmap string bool)) (db : IDBDatabase) : IDBDatabase :=
  {| version := version db; settings := settings db; userRevives := userRevives db;
     factionRevives := factionRevives db; legacyRevives := legacyRevives db;
     paymentStatus := s |}.

Definition set_version (v : Z) (db : IDBDatabase) : IDBDatabase :=
  {| version := v; settings := settings db; userRevives := userRevives db;
     factionRevives := factionRevives db; legacyRevives := legacyRevives db;
     paymentStatus := paymentStatus db |}.

(** [db.objectStoreNames.contains(name)], one test per store. *)
Definition contains {A} (store : option A) : bool :=
  match store with Some _ => true | None => false end.

End IDB.

(** The [onupgradeneeded] handler of [initDB]. *)
Definition onupgradeneeded (db : IDBDatabase) : IDBDatabase :=
  let db := if negb (IDB.contains (settings db))
            then IDB.set_settings (Some empty_settings) db else db in
  let db := if negb (IDB.contains (userRevives db))
            then IDB.set_userRevives (Some []) db else db in
  let db := if negb (IDB.contains (factionRevives db))
            then IDB.set_factionRevives (Some []) db else db in
  let db := if IDB.contains (legacyRevives db)
            then IDB.set_legacyRevives None db else db in
  let db := if negb (IDB.contains (paymentStatus db))
            then IDB.set_paymentStatus (Some ∅) db else db in
  db.

(** [initDB]: [indexedDB.open(DB_NAME, DB_VERSION)].  A database of a lower
    version is upgraded, one of a higher version is refused ([None]: the
    promise is rejected). *)
Definition initDB (db : IDBDatabase) : option IDBDatabase :=
  if (version db <? IDB.DB_VERSION)%Z
  then Some (IDB.set_version IDB.DB_VERSION (onupgradeneeded db))
  else if (version db =? IDB.DB_VERSION)%Z then Some db
  else None.

Definition revives_store (mode : Mode) (db : IDBDatabase) : option (list ReviveData) :=
  match mode with
  | user => userRevives db
  | faction => factionRevives db
  end.

Definition set_revives_store (mode : Mode) (s : list ReviveData) (db : IDBDatabase)
    : IDBDatabase :=
  match mode with
  | user => IDB.set_userRevives (Some s) db
  | faction => IDB.set_factionRevives (Some s) db
  end.

(** [saveRevives(revives, mode)]: one transaction that puts every record.
    [None] when the database cannot be opened or the store is missing. *)
Definition saveRevives (revives : list ReviveData) (mode : Mode) (db : IDBDatabase)
    : option IDBDatabase :=
  db ← initDB db;
  store ← revives_store mode db;
  Some (set_revives_store mode (foldl (fun store revive => IDB.put revive store) store revives) db).

(** [getAllRevives(mode)]: the records in key order, with the database as
    opening it left it. *)
Definition getAllRevives (mode : Mode) (db : IDBDatabase)
    : option (list ReviveData * IDBDatabase) :=
  db ← initDB db;
  store ← revives_store mode db;
  Some (store, db).

(** [getOldestTimestamp(mode)]: the first entry of the ["timestamp"] index,
    the least timestamp of the store, [None] ([null]) when it is empty. *)
Definition least_timestamp (store : list ReviveData) : option Z :=
  match store with
  | [] => None
  | r :: rest => Some (foldl Z.min (timestamp r) (map timestamp rest))
  end.

Definition getOldestTimestamp (mode : Mode) (db : IDBDatabase)
    : option (option Z * IDBDatabase) :=
  db ← initDB db;
  store ← revives_store mode db;
  Some (least_timestamp store, db).

Definition with_settings (f : SettingsStore -> SettingsStore) (db : IDBDatabase)
    : option IDBDatabase :=
  db ← initDB db;
  s ← settings db;
  Some (IDB.set_settings (Some (f s)) db).

Definition read_settings {A} (f : SettingsStore -> A) (db : IDBDatabase)
    : option (A * IDBDatabase) :=
  db ← initDB db;
  s ← settings db;
  Some (f s, db).

(** [getApiKey]: [request.result || null], an empty key reads as none. *)
Definition getApiKey (db : IDBDatabase) : option (option string * IDBDatabase) :=
  read_settings (fun s =>
    match apiKey s with
    | Some k => if JS.truthy k then Some k else None
    | None => None
    end) db.

Definition saveApiKey (key : string) (db : IDBDatabase) : option IDBDatabase :=
  with_settings (fun s =>
    {| apiKey := Some key; apiMode := apiMode s; excludedFilters := excludedFilters s |}) db.

(** [getApiMode]: [request.result || "user"]. *)
Definition getApiMode (db : IDBDatabase) : option (Mode * IDBDatabase) :=
  read_settings (fun s => default user (apiMode s)) db.

Definition saveApiMode (mode : Mode) (db : IDBDatabase) : option IDBDatabase :=
  with_settings (fun s =>
    {| apiKey := apiKey s; apiMode := Some mode; excludedFilters := excludedFilters s |}) db.

Definition saveExcludedFilters (excludedPlayers excludedFactions : list string)
    (db : IDBDatabase) : option IDBDatabase :=
  with_settings (fun s =>
    {| apiKey := apiKey s; apiMode := apiMode s;
       excludedFilters :=
         Some {| players := excludedPlayers; factions := excludedFactions |} |}) db.

Definition getExcludedFilters (db : IDBDatabase)
    : option (option ExcludedFilters * IDBDatabase) :=
  read_settings excludedFilters db.

(** ** The table view ([components/revives-table.tsx]) *)

Inductive SortField := by_time | by_skill | by_likelihood.
Inductive SortDirection := asc | desc.

(** The selected days, as [Date.getTime()] milliseconds. *)
Record DateRange := { from : option Z; to : option Z }.

(** The component state.  [categoryFilter] is [None] for ["all"].
    [pageJumpInput] is the text of the jump box as [Number()] reads it:
    [None] for [NaN], [Some 0] for the empty text. *)
Record Table := {
  sortField : SortField;
  sortDirection : SortDirection;
  currentPage : Q;
  pageSize : Z;
  pageJumpInput : option Q;
  categoryFilter : option category;
  outcomeFilter : string;
  dateRange : DateRange;
  playerSearch : string;
  factionSearch : string;
  excludedPlayers : gset string;
  excludedFactions : gset string
}.

Definition initial_table : Table :=
  {| sortField := by_time; sortDirection := desc; currentPage := 1%Q;
     pageSize := 10; pageJumpInput := Some 0%Q;
     categoryFilter := None; outcomeFilter := "all";
     dateRange := {| from := None; to := None |};
     playerSearch := ""; factionSearch := "";
     excludedPlayers := ∅; excludedFactions := ∅ |}.

(** The page sizes offered by the rows-per-page select. *)
Definition allowed_page_sizes : list Z := [5; 10; 15; 20]%Z.

Definition category_eqb (a b : category) : bool :=
  match a, b with
  | PvP, PvP | OD, OD | Crime, Crime | RR, RR | SelfHosp, SelfHosp | Casino, Casino => true
  | _, _ => false
  end.

(** [set.has(x)]. *)
Definition has (s : gset string) (x : string) : bool := bool_decide (x ∈ s).

(** The faction-name search keeps a record when
    [r.target.faction?.name.toLowerCase().includes(searchLower)] is truthy;
    the chain is [undefined] for a target without faction. *)
Definition faction_search_keeps (searchLower : string) (r : EnrichedRevive) : bool :=
  match target_faction (e_target r) with
  | None => false
  | Some f => JS.includes (JS.toLowerCase (faction_name f)) searchLower
  end.

(** [!excludedPlayers.has(r.target.name)]. *)
Definition player_exclusion_keeps (excluded : gset string) (r : EnrichedRevive) : bool :=
  negb (has excluded (target_name (e_target r))).

(** [!r.target.faction?.name || !excludedFactions.has(r.target.faction.name)]. *)
Definition faction_exclusion_keeps (excluded : gset string) (r : EnrichedRevive) : bool :=
  match target_faction (e_target r) with
  | None => true
  | Some f => negb (JS.truthy (faction_name f)) || negb (has excluded (faction_name f))
  end.

(** The comparator handed to [filtered.sort]. *)
Definition compare_revives (t : Table) (a b : EnrichedRevive) : Q :=
  let comparison :=
    match sortField t with
    | by_time => JSNum.of_Z (e_timestamp a - e_timestamp b)
    | by_skill =>
        JSNum.sub (JS.opt_or_zero (skill (e_reviver a))) (JS.opt_or_zero (skill (e_reviver b)))
    | by_likelihood => JSNum.sub (Chance a) (Chance b)
    end in
  match sortDirection t with
  | asc => comparison
  | desc => Qopp comparison
  end.

(** The filter steps of [filteredAndSortedRevives], before the sort. *)
Definition filtered_revives (t : Table) (revives : list EnrichedRevive)
    : list EnrichedRevive :=
  let filtered := revives in
  let filtered :=
    match categoryFilter t with
    | None => filtered
    | Some c => List.filter (fun r => category_eqb (Category r) c) filtered
    end in
  let filtered :=
    if negb (String.eqb (outcomeFilter t) "all") then
      let isSuccess := String.eqb (outcomeFilter t) "success" in
      List.filter (fun r => Bool.eqb (Success r) isSuccess) filtered
    else filtered in
  let filtered :=
    if JS.truthy (JS.trim (playerSearch t)) then
      let searchLower := JS.toLowerCase (playerSearch t) in
      List.filter (fun r => JS.includes (JS.toLowerCase (target_name (e_target r))) searchLower)
        filtered
    else filtered in
  let filtered :=
    if JS.truthy (JS.trim (factionSearch t)) then
      let searchLower := JS.toLowerCase (factionSearch t) in
      List.filter (faction_search_keeps searchLower) filtered
    else filtered in
  let filtered :=
    if (0 <? size (excludedPlayers t))%nat then
      List.filter (player_exclusion_keeps (excludedPlayers t)) filtered
    else filtered in
  let filtered :=
    if (0 <? size (excludedFactions t))%nat then
      List.filter (faction_exclusion_keeps (excludedFactions t)) filtered
    else filtered in
  let filtered :=
    match from (dateRange t) with
    | Some d =>
        let fromTimestamp := (d / 1000)%Z in
        List.filter (fun r => (fromTimestamp <=? e_timestamp r)%Z) filtered
    | None => filtered
    end in
  let filtered :=
    match to (dateRange t) with
    | Some d =>
        let toTimestamp := (d / 1000 + 86399)%Z in
        List.filter (fun r => (e_timestamp r <=? toTimestamp)%Z) filtered
    | None => filtered
    end in
  filtered.

Definition filteredAndSortedRevives (t : Table) (revives : list EnrichedRevive)
    : list EnrichedRevive :=
  JSNum.sort (compare_revives t) (filtered_revives t revives).

(** *** Pagination *)

Definition set_page (page : Q) (jump : option Q) (t : Table) : Table :=
  {| sortField := sortField t; sortDirection := sortDirection t;
     currentPage := page; pageSize := pageSize t; pageJumpInput := jump;
     categoryFilter := categoryFilter t; outcomeFilter := outcomeFilter t;
     dateRange := dateRange t; playerSearch := playerSearch t;
     factionSearch := factionSearch t;
     excludedPlayers := excludedPlayers t; excludedFactions := excludedFactions t |}.

(** [Math.ceil(filteredAndSortedRevives.length / pageSize)]. *)
Definition total_pages_of (filteredCount : nat) (pageSize : Z) : Z :=
  JS.Math_ceil (JSNum.div (JSNum.of_Z (Z.of_nat filteredCount)) (JSNum.of_Z pageSize)).

Definition totalPages (t : Table) (revives : list EnrichedRevive) : Z :=
  total_pages_of (length (filteredAndSortedRevives t revives)) (pageSize t).

(** The total shown in the footer, [totalPages || 1]. *)
Definition shown_total_pages (t : Table) (revives : list EnrichedRevive) : Z :=
  if (totalPages t revives =? 0)%Z then 1%Z else totalPages t revives.

(** [handlePageChange(newPage)]: the new state, and whether [onLoadMore] is
    called. *)
Definition handlePageChange (newPage : Q) (isLoadingMore : bool)
    (revives : list EnrichedRevive) (t : Table) : Table * bool :=
  (set_page newPage (pageJumpInput t) t,
   Qeq_bool newPage (JSNum.of_Z (totalPages t revives)) && negb isLoadingMore).

(** [handlePageJump]: the jump box is read as a number; a number outside
    [1 .. totalPages] (or [NaN]) changes nothing. *)
Definition handlePageJump (isLoadingMore : bool) (revives : list EnrichedRevive)
    (t : Table) : Table * bool :=
  match pageJumpInput t with
  | Some pageNum =>
      if Qle_bool 1 pageNum && Qle_bool pageNum (JSNum.of_Z (totalPages t revives)) then
        let '(t', more) := handlePageChange pageNum isLoadingMore revives t in
        (set_page (currentPage t') (Some 0%Q) t', more)
      else (t, false)
  | None => (t, false)
  end.

(** *** Exclusion toggles and their persistence *)

Definition set_excluded (p f : gset string) (t : Table) : Table :=
  {| sortField := sortField t; sortDirection := sortDirection t;
     currentPage := 1%Q; pageSize := pageSize t; pageJumpInput := pageJumpInput t;
     categoryFilter := categoryFilter t; outcomeFilter := outcomeFilter t;
     dateRange := dateRange t; playerSearch := playerSearch t;
     factionSearch := factionSearch t;
     excludedPlayers := p; excludedFactions := f |}.

(** [newSet.has(x) ? newSet.delete(x) : newSet.add(x)] on a copy. *)
Definition toggle (x : string) (s : gset string) : gset string :=
  if has s x then s ∖ {[x]} else s ∪ {[x]}.

(** A save whose promise nobody awaits: a failed save changes nothing. *)
Definition save_or_keep (save : IDBDatabase -> option IDBDatabase) (db : IDBDatabase)
    : IDBDatabase :=
  default db (save db).

(** [toggleExcludePlayer(player)]: the state is replaced (which resets the
    page) and the two sets are saved. *)
Definition toggleExcludePlayer (player : string) (w : Table * IDBDatabase)
    : Table * IDBDatabase :=
  let '(t, db) := w in
  let newSet := toggle player (excludedPlayers t) in
  (set_excluded newSet (excludedFactions t) t,
   save_or_keep (saveExcludedFilters (elements newSet) (elements (excludedFactions t))) db).

Definition toggleExcludeFaction (fac : string) (w : Table * IDBDatabase)
    : Table * IDBDatabase :=
  let '(t, db) := w in
  let newSet := toggle fac (excludedFactions t) in
  (set_excluded (excludedPlayers t) newSet t,
   save_or_keep (saveExcludedFilters (elements (excludedPlayers t)) (elements newSet)) db).

(** The mount effect [loadExcludedFilters]: the saved lists become the
    sets; nothing changes when nothing was saved or the read fails. *)
Definition loadExcludedFilters (w : Table * IDBDatabase) : Table * IDBDatabase :=
  let '(t, db) := w in
  match getExcludedFilters db with
  | Some (Some filters, db') =>
      (set_excluded (list_to_set (players filters)) (list_to_set (factions filters)) t, db')
  | Some (None, db') => (t, db')
  | None => (t, db)
  end.

(** A reload of the page mounts the component afresh over the same
    database.  It is first rendered with the initial state, the exclusion
    sets empty; the mount effect then reads the saved sets, and the
    component is rendered with them. *)
Definition first_render (w : Table * IDBDatabase) : Table * IDBDatabase :=
  (initial_table, snd w).

(** The reloaded component once the mount effect has run. *)
Definition reload (w : Table * IDBDatabase) : Table * IDBDatabase :=
  loadExcludedFilters (first_render w).

(** The other handlers that change what the table shows. *)
Definition set_filters (c : option category) (o : string) (d : DateRange)
    (ps fs : string) (t : Table) : Table :=
  {| sortField := sortField t; sortDirection := sortDirection t;
     currentPage := 1%Q; pageSize := pageSize t; pageJumpInput := pageJumpInput t;
     categoryFilter := c; outcomeFilter := o; dateRange := d;
     playerSearch := ps; factionSearch := fs;
     excludedPlayers := excludedPlayers t; excludedFactions := excludedFactions t |}.

Definition set_sort (f : SortField) (d : SortDirection) (t : Table) : Table :=
  {| sortField := f; sortDirection := d;
     currentPage := currentPage t; pageSize := pageSize t;
     pageJumpInput := pageJumpInput t;
     categoryFilter := categoryFilter t; outcomeFilter := outcomeFilter t;
     dateRange := dateRange t; playerSearch := playerSearch t;
     factionSearch := factionSearch t;
     excludedPlayers := excludedPlayers t; excludedFactions := excludedFactions t |}.

(** [handleSort(field)]. *)
Definition handleSort (field : SortField) (t : Table) : Table :=
  let same :=
    match sortField t, field with
    | by_time, by_time | by_skill, by_skill | by_likelihood, by_likelihood => true
    | _, _ => false
    end in
  if same then
    set_sort (sortField t) (match sortDirection t with asc => desc | desc => asc end) t
  else set_sort field desc t.

(** [handlePageSizeChange(newSize)]. *)
Definition handlePageSizeChange (newSize : Z) (t : Table) : Table :=
  {| sortField := sortField t; sortDirection := sortDirection t;
     currentPage := 1%Q; pageSize := newSize; pageJumpInput := pageJumpInput t;
     categoryFilter := categoryFilter t; outcomeFilter := outcomeFilter t;
     dateRange := dateRange t; playerSearch := playerSearch t;
     factionSearch := factionSearch t;
     excludedPlayers := excludedPlayers t; excludedFactions := excludedFactions t |}.

(** [resetFilters]: every filter and the sort go back to their defaults.
    The emptied exclusion sets are not saved. *)
Definition resetFilters (t : Table) : Table :=
  {| sortField := by_time; sortDirection := desc;
     currentPage := 1%Q; pageSize := pageSize t; pageJumpInput := pageJumpInput t;
     categoryFilter := None; outcomeFilter := "all";
     dateRange := {| from := None; to := None |};
     playerSearch := ""; factionSearch := "";
     excludedPlayers := ∅; excludedFactions := ∅ |}.

#[global] Instance category_eq_dec : EqDecision category.
Proof. solve_decision. Defined.

(** What the user can do to a mounted table.  A filter setter that is given
    the value the filter already has changes nothing; otherwise the effect
    on the filters puts the table back on page 1.  [Reload] is a reload of
    the page, up to the end of its mount effect: the component has been
    through [first_render] when the event is over. *)
Inductive TableEvent :=
| SetCategoryFilter (c : option category)
| SetOutcomeFilter (o : string)
| SetPlayerSearch (s : string)
| SetFactionSearch (s : string)
| SetFromDate (d : option Z)
| SetToDate (d : option Z)
| ToggleExcludePlayer (player : string)
| ToggleExcludeFaction (fac : string)
| ResetFilters
| Sort (field : SortField)
| PageChange (newPage : Q)
| PageSizeChange (newSize : Z)
| Reload.

Definition handle (ev : TableEvent) (w : Table * IDBDatabase) : Table * IDBDatabase :=
  let '(t, db) := w in
  match ev with
  | SetCategoryFilter c =>
      if decide (c = categoryFilter t) then w else
      (set_filters c (outcomeFilter t) (dateRange t) (playerSearch t) (factionSearch t) t, db)
  | SetOutcomeFilter o =>
      if decide (o = outcomeFilter t) then w else
      (set_filters (categoryFilter t) o (dateRange t) (playerSearch t) (factionSearch t) t, db)
  | SetPlayerSearch s =>
      if decide (s = playerSearch t) then w else
      (set_filters (categoryFilter t) (outcomeFilter t) (dateRange t) s (factionSearch t) t, db)
  | SetFactionSearch s =>
      if decide (s = factionSearch t) then w else
      (set_filters (categoryFilter t) (outcomeFilter t) (dateRange t) (playerSearch t) s t, db)
  | SetFromDate d =>
      (set_filters (categoryFilter t) (outcomeFilter t)
         {| from := d; to := to (dateRange t) |} (playerSearch t) (factionSearch t) t, db)
  | SetToDate d =>
      (set_filters (categoryFilter t) (outcomeFilter t)
         {| from := from (dateRange t); to := d |} (playerSearch t) (factionSearch t) t, db)
  | ToggleExcludePlayer player => toggleExcludePlayer player w
  | ToggleExcludeFaction fac => toggleExcludeFaction fac w
  | ResetFilters => (resetFilters t, db)
  | Sort field => (handleSort field t, db)
  | PageChange newPage => (set_page newPage (pageJumpInput t) t, db)
  | PageSizeChange newSize => (handlePageSizeChange newSize t, db)
  | Reload => reload w
  end.

(** The events that take a player out of the excluded players. *)
Definition unexcludes (player : string) (ev : TableEvent) : Prop :=
  ev = ToggleExcludePlayer player \/ ev = ResetFilters.

(** The events during or after which a view can show an excluded player
    again: the two above, and a reload, whose first render has no
    exclusion. *)
Definition ends_exclusion (player : string) (ev : TableEvent) : Prop :=
  unexcludes player ev \/ ev = Reload.

(** ** The dashboard ([components/revives-dashboard.tsx]) *)

(** The component state read and written by [fetchRevives]. *)
Record Dashboard := {
  revives : list EnrichedRevive;
  isLoading : bool;
  isFetching : bool;
  isLoadingMore : bool;
  error : string;
  userReviveId : Z;
  hasMoreData : bool;
  mode : Mode;
  factionId : Z
}.

(** The dashboard, the database under it, and what it emitted: whether
    [onLogout] was called and the titles of the toasts shown. *)
Record World := {
  dash : Dashboard;
  db : IDBDatabase;
  loggedOut : bool;
  toasts : list string
}.

(** What the request sent by [fetchRevives] depends on. *)
Record Request := {
  req_mode : Mode;
  req_to : option Z;
  req_key : string
}.

(** What comes back: [fetch] rejects (no network), the response is not
    [ok] (for one, the key is not authorized), its body is not JSON, or the
    body is read, with or without a [revives] field. *)
Inductive Response :=
| FetchRejected
| NotOk
| BadJson
| Body (revives : option (list ReviveData)).

Definition fetch_failed (r : Response) : bool :=
  match r with
  | FetchRejected | NotOk | BadJson => true
  | Body _ => false
  end.

(** The body of a [try] block: a computation over the world that returns or
    throws; the world it leaves is kept in both cases. *)
Module Try.

Inductive outcome (A : Type) := Returned (a : A) | Thrown.
Arguments Returned {A} a.
Arguments Thrown {A}.

Definition M (A : Type) : Type := World -> outcome A * World.

Definition ret {A} (a : A) : M A := fun w => (Returned a, w).
Definition throw {A} : M A := fun w => (Thrown, w).
Definition bind {A B} (m : M A) (f : A -> M B) : M B :=
  fun w =>
    match m w with
    | (Returned a, w') => f a w'
    | (Thrown, w') => (Thrown, w')
    end.

(** A state update [setX(v)]. *)
Definition update (f : Dashboard -> Dashboard) : M unit :=
  fun w => (Returned tt,
            {| dash := f (dash w); db := db w; loggedOut := loggedOut w;
               toasts := toasts w |}).

Definition toast (title : string) : M unit :=
  fun w => (Returned tt,
            {| dash := dash w; db := db w; loggedOut := loggedOut w;
               toasts := toasts w ++ [title] |}).

Definition onLogout : M unit :=
  fun w => (Returned tt,
            {| dash := dash w; db := db w; loggedOut := true; toasts := toasts w |}).

(** An awaited read of the store: a rejected promise throws. *)
Definition read {A} (f : IDBDatabase -> option (A * IDBDatabase)) : M A :=
  fun w =>
    match f (db w) with
    | Some (a, db') =>
        (Returned a, {| dash := dash w; db := db'; loggedOut := loggedOut w;
                        toasts := toasts w |})
    | None => (Thrown, w)
    end.

(** An awaited write. *)
Definition write (f : IDBDatabase -> option IDBDatabase) : M unit :=
  fun w =>
    match f (db w) with
    | Some db' =>
        (Returned tt, {| dash := dash w; db := db'; loggedOut := loggedOut w;
                         toasts := toasts w |})
    | None => (Thrown, w)
    end.

Definition when (b : bool) (m : M unit) : M unit := if b then m else ret tt.

End Try.

#[global] Instance try_ret : MRet Try.M := @Try.ret.
#[global] Instance try_bind : MBind Try.M := fun A B f m => Try.bind m f.

Definition set_isLoadingMore (b : bool) (d : Dashboard) : Dashboard :=
  {| revives := revives d; isLoading := isLoading d; isFetching := isFetching d;
     isLoadingMore := b; error := error d; userReviveId := userReviveId d;
     hasMoreData := hasMoreData d; mode := mode d; factionId := factionId d |}.

Definition set_isFetching (b : bool) (d : Dashboard) : Dashboard :=
  {| revives := revives d; isLoading := isLoading d; isFetching := b;
     isLoadingMore := isLoadingMore d; error := error d; userReviveId := userReviveId d;
     hasMoreData := hasMoreData d; mode := mode d; factionId := factionId d |}.

Definition set_isLoading (b : bool) (d : Dashboard) : Dashboard :=
  {| revives := revives d; isLoading := b; isFetching := isFetching d;
     isLoadingMore := isLoadingMore d; error := error d; userReviveId := userReviveId d;
     hasMoreData := hasMoreData d; mode := mode d; factionId := factionId d |}.

Definition set_error (e : string) (d : Dashboard) : Dashboard :=
  {| revives := revives d; isLoading := isLoading d; isFetching := isFetching d;
     isLoadingMore := isLoadingMore d; error := e; userReviveId := userReviveId d;
     hasMoreData := hasMoreData d; mode := mode d; factionId := factionId d |}.

Definition set_userReviveId (i : Z) (d : Dashboard) : Dashboard :=
  {| revives := revives d; isLoading := isLoading d; isFetching := isFetching d;
     isLoadingMore := isLoadingMore d; error := error d; userReviveId := i;
     hasMoreData := hasMoreData d; mode := mode d; factionId := factionId d |}.

Definition set_hasMoreData (b : bool) (d : Dashboard) : Dashboard :=
  {| revives := revives d; isLoading := isLoading d; isFetching := isFetching d;
     isLoadingMore := isLoadingMore d; error := error d; userReviveId := userReviveId d;
     hasMoreData := b; mode := mode d; factionId := factionId d |}.

Definition set_mode (m : Mode) (d : Dashboard) : Dashboard :=
  {| revives := revives d; isLoading := isLoading d; isFetching := isFetching d;
     isLoadingMore := isLoadingMore d; error := error d; userReviveId := userReviveId d;
     hasMoreData := hasMoreData d; mode := m; factionId := factionId d |}.

Definition set_factionId (i : Z) (d : Dashboard) : Dashboard :=
  {| revives := revives d; isLoading := isLoading d; isFetching := isFetching d;
     isLoadingMore := isLoadingMore d; error := error d; userReviveId := userReviveId d;
     hasMoreData := hasMoreData d; mode := mode d; factionId := i |}.

Definition set_revives (rs : list EnrichedRevive) (d : Dashboard) : Dashboard :=
  {| revives := rs; isLoading := isLoading d; isFetching := isFetching d;
     isLoadingMore := isLoadingMore d; error := error d; userReviveId := userReviveId d;
     hasMoreData := hasMoreData d; mode := mode d; factionId := factionId d |}.

(** [fetchedRevives[0]?.reviver?.id], [0] standing for a missing one (both
    are falsy). *)
Definition first_reviver_id (fetched : list ReviveData) : Z :=
  match fetched with
  | [] => 0
  | r :: _ => reviver_id (reviver r)
  end.

(** [fetchedRevives[0]?.reviver?.faction?.id]. *)
Definition first_faction_id (fetched : list ReviveData) : Z :=
  match fetched with
  | r :: _ =>
      match reviver_faction (reviver r) with
      | Some f => faction_id f
      | None => 0
      end
  | [] => 0
  end.

(** The request of one call: the key and mode saved in the settings, and
    for a backfill the oldest cached timestamp when it is truthy. *)
Definition request_of (backfill : bool) (currentMode : Mode) (key : string)
    (oldestTimestamp : option Z) : Request :=
  {| req_mode := currentMode;
     req_to :=
       if backfill then
         match oldestTimestamp with
         | Some ts => if (ts =? 0)%Z then None else Some ts
         | None => None
         end
       else None;
     req_key := key |}.

Section FetchRevives.

(** The data source: what each request is answered with. *)
Variable fetch : Request -> Response.

(** State read from the render the handler was created in. *)
Variable closure : Dashboard.

(** The [try] block of [fetchRevives]. *)
Definition fetch_body (backfill : bool) : Try.M unit :=
  key ← Try.read getApiKey;
  match key with
  | None => Try.onLogout
  | Some key =>
      currentMode ← Try.read getApiMode;
      Try.update (set_mode currentMode);;
      oldestTimestamp ←
        (if backfill then Try.read (getOldestTimestamp currentMode) else Try.ret None);
      match fetch (request_of backfill currentMode key oldestTimestamp) with
      | FetchRejected | NotOk | BadJson => Try.throw
      | Body data =>
          let fetchedRevives := default [] data in
          Try.when (backfill && (length fetchedRevives =? 0)%nat)
            (Try.update (set_hasMoreData false));;
          if (0 <? length fetchedRevives)%nat then
            Try.when ((userReviveId closure =? 0)%Z
                      && negb (first_reviver_id fetchedRevives =? 0)%Z)
              (Try.update (set_userReviveId (first_reviver_id fetchedRevives)));;
            Try.when ((factionId closure =? 0)%Z
                      && negb (first_faction_id fetchedRevives =? 0)%Z)
              (Try.update (set_factionId (first_faction_id fetchedRevives)));;
            Try.write (saveRevives fetchedRevives currentMode);;
            allRevives ← Try.read (getAllRevives currentMode);
            let reference :=
              if (first_reviver_id fetchedRevives =? 0)%Z then userReviveId closure
              else first_reviver_id fetchedRevives in
            Try.update (set_revives (enrichRevives allRevives reference));;
            Try.toast (if backfill then "Loaded more revives" else "Revives refreshed")
          else if backfill then
            Try.update (set_hasMoreData false);;
            Try.toast "No more data"
          else Try.ret tt
      end
  end.

(** [fetchRevives(backfill)]: the flags are raised, the body runs, a
    throw is caught and turned into the error message, and the flags are
    lowered whatever happened. *)
Definition fetchRevives (backfill : bool) (w : World) : World :=
  let start : Try.M unit :=
    Try.update (if backfill then set_isLoadingMore true else set_isFetching true);;
    Try.update (set_error "") in
  let '(_, w) := start w in
  let '(r, w) := fetch_body backfill w in
  let '(_, w) :=
    match r with
    | Try.Returned _ => Try.ret tt w
    | Try.Thrown => Try.update (set_error "Failed to fetch revives. Please try again.") w
    end in
  let finally : Try.M unit :=
    Try.update (set_isLoading false);;
    Try.update (set_isFetching false);;
    Try.update (set_isLoadingMore false) in
  snd (finally w).

End FetchRevives.

(** [handleRefresh] and [handleLoadMore], called from a render whose state
    is the current one. *)
Definition handleRefresh (fetch : Request -> Response) (w : World) : World :=
  let '(_, w') := Try.update (set_hasMoreData true) w in
  fetchRevives fetch (dash w) false w'.

Definition handleLoadMore (fetch : Request -> Response) (w : World) : World :=
  fetchRevives fetch (dash w) true w.

(** ** Vocabulary of the statements about the store *)

(** A store of revives is kept in ascending order of key. *)
Definition sorted_by_id (store : list ReviveData) : Prop :=
  StronglySorted (fun a b => (id a < id b)%Z) store.

(** A database this application can have left behind: of a version it can
    open, with its revive stores in key order, and with every store of the
    current schema once it is at the current version. *)
Record well_formed (db : IDBDatabase) : Prop := {
  wf_version : (version db <= IDB.DB_VERSION)%Z;
  wf_user : forall s, userRevives db = Some s -> sorted_by_id s;
  wf_faction : forall s, factionRevives db = Some s -> sorted_by_id s;
  wf_current :
    version db = IDB.DB_VERSION ->
    is_Some (settings db) /\ is_Some (userRevives db) /\ is_Some (factionRevives db)
}.

(** A database that was never opened. *)
Definition no_database : IDBDatabase :=
  {| version := 0; settings := None; userRevives := None; factionRevives := None;
     legacyRevives := None; paymentStatus := None |}.

(** The last record of a page that carries the key [k]. *)
Definition last_with_id (k : Z) (page : list ReviveData) : option ReviveData :=
  last (List.filter (fun r => (id r =? k)%Z) page).

(** The puts of one [saveRevives] transaction. *)
Definition put_page (store page : list ReviveData) : list ReviveData :=
  foldl (fun store revive => IDB.put revive store) store page.

(** A run of merges, each a page saved under a mode, as refresh and
    backfill issue them. *)
Definition merges (pages : list (Mode * list ReviveData)) (db : IDBDatabase)
    : option IDBDatabase :=
  foldl (fun odb pg => odb ≫= saveRevives (snd pg) (fst pg)) (Some db) pages.

Definition mode_eqb (a b : Mode) : bool :=
  match a, b with
  | user, user | faction, faction => true
  | _, _ => false
  end.

(** Everything the run wrote under [mode], in the order written. *)
Definition written (mode : Mode) (pages : list (Mode * list ReviveData))
    : list ReviveData :=
  concat (snd <$> List.filter (fun pg => mode_eqb (fst pg) mode) pages).

(** The records of a mode once the database is open: those of its store,
    none when the store is yet to be created. *)
Definition cached (mode : Mode) (db : IDBDatabase) : list ReviveData :=
  default [] (revives_store mode db).

(** ** Vocabulary of the statements about the view *)

(** The conjunction of the filter steps of [filtered_revives] on one
    record, each step counting only when its filter is set. *)
Definition passes (t : Table) (r : EnrichedRevive) : bool :=
  match categoryFilter t with
  | None => true
  | Some c => category_eqb (Category r) c
  end
  && (if negb (String.eqb (outcomeFilter t) "all")
      then Bool.eqb (Success r) (String.eqb (outcomeFilter t) "success") else true)
  && (if JS.truthy (JS.trim (playerSearch t))
      then JS.includes (JS.toLowerCase (target_name (e_target r)))
             (JS.toLowerCase (playerSearch t))
      else true)
  && (if JS.truthy (JS.trim (factionSearch t))
      then faction_search_keeps (JS.toLowerCase (factionSearch t)) r else true)
  && (if (0 <? size (excludedPlayers t))%nat
      then player_exclusion_keeps (excludedPlayers t) r else true)
  && (if (0 <? size (excludedFactions t))%nat
      then faction_exclusion_keeps (excludedFactions t) r else true)
  && match from (dateRange t) with
     | Some d => (d / 1000 <=? e_timestamp r)%Z
     | None => true
     end
  && match to (dateRange t) with
     | Some d => (e_timestamp r <=? d / 1000 + 86399)%Z
     | None => true
     end.

(** The sets of the table agree with the saved lists. *)
Definition saved_in (db : IDBDatabase) (t : Table) : Prop :=
  version db = IDB.DB_VERSION
  /\ exists s f,
       settings db = Some s /\ excludedFilters s = Some f
       /\ list_to_set (players f) = excludedPlayers t
       /\ list_to_set (factions f) = excludedFactions t.

(** A run of events on a mounted table. *)
Definition run (evs : list TableEvent) (w : Table * IDBDatabase) : Table * IDBDatabase :=
  foldl (fun w ev => handle ev w) w evs.

(** The table with another faction search. *)
Definition with_factionSearch (s : string) (t : Table) : Table :=
  {| sortField := sortField t; sortDirection := sortDirection t;
     currentPage := currentPage t; pageSize := pageSize t;
     pageJumpInput := pageJumpInput t;
     categoryFilter := categoryFilter t; outcomeFilter := outcomeFilter t;
     dateRange := dateRange t; playerSearch := playerSearch t;
     factionSearch := s;
     excludedPlayers := excludedPlayers t; excludedFactions := excludedFactions t |}.

(** ** Sample data *)

Module Sample.

(** A successful revive by player 7 of the target [name], member of
    [fac], logged under [rid] at time [ts] with skill [sk]. *)
Definition revive_of (rid ts : Z) (sk : Q) (name : string) (fac : option Faction)
    : ReviveData :=
  {| id := rid;
     reviver := {| reviver_id := 7; reviver_name := "Reviver";
                   reviver_faction := None; skill := Some sk |};
     target := {| target_id := 9; target_name := name; target_faction := fac;
                  hospital_reason := Some "Hospitalized by someone" |};
     result := "success";
     success_chance := 90;
     timestamp := ts |}.

Definition first_page : list ReviveData :=
  [revive_of 1 100 50 "Ann" None; revive_of 2 200 40 "Bob" None].

(** A page that overlaps [first_page] on id 2. *)
Definition second_page : list ReviveData :=
  [revive_of 2 250 40 "Bob" None; revive_of 3 300 20 "Cid" None].

Definition pages : list (Mode * list ReviveData) :=
  [(user, first_page); (user, second_page)].

(** A database left by the previous version of the application: one
    store ["revives"] for the records, and no mode-scoped store. *)
Definition legacy_database : IDBDatabase :=
  {| version := 2;
     settings := Some empty_settings;
     userRevives := None;
     factionRevives := None;
     legacyRevives := Some first_page;
     paymentStatus := Some ∅ |}.

Definition one_record : list EnrichedRevive :=
  [enrich_one (revive_of 1 100 50 "Ann" None)].

End Sample.

Module SampleGain.


End SampleGain.

Module SampleView.

(** A target without faction. *)
Definition factionless : EnrichedRevive :=
  enrich_one (Sample.revive_of 2 200 40 "Bob" None).

(** A faction search of one space. *)
Definition searching_blank : Table := with_factionSearch " " initial_table.

(** A fresh table over a new database, after "Bob" was excluded. *)
Definition bob_excluded : Table * IDBDatabase :=
  toggleExcludePlayer "Bob" (initial_table, no_database).

End SampleView.

(** ** Vocabulary of the statements about the dashboard *)

(** The request a call of [fetchRevives] sends over a database, when it
    gets as far as sending one: the settings can be read and hold a key. *)
Definition request_for (backfill : bool) (db : IDBDatabase) : option Request :=
  r ← getApiKey db;
  key ← fst r;
  r ← getApiMode (snd r);
  let currentMode := fst r in
  r ← (if backfill then getOldestTimestamp currentMode (snd r) else Some (None, snd r));
  Some (request_of backfill currentMode key (fst r)).

Module SampleWorld.

(** An open database that holds a key and two cached records. *)
Definition database : IDBDatabase :=
  {| version := IDB.DB_VERSION;
     settings := Some {| apiKey := Some "key"; apiMode := Some user;
                         excludedFilters := None |};
     userRevives := Some Sample.first_page;
     factionRevives := Some [];
     legacyRevives := None;
     paymentStatus := Some ∅ |}.

(** A dashboard that showed everything there was to load. *)
Definition world : World :=
  {| dash := {| revives := enrichRevives Sample.first_page 7;
                isLoading := false; isFetching := false; isLoadingMore := false;
                error := ""; userReviveId := 7; hasMoreData := false;
                mode := user; factionId := 0 |};
     db := database; loggedOut := false; toasts := [] |}.

(** A data source that refuses the key. *)
Definition unauthorized (_ : Request) : Response := NotOk.

End SampleWorld.

(** ** The rest of the store ([lib/indexeddb.ts]) *)

(** [clearApiKey]: [store.delete("apiKey")]. *)
Definition clearApiKey (db : IDBDatabase) : option IDBDatabase :=
  with_settings (fun s =>
    {| apiKey := None; apiMode := apiMode s; excludedFilters := excludedFilters s |}) db.

(** [setPaymentStatus(id, isPaid)]: [store.put({ id, isPaid })] on the
    store of payment statuses, whose key path is ["id"]. *)
Definition setPaymentStatus (key : string) (isPaid : bool) (db : IDBDatabase)
    : option IDBDatabase :=
  db ← initDB db;
  store ← paymentStatus db;
  Some (IDB.set_paymentStatus (Some (<[key := isPaid]> store)) db).

(** [getPaymentStatus(id)]: [result ? result.isPaid : false]. *)
Definition getPaymentStatus (key : string) (db : IDBDatabase)
    : option (bool * IDBDatabase) :=
  db ← initDB db;
  store ← paymentStatus db;
  Some (default false (store !! key), db).

(** [getAllPaymentStatuses]: the object that maps every stored id to its
    [isPaid]. *)
Definition getAllPaymentStatuses (db : IDBDatabase)
    : option (gmap string bool * IDBDatabase) :=
  db ← initDB db;
  store ← paymentStatus db;
  Some (store, db).

(** [clearAllData]: one transaction over the four stores of the current
    schema, each of them cleared.  The transaction cannot be opened when
    one of them is missing. *)
Definition clearAllData (db : IDBDatabase) : option IDBDatabase :=
  db ← initDB db;
  _ ← settings db;
  _ ← userRevives db;
  _ ← factionRevives db;
  _ ← paymentStatus db;
  Some {| version := version db;
          settings := Some empty_settings;
          userRevives := Some [];
          factionRevives := Some [];
          legacyRevives := legacyRevives db;
          paymentStatus := Some ∅ |}.

(** *** Vocabulary *)

(** A well-formed database that also has its store of payment statuses
    once it is at the current version, as every database opened by
    [initDB] has. *)
Definition ready (db : IDBDatabase) : Prop :=
  well_formed db
  /\ (version db = IDB.DB_VERSION -> is_Some (paymentStatus db)).

(** The database as [initDB] leaves it. *)
Definition open_db (db : IDBDatabase) : IDBDatabase :=
  {| version := IDB.DB_VERSION;
     settings := Some (default empty_settings (settings db));
     userRevives := Some (default [] (userRevives db));
     factionRevives := Some (default [] (factionRevives db));
     legacyRevives :=
       if (version db <? IDB.DB_VERSION)%Z then None else legacyRevives db;
     paymentStatus := Some (default ∅ (paymentStatus db)) |}.

(** What the reads return, without the database they hand on. *)
Definition read {A} (r : option (A * IDBDatabase)) : option A := fst <$> r.

(** ** The rest of the dashboard ([components/revives-dashboard.tsx]) *)

(** [loadFromCache]: the mode and the cached records of that mode are read;
    a cache that is not empty is enriched with the reviver of its first
    record as reference and shown.  A failed read is logged and changes
    nothing more. *)
Definition loadFromCache (w : World) : World :=
  let body : Try.M unit :=
    currentMode ← Try.read getApiMode;
    Try.update (set_mode currentMode);;
    cachedRevives ← Try.read (getAllRevives currentMode);
    if (0 <? length cachedRevives)%nat then
      Try.update (set_revives (enrichRevives cachedRevives (first_reviver_id cachedRevives)));;
      Try.when (negb (first_reviver_id cachedRevives =? 0)%Z)
        (Try.update (set_userReviveId (first_reviver_id cachedRevives)));;
      Try.when (negb (first_faction_id cachedRevives =? 0)%Z)
        (Try.update (set_factionId (first_faction_id cachedRevives)))
    else Try.ret tt in
  snd (body w).

(** [handleLogout]: the key is cleared, then the toast is shown and
    [onLogout] called; when clearing fails neither happens. *)
Definition handleLogout (w : World) : World :=
  let body : Try.M unit :=
    Try.write clearApiKey;;
    Try.toast "Logged out";;
    Try.onLogout in
  snd (body w).

(** [handleClearAllData]. *)
Definition handleClearAllData (w : World) : World :=
  let body : Try.M unit :=
    Try.write clearAllData;;
    Try.toast "All data cleared";;
    Try.onLogout in
  snd (body w).

(** The state of the render that runs the mount effect. *)
Definition initial_dashboard : Dashboard :=
  {| revives := []; isLoading := true; isFetching := false; isLoadingMore := false;
     error := ""; userReviveId := 0; hasMoreData := true; mode := user; factionId := 0 |}.

(** The mount effect: [loadFromCache().then(() => fetchRevives())], with the
    [fetchRevives] of the first render. *)
Definition mount (fetch : Request -> Response) (w : World) : World :=
  fetchRevives fetch initial_dashboard false (loadFromCache w).



(** ** The rest of the table *)

(** The value the comparator of [filteredAndSortedRevives] compares for a
    sort field. *)
Definition sort_key (f : SortField) (r : EnrichedRevive) : Q :=
  match f with
  | by_time => JSNum.of_Z (e_timestamp r)
  | by_skill => JS.opt_or_zero (skill (e_reviver r))
  | by_likelihood => Chance r
  end.

(** [a] may stand before [b] in a view sorted by [f] in direction [d]. *)
Definition in_order (f : SortField) (d : SortDirection) (a b : EnrichedRevive) : Prop :=
  match d with
  | asc => (sort_key f a <= sort_key f b)%Q
  | desc => (sort_key f b <= sort_key f a)%Q
  end.

(** The records of a list that have the sort value [k]. *)
Definition with_key (f : SortField) (k : Q) (l : list EnrichedRevive)
    : list EnrichedRevive :=
  List.filter (fun r => Qeq_bool (sort_key f r) k) l.

(** [Array.prototype.slice(start, end)] on an array of length [len]: each
    argument is truncated to an integer, a negative one counts from the
    end, and both are brought into [0 .. len]. *)
Module JSArray.

Definition to_integer (x : Q) : Z := Z.quot (Qnum x) (Z.pos (Qden x)).

Definition relative_index (len : Z) (x : Q) : Z :=
  let relative := to_integer x in
  if (relative <? 0)%Z then Z.max (len + relative) 0 else Z.min relative len.

Definition slice {A} (start end_ : Q) (l : list A) : list A :=
  let len := Z.of_nat (length l) in
  let k := relative_index len start in
  let final := relative_index len end_ in
  take (Z.to_nat (Z.max (final - k) 0)) (drop (Z.to_nat k) l).

End JSArray.

(** [paginatedRevives]: the rows of the current page. *)
Definition paginatedRevives (t : Table) (revives : list EnrichedRevive)
    : list EnrichedRevive :=
  let startIndex := JSNum.mul (JSNum.sub (currentPage t) 1) (JSNum.of_Z (pageSize t)) in
  let endIndex := Qred (startIndex + JSNum.of_Z (pageSize t)) in
  JSArray.slice startIndex endIndex (filteredAndSortedRevives t revives).

(** The table showing page [p]. *)
Definition on_page (p : Z) (t : Table) : Table :=
  set_page (JSNum.of_Z p) (pageJumpInput t) t.

(** The direction a second click on the same header gives. *)
Definition flipped (d : SortDirection) : SortDirection :=
  match d with asc => desc | desc => asc end.

(** [arr.sort()] without a comparator, on strings: the strings are compared
    code unit by code unit. *)
Definition default_compare (a b : string) : Q :=
  match String.compare a b with
  | Lt => (-1)%Q
  | Eq => 0%Q
  | Gt => 1%Q
  end.

(** [set.add(x)]: a [Set] keeps its elements in the order in which they
    were first added. *)
Definition set_add (x : string) (s : list string) : list string :=
  if bool_decide (x ∈ s) then s else (s ++ [x])%list.

(** [uniquePlayers] and [uniqueFactions], as the memos create them: the
    names the two exclusion pickers draw from.  The pickers below sort these
    same arrays again, in place. *)
Definition uniquePlayers (revives : list EnrichedRevive) : list string :=
  let players :=
    foldl (fun players r =>
             if JS.truthy (target_name (e_target r))
             then set_add (target_name (e_target r)) players else players)
          [] revives in
  JSNum.sort default_compare players.

Definition uniqueFactions (revives : list EnrichedRevive) : list string :=
  let factions :=
    foldl (fun factions r =>
             match target_faction (e_target r) with
             | Some f =>
                 if JS.truthy (faction_name f)
                 then set_add (faction_name f) factions else factions
             | None => factions
             end)
          [] revives in
  JSNum.sort default_compare factions.

(** The pickers sort the names with a comparator that puts excluded names
    first and compares the others with [localeCompare], the collation of the
    host.  The comparator of the players tests the second name against the
    excluded factions and is not consistent, for which the order [sort]
    leaves is the engine's: [sort] stands for the engine's
    [Array.prototype.sort], of which the statements use only that it
    rearranges the array. *)
Section Pickers.
Variable localeCompare : string -> string -> Q.
Variable sort : (string -> string -> Q) -> list string -> list string.

Definition compare_players (t : Table) (a b : string) : Q :=
  let aExcluded := has (excludedPlayers t) a in
  let bExcluded := has (excludedFactions t) b in
  if aExcluded && negb bExcluded then (-1)%Q
  else if negb aExcluded && bExcluded then 1%Q
  else localeCompare a b.

Definition compare_factions (t : Table) (a b : string) : Q :=
  let aExcluded := has (excludedFactions t) a in
  let bExcluded := has (excludedFactions t) b in
  if aExcluded && negb bExcluded then (-1)%Q
  else if negb aExcluded && bExcluded then 1%Q
  else localeCompare a b.

(** [filteredPlayersForExclude]: the names the picker shows, and the array
    [uniquePlayers] as the call leaves it.  With a search the names are
    filtered into a new array, which is sorted; without one the array
    sorted, in place, is [uniquePlayers] itself. *)
Definition filteredPlayersForExclude (t : Table) (excludePlayerSearch : string)
    (uniquePlayers : list string) : list string * list string :=
  if JS.truthy (JS.trim excludePlayerSearch) then
    let searchLower := JS.toLowerCase excludePlayerSearch in
    let players :=
      List.filter (fun p => JS.includes (JS.toLowerCase p) searchLower) uniquePlayers in
    (sort (compare_players t) players, uniquePlayers)
  else
    let players := sort (compare_players t) uniquePlayers in
    (players, players).

Definition filteredFactionsForExclude (t : Table) (excludeFactionSearch : string)
    (uniqueFactions : list string) : list string * list string :=
  if JS.truthy (JS.trim excludeFactionSearch) then
    let searchLower := JS.toLowerCase excludeFactionSearch in
    let factions :=
      List.filter (fun f => JS.includes (JS.toLowerCase f) searchLower) uniqueFactions in
    (sort (compare_factions t) factions, uniqueFactions)
  else
    let factions := sort (compare_factions t) uniqueFactions in
    (factions, factions).

End Pickers.

(** The template literal [`${timestamp}_${targetId}`]: the two integers in
    decimal, with an underscore between them. *)
Definition payment_id (timestamp targetId : Z) : string :=
  pretty timestamp +:+ "_" +:+ pretty targetId.

(** [paymentStatuses[paymentId] ?? false], what the row shows. *)
Definition isPaid (paymentStatuses : gmap string bool) (timestamp targetId : Z) : bool :=
  default false (paymentStatuses !! payment_id timestamp targetId).

(** [togglePaymentStatus(timestamp, targetId)] on the component's statuses
    and the database.  The write is awaited: when it fails, the component's
    statuses are not touched. *)
Definition togglePaymentStatus (timestamp targetId : Z)
    (w : gmap string bool * IDBDatabase) : gmap string bool * IDBDatabase :=
  let '(paymentStatuses, db) := w in
  let id := payment_id timestamp targetId in
  let currentStatus := default false (paymentStatuses !! id) in
  let newStatus := negb currentStatus in
  match setPaymentStatus id newStatus db with
  | Some db' => (<[id := newStatus]> paymentStatuses, db')
  | None => (paymentStatuses, db)
  end.

(** The mount effect [loadPaymentStatuses]. *)
Definition loadPaymentStatuses (w : gmap string bool * IDBDatabase)
    : gmap string bool * IDBDatabase :=
  match getAllPaymentStatuses (snd w) with
  | Some (statuses, db') => (statuses, db')
  | None => w
  end.

(** [c] occurs in [s]. *)
Fixpoint occurs (c : ascii) (s : string) : bool :=
  match s with
  | EmptyString => false
  | String a s' => Ascii.eqb a c || occurs c s'
  end.

(** * Properties *)

(** ** Doubles *)


Lemma pow2_plus (a b : Z) : (Double.pow2 (a + b) == Double.pow2 a * Double.pow2 b)%Q.
Proof. unfold Double.pow2. apply Qpower_plus. discriminate. Qed.
















(** ** White space *)

Lemma strip_prefix_length (w s rest : string) :
  JS.strip_prefix w s = Some rest -> String.length s = (String.length w + String.length rest)%nat.
Proof.
  revert s. induction w as [|a w IH]; intros [|b s]; simpl; try done.
  - by intros [= <-].
  - by intros [= <-].
  - destruct (Ascii.eqb a b); [|done]. intros H. by rewrite (IH _ H).
Qed.

Lemma strip_prefix_app (w s rest : string) :
  JS.strip_prefix w s = Some rest <-> s = w +:+ rest.
Proof.
  revert s. induction w as [|a w IH]; intros s; simpl.
  - split; [by intros [= <-]|by intros ->].
  - destruct s as [|b s]; [split; done|].
    destruct (Ascii.eqb_spec a b) as [->|Hne].
    + rewrite IH. split; [by intros ->|by intros [= ->]].
    + split; [done|]. intros [= ? _]. by destruct Hne.
Qed.

Lemma after_space_spec (s rest : string) :
  JS.after_space s = Some rest ->
  exists w, w ∈ JS.white_space /\ s = w +:+ rest.
Proof.
  unfold JS.after_space.
  induction JS.white_space as [|w ws IH]; simpl; [done|].
  destruct (JS.strip_prefix w s) as [r|] eqn:Hw.
  - intros [= <-]. exists w. split; [by left|]. by apply strip_prefix_app.
  - intros H. destruct (IH H) as (w' & Hin & Hs). exists w'. split; [by right|done].
Qed.

Lemma white_space_nonempty (w : string) : w ∈ JS.white_space -> (0 < String.length w)%nat.
Proof.
  intros H. unfold JS.white_space, JS.white_space_code_points in H.
  simpl map in H.
  repeat (apply elem_of_cons in H as [->|H]; [simpl; lia|]).
  by apply elem_of_nil in H.
Qed.

Lemma after_space_white (w rest : string) :
  w ∈ JS.white_space -> JS.after_space (w +:+ rest) = Some rest.
Proof.
  intros H. unfold JS.white_space, JS.white_space_code_points in H.
  simpl map in H.
  repeat (apply elem_of_cons in H as [->|H]; [reflexivity|]).
  by apply elem_of_nil in H.
Qed.

Lemma string_app_length (a b : string) :
  String.length (a +:+ b) = (String.length a + String.length b)%nat.
Proof.
  induction a as [|c a IH]; [done|].
  change (S (String.length (a +:+ b)) = S (String.length a + String.length b)).
  by rewrite IH.
Qed.

Lemma string_app_assoc (a b c : string) : (a +:+ b) +:+ c = a +:+ (b +:+ c).
Proof.
  induction a as [|x a IH]; [done|].
  change (String x ((a +:+ b) +:+ c) = String x (a +:+ (b +:+ c))). by rewrite IH.
Qed.

Lemma string_app_nil_r (a : string) : a +:+ "" = a.
Proof.
  induction a as [|x a IH]; [done|].
  change (String x (a +:+ "") = String x a). by rewrite IH.
Qed.

Lemma encode_app (l1 l2 : list N) : JS.encode (l1 ++ l2) = JS.encode l1 +:+ JS.encode l2.
Proof.
  induction l1 as [|cp l1 IH]; [done|].
  change (JS.encode ((cp :: l1) ++ l2)) with (JS.utf8 cp +:+ JS.encode (l1 ++ l2)).
  change (JS.encode (cp :: l1)) with (JS.utf8 cp +:+ JS.encode l1).
  rewrite IH. symmetry. apply string_app_assoc.
Qed.

Lemma after_space_code_point (s rest : string) :
  JS.after_space s = Some rest ->
  exists cp, cp ∈ JS.white_space_code_points /\ s = JS.utf8 cp +:+ rest
             /\ (String.length rest < String.length s)%nat.
Proof.
  intros H. destruct (after_space_spec s rest H) as (w & Hw & ->).
  pose proof (white_space_nonempty w Hw) as Hlen.
  unfold JS.white_space in Hw. apply list_elem_of_In, in_map_iff in Hw as (cp & <- & Hcp).
  exists cp. split; [by apply list_elem_of_In|]. split; [done|].
  rewrite string_app_length. lia.
Qed.

Lemma trim_start_from_spec (n : nat) (s : string) :
  (String.length s <= n)%nat ->
  JS.after_space (JS.trim_start_from n s) = None
  /\ exists cps, Forall (fun cp => cp ∈ JS.white_space_code_points) cps
                 /\ s = JS.encode cps +:+ JS.trim_start_from n s.
Proof.
  revert s. induction n as [|n IH]; intros s Hlen.
  - destruct s; [|simpl in Hlen; lia]. simpl. split; [reflexivity|].
    exists []. by split.
  - simpl. destruct (JS.after_space s) as [rest|] eqn:Ha.
    + destruct (after_space_code_point s rest Ha) as (cp & Hcp & Hs & Hlt).
      destruct (IH rest ltac:(lia)) as (Hnone & cps & Hall & Hrest).
      split; [done|]. exists (cp :: cps). split; [by constructor|].
      change (JS.encode (cp :: cps)) with (JS.utf8 cp +:+ JS.encode cps).
      rewrite string_app_assoc, <- Hrest. done.
    + split; [done|]. exists []. by split.
Qed.

Lemma trim_start_from_blank (n : nat) (cps : list N) :
  Forall (fun cp => cp ∈ JS.white_space_code_points) cps ->
  (String.length (JS.encode cps) <= n)%nat ->
  JS.trim_start_from n (JS.encode cps) = "".
Proof.
  intros Hall. revert n. induction Hall as [|cp cps Hcp Hall IH]; intros n Hlen.
  - by destruct n.
  - change (JS.encode (cp :: cps)) with (JS.utf8 cp +:+ JS.encode cps) in *.
    assert (Hw : JS.utf8 cp ∈ JS.white_space).
    { unfold JS.white_space. apply list_elem_of_In, in_map. by apply list_elem_of_In. }
    pose proof (white_space_nonempty _ Hw) as Hpos.
    rewrite string_app_length in Hlen.
    destruct n as [|n]; [lia|]. simpl.
    rewrite (after_space_white _ (JS.encode cps) Hw). apply IH. lia.
Qed.

Lemma trim_start_empty (s : string) :
  JS.trim_start s = ""
  <-> exists cps, Forall (fun cp => cp ∈ JS.white_space_code_points) cps /\ s = JS.encode cps.
Proof.
  unfold JS.trim_start. split.
  - intros H. destruct (trim_start_from_spec (String.length s) s (le_n _))
      as (_ & cps & Hall & Hs).
    exists cps. split; [done|]. by rewrite H, string_app_nil_r in Hs.
  - intros (cps & Hall & ->). by apply trim_start_from_blank.
Qed.

Lemma trim_start_idem (s : string) : JS.trim_start (JS.trim_start s) = JS.trim_start s.
Proof.
  destruct (trim_start_from_spec (String.length s) s (le_n _)) as (Hnone & _).
  fold (JS.trim_start s) in Hnone.
  unfold JS.trim_start at 1. destruct (String.length (JS.trim_start s)); simpl; [done|].
  by rewrite Hnone.
Qed.

Lemma trim_empty (s : string) : JS.trim s = "" <-> JS.trim_start s = "".
Proof.
  unfold JS.trim. split.
  - intros H. destruct (JS.trim_start s) as [|c t] eqn:Ht; [done|].
    simpl in H. unfold JS.blank in H.
    rewrite <- Ht, trim_start_idem, Ht in H. done.
  - by intros ->.
Qed.

(** [trim] gives the empty string exactly for a string of white-space
    characters. *)
Lemma trim_blank (s : string) :
  JS.trim s = ""
  <-> exists cps, Forall (fun cp => cp ∈ JS.white_space_code_points) cps /\ s = JS.encode cps.
Proof. by rewrite trim_empty, trim_start_empty. Qed.

(** ** Classification *)

Lemma some_includes_existsb (patterns : list string) (reason : string) :
  JS.some_includes patterns reason = existsb (JS.includes reason) patterns.
Proof. reflexivity. Qed.

Lemma getCategory_first_match (reason : string) :
  getCategory reason = Rules.first_match Rules.table Crime reason.
Proof.
  unfold getCategory, Rules.table, Rules.first_match.
  rewrite !some_includes_existsb.
  unfold Rules.rr, Rules.self_hosp, Rules.casino, Rules.pvp, Rules.od.
  cbn [existsb].
  rewrite !orb_false_r, !orb_assoc.
  reflexivity.
Qed.

(** C4. The category of a reason text is that of the first rule it matches
    in the order RR, Self Hosp, Casino, PvP, OD, and Crime when it matches
    none; a text that matches the RR rule and the PvP rule is RR. *)
Theorem getCategory_precedence (reason : string) :
  getCategory reason = Rules.first_match Rules.table Crime reason
  /\ map snd Rules.table = [RR; SelfHosp; Casino; PvP; OD]
  /\ (getCategory reason = RR <-> Rules.rr reason = true)
  /\ (getCategory reason = SelfHosp <->
        Rules.rr reason = false /\ Rules.self_hosp reason = true)
  /\ (getCategory reason = Casino <->
        Rules.rr reason = false /\ Rules.self_hosp reason = false
        /\ Rules.casino reason = true)
  /\ (getCategory reason = PvP <->
        Rules.rr reason = false /\ Rules.self_hosp reason = false
        /\ Rules.casino reason = false /\ Rules.pvp reason = true)
  /\ (getCategory reason = OD <->
        Rules.rr reason = false /\ Rules.self_hosp reason = false
        /\ Rules.casino reason = false /\ Rules.pvp reason = false
        /\ Rules.od reason = true)
  /\ (getCategory reason = Crime <->
        Rules.rr reason = false /\ Rules.self_hosp reason = false
        /\ Rules.casino reason = false /\ Rules.pvp reason = false
        /\ Rules.od reason = false)
  /\ (Rules.rr reason = true -> Rules.pvp reason = true -> getCategory reason = RR).
Proof.
  split; [apply getCategory_first_match|].
  split; [reflexivity|].
  rewrite getCategory_first_match.
  unfold Rules.table, Rules.first_match.
  destruct (Rules.rr reason), (Rules.self_hosp reason), (Rules.casino reason),
    (Rules.pvp reason), (Rules.od reason);
    repeat split; intros; try discriminate; try tauto;
    repeat match goal with H : _ /\ _ |- _ => destruct H end; try discriminate.
Qed.

(** The rules are exercised by texts of the game. *)
Example getCategory_examples :
  getCategory "Shot themselves in the foot after being Hospitalized by nobody" = RR
  /\ getCategory "Hospitalized by Duke" = PvP
  /\ getCategory "Lost to a face punch" = Casino
  /\ getCategory "Overdosed on Xanax" = OD
  /\ getCategory "Severe emesis following Ipecac Syrup ingestion" = SelfHosp
  /\ getCategory "Shot by a guard" = Crime
  /\ getCategory "" = Crime.
Proof. repeat split; vm_compute; reflexivity. Qed.

(** ** Likelihood bands *)

Lemma Qle_bool_lt_false (a b : Q) : (b < a)%Q -> Qle_bool a b = false.
Proof.
  intros H. destruct (Qle_bool a b) eqn:E; [|reflexivity].
  apply Qle_bool_iff in E. exfalso. exact (Qlt_not_le _ _ H E).
Qed.

(** C5. The band is Low up to 30, Medium above 30 up to 60, High above 60 up
    to 80 and Very High above 80; 30, 60 and 80 fall in Low, Medium and
    High, and 80.01 in Very High. *)
Theorem getLikelihood_bands (chance : Q) :
  ((chance <= 30)%Q -> getLikelihood chance = Low)
  /\ ((30 < chance)%Q /\ (chance <= 60)%Q -> getLikelihood chance = Medium)
  /\ ((60 < chance)%Q /\ (chance <= 80)%Q -> getLikelihood chance = High)
  /\ ((80 < chance)%Q -> getLikelihood chance = VeryHigh)
  /\ getLikelihood 30 = Low
  /\ getLikelihood 60 = Medium
  /\ getLikelihood 80 = High
  /\ getLikelihood (8001 # 100) = VeryHigh.
Proof.
  unfold getLikelihood.
  repeat split; try reflexivity.
  - intros H. apply Qle_bool_iff in H. now rewrite H.
  - intros [H1 H2]. rewrite (Qle_bool_lt_false _ _ H1).
    apply Qle_bool_iff in H2. now rewrite H2.
  - intros [H1 H2].
    assert (H0 : (30 < chance)%Q) by (eapply Qlt_trans; [|exact H1]; reflexivity).
    rewrite (Qle_bool_lt_false _ _ H0), (Qle_bool_lt_false _ _ H1).
    apply Qle_bool_iff in H2. now rewrite H2.
  - intros H.
    assert (H1 : (60 < chance)%Q) by (eapply Qlt_trans; [|exact H]; reflexivity).
    assert (H0 : (30 < chance)%Q) by (eapply Qlt_trans; [|exact H1]; reflexivity).
    now rewrite (Qle_bool_lt_false _ _ H0), (Qle_bool_lt_false _ _ H1),
      (Qle_bool_lt_false _ _ H).
Qed.

(** ** The stable sort *)

Section SortFacts.
Context {A : Type} (compareFn : A -> A -> Q).

Lemma sort_insert_perm (x : A) (l : list A) :
  JSNum.sort_insert compareFn x l ≡ₚ x :: l.
Proof.
  induction l as [|y l IH]; simpl; [done|].
  destruct (Qle_bool _ _); [done|].
  rewrite IH. apply perm_swap.
Qed.

Lemma sort_perm (l : list A) : JSNum.sort compareFn l ≡ₚ l.
Proof.
  induction l as [|x l IH]; simpl; [done|].
  rewrite sort_insert_perm. by f_equiv.
Qed.

Lemma sort_length (l : list A) : length (JSNum.sort compareFn l) = length l.
Proof. apply Permutation_length, sort_perm. Qed.

Lemma sort_elem_of (x : A) (l : list A) : x ∈ JSNum.sort compareFn l <-> x ∈ l.
Proof. by rewrite sort_perm. Qed.

End SortFacts.





(** ** The second pass of [enrichRevives] *)




Section SecondPass.
Variable enriched : list EnrichedRevive.
Variable userReviveId : Z.

Let sel := mySuccessfulRevives enriched userReviveId.










End SecondPass.

(** ** [enrichRevives]: what the passes keep *)

Lemma enrichRevives_unfold (revives : list ReviveData) (userReviveId : Z) :
  enrichRevives revives userReviveId =
  let enriched := enrich_one <$> revives in
  let sel := mySuccessfulRevives enriched userReviveId in
  foldl (gain_step sel) enriched (seq 0 (length sel - 1)).
Proof. destruct revives; reflexivity. Qed.

Section Preserved.
Context {B : Type} (h : EnrichedRevive -> B).
Hypothesis h_set_Gain : forall g e, h (set_Gain g e) = h e.

Lemma gain_step_preserves (sel : list Indexed) (l : list EnrichedRevive) (i : nat) :
  h <$> gain_step sel l i = h <$> l.
Proof using h_set_Gain.
  unfold gain_step.
  destruct (sel !! i) as [current|]; [|done].
  destruct (sel !! (i + 1)%nat) as [next|]; [|done].
  apply list_eq. intros j. rewrite !list_lookup_fmap.
  destruct (decide (index current = j)) as [<-|Hne].
  - rewrite list_lookup_alter_eq.
    destruct (l !! index current); simpl; [|done].
    by rewrite h_set_Gain.
  - by rewrite list_lookup_alter_ne.
Qed.

Lemma gain_loop_preserves (sel : list Indexed) (steps : list nat)
    (l : list EnrichedRevive) :
  h <$> foldl (gain_step sel) l steps = h <$> l.
Proof using h_set_Gain.
  revert l. induction steps as [|i steps IH]; intros l; simpl; [done|].
  by rewrite IH, gain_step_preserves.
Qed.

End Preserved.

Lemma raw_of_enrich_one (r : ReviveData) : raw_of (enrich_one r) = r.
Proof. by destruct r. Qed.

(** C9. The result has one record per input record, in the same order, and
    each carries the raw fields of its input record unchanged; next to
    them it holds the derived fields of the first pass, of which only the
    gain may have been written by the second pass. *)
Theorem enrichRevives_keeps_raw (revives : list ReviveData) (userReviveId : Z) :
  raw_of <$> enrichRevives revives userReviveId = revives
  /\ length (enrichRevives revives userReviveId) = length revives
  /\ set_Gain None <$> enrichRevives revives userReviveId = enrich_one <$> revives
  /\ (forall i r e,
        revives !! i = Some r -> enrichRevives revives userReviveId !! i = Some e ->
        e_id e = id r /\ e_reviver e = reviver r /\ e_target e = target r
        /\ e_result e = result r /\ e_success_chance e = success_chance r
        /\ e_timestamp e = timestamp r).
Proof.
  assert (Hraw : raw_of <$> enrichRevives revives userReviveId = revives).
  { rewrite enrichRevives_unfold. cbn zeta.
    rewrite (gain_loop_preserves raw_of) by done.
    rewrite <- list_fmap_compose.
    rewrite <- (list_fmap_id revives) at 2.
    apply list_fmap_ext. intros _ r _. apply raw_of_enrich_one. }
  split; [done|]. split; [|split].
  - rewrite <- Hraw at 2. by rewrite length_fmap.
  - rewrite enrichRevives_unfold. cbn zeta.
    rewrite (gain_loop_preserves (set_Gain None)) by done.
    rewrite <- list_fmap_compose.
    apply list_fmap_ext. intros _ r _. reflexivity.
  - intros i r e Hr He.
    assert (H : (raw_of <$> enrichRevives revives userReviveId) !! i = Some r)
      by (by rewrite Hraw).
    rewrite list_lookup_fmap, He in H. simpl in H. injection H as <-.
    done.
Qed.

(** ** [enrichRevives]: the skill gain *)




Section SkillGain.
Variable revives : list ReviveData.
Variable referenceActorId : Z.

Let enriched := enrich_one <$> revives.
Let sel := mySuccessfulRevives enriched referenceActorId.
Let sub := index <$> sel.










End SkillGain.






(** [Double.round] gives what the Standard Library's specification of
    IEEE 754 gives, here on quotients that are halfway between two doubles,
    subnormal, or neither. *)
Example round_binary64 :
  Some (Double.round (1115 # 1000)) = Double.spec_quotient 1115 1000
  /\ Some (Double.round (1005 # 1000)) = Double.spec_quotient 1005 1000
  /\ Some (Double.round (112 # 100)) = Double.spec_quotient 112 100
  /\ Some (Double.round (1 # 3)) = Double.spec_quotient 1 3
  /\ Some (Double.round (1 # 10)) = Double.spec_quotient 1 10
  /\ Some (Double.round (9007199254740993 # 1)) = Double.spec_quotient 9007199254740993 1
  /\ Some (Double.round (9007199254740995 # 1)) = Double.spec_quotient 9007199254740995 1
  /\ Some (Double.round (1 # 2 ^ 1074)) = Double.spec_quotient 1 (2 ^ 1074)
  /\ Some (Double.round (1 # 2 ^ 1075)) = Double.spec_quotient 1 (2 ^ 1075)
  /\ Some (Double.round (3 # 2 ^ 1075)) = Double.spec_quotient 3 (2 ^ 1075)
  /\ Double.mul (Double.round (1115 # 1000)) 100 = (223 # 2)%Q
  /\ JS.Math_round (Double.mul (Double.round (1005 # 1000)) 100) = 100%Z.
Proof. repeat split; by vm_compute. Qed.



(** ** The store: keys stay unique *)

Lemma put_sorted (r : ReviveData) (store : list ReviveData) :
  sorted_by_id store -> sorted_by_id (IDB.put r store).
Proof.
  unfold sorted_by_id.
  induction store as [|x rest IH]; intros Hs; simpl.
  - repeat constructor.
  - apply StronglySorted_inv in Hs as [Hs Hx].
    destruct (Z.ltb_spec (id r) (id x)) as [Hlt|Hge].
    + constructor; [by constructor|].
      constructor; [done|].
      eapply Forall_impl; [exact Hx|]. simpl. intros; lia.
    + destruct (Z.eqb_spec (id r) (id x)) as [Heq|Hne].
      * constructor; [done|]. by rewrite Heq.
      * constructor; [by apply IH|].
        assert (Hin : forall y, y ∈ IDB.put r rest -> y = r \/ y ∈ rest).
        { clear. induction rest as [|z rest IH]; simpl; intros y Hy.
          - apply list_elem_of_singleton in Hy. by left.
          - destruct (id r <? id z)%Z.
            + apply elem_of_cons in Hy as [->|Hy]; [by left|by right].
            + destruct (id r =? id z)%Z.
              * apply elem_of_cons in Hy as [->|Hy]; [by left|].
                right. by right.
              * apply elem_of_cons in Hy as [->|Hy]; [right; by left|].
                destruct (IH y Hy) as [->|?]; [by left|right; by right]. }
        apply Forall_forall. intros y Hy.
        destruct (Hin y Hy) as [->|Hy']; [lia|].
        rewrite Forall_forall in Hx. by apply Hx.
Qed.

Lemma get_put (k : Z) (r : ReviveData) (store : list ReviveData) :
  IDB.get k (IDB.put r store) = if decide (k = id r) then Some r else IDB.get k store.
Proof.
  unfold IDB.get.
  induction store as [|x rest IH]; simpl.
  - destruct (Z.eqb_spec (id r) k); case_decide; congruence.
  - destruct (Z.ltb_spec (id r) (id x)) as [Hlt|Hge]; simpl.
    + destruct (Z.eqb_spec (id r) k); case_decide; congruence.
    + destruct (Z.eqb_spec (id r) (id x)) as [Heq|Hne]; simpl.
      * destruct (Z.eqb_spec (id r) k); case_decide; try congruence.
        destruct (Z.eqb_spec (id x) k); congruence.
      * destruct (Z.eqb_spec (id x) k) as [Hxk|Hxk].
        -- case_decide; congruence.
        -- apply IH.
Qed.

Lemma put_all_sorted (page store : list ReviveData) :
  sorted_by_id store ->
  sorted_by_id (foldl (fun store revive => IDB.put revive store) store page).
Proof.
  revert store. induction page as [|r page IH]; intros store Hs; simpl; [done|].
  apply IH. by apply put_sorted.
Qed.

Lemma last_with_id_cons (k : Z) (r : ReviveData) (page : list ReviveData) :
  last_with_id k (r :: page) =
  match last_with_id k page with
  | Some r' => Some r'
  | None => if decide (k = id r) then Some r else None
  end.
Proof.
  unfold last_with_id. simpl.
  destruct (Z.eqb_spec (id r) k) as [Heq|Hne].
  - destruct (List.filter _ page) as [|y l] eqn:E; simpl.
    + case_decide; congruence.
    + rewrite last_cons. by destruct (last l).
  - destruct (last (List.filter _ page)); [done|]. case_decide; congruence.
Qed.

(** Upsert by key, the last write winning. *)
Lemma get_put_all (k : Z) (page store : list ReviveData) :
  IDB.get k (foldl (fun store revive => IDB.put revive store) store page) =
  match last_with_id k page with
  | Some r => Some r
  | None => IDB.get k store
  end.
Proof.
  revert store. induction page as [|r page IH]; intros store; simpl; [done|].
  rewrite IH, last_with_id_cons, get_put.
  destruct (last_with_id k page); [done|]. by case_decide.
Qed.

Lemma sorted_by_id_NoDup (store : list ReviveData) :
  sorted_by_id store -> NoDup (id <$> store).
Proof.
  induction 1 as [|a l Hs IH Ha]; simpl; constructor; [|done].
  intros Hin. apply list_elem_of_fmap in Hin as [y [Hy Hin]].
  rewrite Forall_forall in Ha. specialize (Ha y Hin). lia.
Qed.

Lemma get_is_Some (k : Z) (store : list ReviveData) :
  is_Some (IDB.get k store) <-> k ∈ id <$> store.
Proof.
  unfold IDB.get. induction store as [|x rest IHstore]; simpl.
  - split; [by intros [? ?]|by intros ?%elem_of_nil].
  - destruct (Z.eqb_spec (id x) k) as [<-|Hne].
    + split; [intros _; by left|by eauto].
    + rewrite IHstore, elem_of_cons. split; [by right|].
      intros [Heq|Hin]; [congruence|done].
Qed.

Lemma last_with_id_is_Some (k : Z) (page : list ReviveData) :
  is_Some (last_with_id k page) <-> k ∈ id <$> page.
Proof.
  induction page as [|r page IHpage].
  - split; [by intros [? ?]|by intros ?%elem_of_nil].
  - rewrite last_with_id_cons, fmap_cons, elem_of_cons, <- IHpage.
    destruct (last_with_id k page) as [r'|].
    + split; [right|]; by eauto.
    + case_decide as Hk.
      * split; [by left|by eauto].
      * split; [by intros [? ?]|].
        intros [?|[? ?]]; done.
Qed.

Lemma sorted_by_id_nil : sorted_by_id [].
Proof. constructor. Qed.

Lemma cached_sorted (m : Mode) (db : IDBDatabase) :
  well_formed db -> sorted_by_id (cached m db).
Proof.
  intros [_ Hu Hf _]. unfold cached.
  destruct m; simpl.
  - destruct (userRevives db) as [s|]; [by apply Hu|apply sorted_by_id_nil].
  - destruct (factionRevives db) as [s|]; [by apply Hf|apply sorted_by_id_nil].
Qed.

(** Opening a well-formed database succeeds, leaves it at the current
    version and keeps the records of both modes. *)
Lemma initDB_well_formed (db : IDBDatabase) :
  well_formed db ->
  exists db',
    initDB db = Some db' /\ well_formed db' /\ version db' = IDB.DB_VERSION
    /\ (forall m, revives_store m db' = Some (cached m db)).
Proof.
  intros Hwf. pose proof Hwf as [Hv Hu Hf Hc].
  unfold initDB.
  destruct (Z.ltb_spec (version db) IDB.DB_VERSION) as [Hlt|Hge].
  - eexists. split; [reflexivity|].
    clear Hwf Hc Hlt Hv.
    unfold onupgradeneeded, cached.
    destruct db as [v st us fs ls ps]. simpl in *.
    destruct st as [st|]; destruct us as [us|]; destruct fs as [fs|];
      destruct ls as [ls|]; destruct ps as [ps|]; simpl;
      (split; [constructor; simpl;
                 [unfold IDB.DB_VERSION; lia
                 |intros s Hs; first [by apply Hu|replace s with (@nil ReviveData) by congruence; constructor]
                 |intros s Hs; first [by apply Hf|replace s with (@nil ReviveData) by congruence; constructor]
                 |by eauto]
              |split; [done|by intros []]]).
  - assert (Heq : version db = IDB.DB_VERSION) by lia.
    rewrite Heq, Z.eqb_refl. exists db.
    split; [done|]. split; [done|]. split; [done|].
    destruct (Hc Heq) as (_ & [u Hu'] & [f Hf']).
    unfold cached. intros []; simpl; [by rewrite Hu'|by rewrite Hf'].
Qed.

Lemma initDB_opened (db : IDBDatabase) :
  version db = IDB.DB_VERSION -> initDB db = Some db.
Proof. intros H. unfold initDB. by rewrite H. Qed.

Lemma saveRevives_well_formed (page : list ReviveData) (m : Mode) (db : IDBDatabase) :
  well_formed db ->
  exists db',
    saveRevives page m db = Some db' /\ well_formed db'
    /\ version db' = IDB.DB_VERSION
    /\ (forall m', cached m' db' =
                   if mode_eqb m m' then put_page (cached m' db) page else cached m' db).
Proof.
  intros Hwf.
  destruct (initDB_well_formed db Hwf) as (db1 & Hopen & Hwf1 & Hv1 & Hstores).
  pose proof (put_all_sorted page _ (cached_sorted m db Hwf)) as Hsorted.
  pose proof Hwf1 as [Hv Hu Hf Hc].
  destruct (Hc Hv1) as (Hs & _ & _).
  pose proof (Hstores user) as Hsu. pose proof (Hstores faction) as Hsf.
  simpl in Hsu, Hsf.
  unfold saveRevives. rewrite Hopen. simpl. rewrite (Hstores m). simpl.
  exists (set_revives_store m (put_page (cached m db) page) db1).
  split; [done|].
  clear Hopen Hstores Hwf Hc.
  destruct m; simpl.
  - split; [constructor; simpl; try done|].
    + intros s Hs'. injection Hs' as Hs'. by rewrite <- Hs'.
    + split; [done|]. unfold cached. intros []; simpl; [done|by rewrite Hsf].
  - split; [constructor; simpl; try done|].
    + intros s Hs'. injection Hs' as Hs'. by rewrite <- Hs'.
    + split; [done|]. unfold cached. intros []; simpl; [by rewrite Hsu|done].
Qed.

Lemma merges_cons (pg : Mode * list ReviveData) (pages : list (Mode * list ReviveData))
    (db : IDBDatabase) :
  merges (pg :: pages) db = saveRevives (snd pg) (fst pg) db ≫= merges pages.
Proof.
  unfold merges. simpl. destruct (saveRevives _ _ db) as [db'|]; simpl; [done|].
  induction pages as [|pg' pages IHpages]; simpl; done.
Qed.

Lemma written_cons (m : Mode) (pg : Mode * list ReviveData)
    (pages : list (Mode * list ReviveData)) :
  written m (pg :: pages) =
  if mode_eqb (fst pg) m then (snd pg ++ written m pages)%list else written m pages.
Proof. unfold written. simpl. by destruct (mode_eqb (fst pg) m). Qed.

Lemma merges_well_formed (pages : list (Mode * list ReviveData)) (db : IDBDatabase) :
  well_formed db ->
  exists db',
    merges pages db = Some db' /\ well_formed db'
    /\ (forall m, cached m db' = put_page (cached m db) (written m pages)).
Proof.
  revert db. induction pages as [|pg pages IHpages]; intros db Hwf.
  - exists db. split; [done|]. split; [done|]. intros m. reflexivity.
  - destruct (saveRevives_well_formed (snd pg) (fst pg) db Hwf)
      as (db1 & Hsave & Hwf1 & _ & Hc1).
    destruct (IHpages db1 Hwf1) as (db' & Hm & Hwf' & Hc').
    exists db'. rewrite merges_cons, Hsave. simpl.
    split; [done|]. split; [done|].
    intros m. rewrite Hc', Hc1, written_cons.
    destruct (mode_eqb (fst pg) m); [|done].
    unfold put_page. by rewrite foldl_app.
Qed.

(** C7. From a well-formed database, any run of merges succeeds, and the
    records then read for a mode carry pairwise distinct ids: a record
    written later replaces the one cached under its id, the last write
    winning, the other cached records stay, and the number of records read
    is the number of distinct ids cached or written. *)
Theorem merges_keep_ids_unique (db : IDBDatabase)
    (pages : list (Mode * list ReviveData)) (mode : Mode) :
  well_formed db ->
  exists db' db'' all,
    merges pages db = Some db'
    /\ getAllRevives mode db' = Some (all, db'')
    /\ well_formed db''
    /\ NoDup (id <$> all)
    /\ (forall k,
          IDB.get k all =
          match last_with_id k (written mode pages) with
          | Some r => Some r
          | None => IDB.get k (cached mode db)
          end)
    /\ (forall k,
          k ∈ id <$> all <->
          k ∈ id <$> cached mode db \/ k ∈ id <$> written mode pages)
    /\ length all =
       size (list_to_set (id <$> (cached mode db ++ written mode pages)%list) : gset Z).
Proof.
  intros Hwf.
  destruct (merges_well_formed pages db Hwf) as (db' & Hm & Hwf' & Hc').
  destruct (initDB_well_formed db' Hwf') as (db'' & Hopen & Hwf'' & _ & Hstores).
  exists db', db'', (cached mode db').
  assert (Hget : forall k,
            IDB.get k (cached mode db') =
            match last_with_id k (written mode pages) with
            | Some r => Some r
            | None => IDB.get k (cached mode db)
            end).
  { intros k. rewrite Hc'. apply get_put_all. }
  assert (Hin : forall k,
            k ∈ id <$> cached mode db' <->
            k ∈ id <$> cached mode db \/ k ∈ id <$> written mode pages).
  { intros k.
    rewrite <- (get_is_Some k (cached mode db')), <- (get_is_Some k (cached mode db)).
    rewrite Hget, <- last_with_id_is_Some.
    destruct (last_with_id k (written mode pages)) as [r|].
    - split; [right|]; by eauto.
    - split; [by left|]. intros [?|[? ?]]; done. }
  assert (Hnodup : NoDup (id <$> cached mode db'))
    by (by apply sorted_by_id_NoDup, cached_sorted).
  split; [done|]. split.
  { unfold getAllRevives. rewrite Hopen. simpl. by rewrite (Hstores mode). }
  split; [done|]. split; [done|]. split; [done|]. split; [done|].
  rewrite <- (length_fmap id (cached mode db')).
  rewrite <- (size_list_to_set (C := gset Z) (id <$> cached mode db')) by done.
  f_equal. apply set_eq. intros k.
  rewrite !elem_of_list_to_set, Hin, fmap_app, elem_of_app. done.
Qed.

Lemma no_database_well_formed : well_formed no_database.
Proof.
  constructor; simpl.
  - unfold IDB.DB_VERSION. lia.
  - intros s H. discriminate H.
  - intros s H. discriminate H.
  - unfold IDB.DB_VERSION. intros H. discriminate H.
Defined.

(** The merge theorem applied to two overlapping pages saved into a new
    database. *)
Lemma merges_keep_ids_unique_witness :
  well_formed no_database
  /\ exists db' db'' all,
       merges Sample.pages no_database = Some db'
       /\ getAllRevives user db' = Some (all, db'')
       /\ well_formed db''
       /\ NoDup (id <$> all)
       /\ (forall k,
             IDB.get k all =
             match last_with_id k (written user Sample.pages) with
             | Some r => Some r
             | None => IDB.get k (cached user no_database)
             end)
       /\ (forall k,
             k ∈ id <$> all <->
             k ∈ id <$> cached user no_database \/ k ∈ id <$> written user Sample.pages)
       /\ length all =
          size (list_to_set
                  (id <$> (cached user no_database ++ written user Sample.pages)%list)
                : gset Z).
Proof.
  split.
  - exact no_database_well_formed.
  - exact (merges_keep_ids_unique no_database Sample.pages user no_database_well_formed).
Defined.

(** The two pages leave three records, the one with id 2 from the second
    page. *)
Example merges_overlap :
  (merges Sample.pages no_database ≫= getAllRevives user) ≫= (fun r => Some (fst r)) =
  Some [Sample.revive_of 1 100 50 "Ann" None;
        Sample.revive_of 2 250 40 "Bob" None;
        Sample.revive_of 3 300 20 "Cid" None].
Proof. reflexivity. Qed.

(** ** The schema upgrade *)

(** C3, as the code has it. An upgrade deletes the legacy store of records
    with what it holds; it keeps the mode-scoped stores, the settings and
    the payment statuses when they exist and creates them empty when they
    do not. *)
Theorem initDB_upgrade (db : IDBDatabase) :
  (version db < IDB.DB_VERSION)%Z ->
  exists db',
    initDB db = Some db'
    /\ version db' = IDB.DB_VERSION
    /\ legacyRevives db' = None
    /\ userRevives db' = Some (default [] (userRevives db))
    /\ factionRevives db' = Some (default [] (factionRevives db))
    /\ settings db' = Some (default empty_settings (settings db))
    /\ paymentStatus db' = Some (default ∅ (paymentStatus db)).
Proof.
  intros Hv. unfold initDB.
  apply Z.ltb_lt in Hv. rewrite Hv.
  eexists. split; [reflexivity|].
  unfold onupgradeneeded.
  destruct db as [v st us fs ls ps]. simpl.
  destruct st as [st|]; destruct us as [us|]; destruct fs as [fs|];
    destruct ls as [ls|]; destruct ps as [ps|]; simpl; by repeat split.
Qed.

Lemma initDB_upgrade_witness :
  (version Sample.legacy_database < IDB.DB_VERSION)%Z
  /\ exists db',
       initDB Sample.legacy_database = Some db'
       /\ version db' = IDB.DB_VERSION
       /\ legacyRevives db' = None
       /\ userRevives db' = Some (default [] (userRevives Sample.legacy_database))
       /\ factionRevives db' = Some (default [] (factionRevives Sample.legacy_database))
       /\ settings db' = Some (default empty_settings (settings Sample.legacy_database))
       /\ paymentStatus db' = Some (default ∅ (paymentStatus Sample.legacy_database)).
Proof.
  assert (H : (version Sample.legacy_database < IDB.DB_VERSION)%Z) by reflexivity.
  split; [exact H|exact (initDB_upgrade Sample.legacy_database H)].
Defined.

(** The records of a legacy store are in no store after the upgrade. *)
Lemma initDB_drops_legacy_records :
  legacyRevives Sample.legacy_database = Some Sample.first_page
  /\ Sample.first_page <> []
  /\ exists db',
       initDB Sample.legacy_database = Some db'
       /\ legacyRevives db' = None
       /\ userRevives db' = Some []
       /\ factionRevives db' = Some []
       /\ (forall m r, r ∈ Sample.first_page -> r ∉ cached m db').
Proof.
  split; [reflexivity|]. split; [discriminate|].
  eexists. split; [reflexivity|]. simpl.
  repeat split. intros [] r _ Hr; simpl in Hr; by apply elem_of_nil in Hr.
Qed.

(** ** Pagination *)

Lemma total_pages_of_div (filteredCount : nat) (size : Z) :
  total_pages_of filteredCount size = (- ((- Z.of_nat filteredCount) / size))%Z.
Proof.
  unfold total_pages_of, JS.Math_ceil, Qceiling, JSNum.div, JSNum.of_Z.
  f_equal. rewrite Zdiv_Qdiv. apply Qfloor_comp.
  rewrite Qred_correct, inject_Z_opp. unfold Qdiv. ring.
Qed.

(** [Math.ceil(n / size)] is the least number of pages of [size] rows that
    hold [n] rows. *)
Lemma total_pages_of_ceil (filteredCount : nat) (size : Z) :
  (0 < size)%Z ->
  (Z.of_nat filteredCount <= total_pages_of filteredCount size * size
   < Z.of_nat filteredCount + size)%Z.
Proof.
  intros Hs. rewrite total_pages_of_div.
  pose proof (Z.div_mod (- Z.of_nat filteredCount) size) as Hdm.
  pose proof (Z.mod_pos_bound (- Z.of_nat filteredCount) size Hs) as Hb.
  nia.
Qed.

Lemma allowed_page_size_pos (size : Z) : size ∈ allowed_page_sizes -> (0 < size)%Z.
Proof.
  unfold allowed_page_sizes. rewrite !elem_of_cons, elem_of_nil. lia.
Qed.

Lemma Qle_bool_true (a b : Q) : Qle_bool a b = true -> (a <= b)%Q.
Proof. apply Qle_bool_iff. Qed.

(** C2, as the code has it. For an allowed page size the number of pages is
    the ceiling of the filtered count over the page size, which is 0 for an
    empty view (the footer then shows 1).  [handlePageChange] moves to the
    page it is given, whatever it is.  The jump box moves to its number
    when that lies between 1 and the number of pages, and otherwise leaves
    the table as it is. *)
Theorem pagination (t : Table) (revives : list EnrichedRevive) (isLoadingMore : bool) :
  pageSize t ∈ allowed_page_sizes ->
  let filteredCount := length (filteredAndSortedRevives t revives) in
  (Z.of_nat filteredCount <= totalPages t revives * pageSize t
   < Z.of_nat filteredCount + pageSize t)%Z
  /\ (filteredCount = 0%nat -> totalPages t revives = 0%Z)
  /\ ((0 < filteredCount)%nat -> (1 <= totalPages t revives)%Z)
  /\ shown_total_pages t revives = Z.max 1 (totalPages t revives)
  /\ (forall newPage,
        currentPage (fst (handlePageChange newPage isLoadingMore revives t)) = newPage)
  /\ (forall pageNum,
        pageJumpInput t = Some pageNum ->
        (1 <= pageNum)%Q -> (pageNum <= JSNum.of_Z (totalPages t revives))%Q ->
        currentPage (fst (handlePageJump isLoadingMore revives t)) = pageNum)
  /\ (forall pageNum,
        pageJumpInput t = Some pageNum ->
        (pageNum < 1)%Q \/ (JSNum.of_Z (totalPages t revives) < pageNum)%Q ->
        handlePageJump isLoadingMore revives t = (t, false))
  /\ (pageJumpInput t = None -> handlePageJump isLoadingMore revives t = (t, false))
  /\ (let t' := fst (handlePageJump isLoadingMore revives t) in
      t' = t
      \/ (1 <= currentPage t')%Q /\ (currentPage t' <= JSNum.of_Z (totalPages t revives))%Q).
Proof.
  intros Hsize. cbn zeta.
  pose proof (allowed_page_size_pos _ Hsize) as Hpos.
  pose proof (total_pages_of_ceil (length (filteredAndSortedRevives t revives))
                (pageSize t) Hpos) as Hceil.
  change (total_pages_of _ _) with (totalPages t revives) in Hceil.
  assert (Harith :
    (length (filteredAndSortedRevives t revives) = 0%nat -> totalPages t revives = 0%Z)
    /\ ((0 < length (filteredAndSortedRevives t revives))%nat ->
        (1 <= totalPages t revives)%Z)
    /\ (0 <= totalPages t revives)%Z).
  { revert Hceil Hpos.
    generalize (totalPages t revives) (length (filteredAndSortedRevives t revives))
      (pageSize t).
    intros tp n size Hceil Hpos. repeat split; intros; nia. }
  destruct Harith as (H0 & H1 & Hnonneg).
  split; [exact Hceil|].
  split; [exact H0|]. split; [exact H1|]. split.
  { unfold shown_total_pages.
    destruct (Z.eqb_spec (totalPages t revives) 0) as [Heq|Hne]; [rewrite Heq; reflexivity|].
    lia. }
  split; [reflexivity|].
  unfold handlePageJump, handlePageChange.
  split; [|split; [|split]].
  - intros pageNum Hin Hlo Hhi. rewrite Hin.
    apply Qle_bool_iff in Hlo, Hhi. by rewrite Hlo, Hhi.
  - intros pageNum Hin Hout. rewrite Hin.
    destruct Hout as [Hout|Hout]; apply Qle_bool_lt_false in Hout; rewrite Hout;
      [done|by rewrite andb_false_r].
  - intros Hin. by rewrite Hin.
  - cbn zeta. destruct (pageJumpInput t) as [pageNum|]; [|by left].
    destruct (Qle_bool 1 pageNum) eqn:Hlo; [|by left].
    destruct (Qle_bool pageNum (JSNum.of_Z (totalPages t revives))) eqn:Hhi; [|by left].
    right. simpl. split; by apply Qle_bool_true.
Qed.

Lemma pagination_witness :
  pageSize initial_table ∈ allowed_page_sizes
  /\ (Z.of_nat (length (filteredAndSortedRevives initial_table Sample.one_record))
      <= totalPages initial_table Sample.one_record * pageSize initial_table
      < Z.of_nat (length (filteredAndSortedRevives initial_table Sample.one_record))
        + pageSize initial_table)%Z.
Proof.
  assert (H : pageSize initial_table ∈ allowed_page_sizes).
  { unfold allowed_page_sizes. simpl. apply list_elem_of_In. simpl. tauto. }
  split; [exact H|].
  exact (proj1 (pagination initial_table Sample.one_record false H)).
Defined.

(** An empty view has 0 pages, not 1, and [handlePageChange] goes to page
    7 of a view of one page. *)
Lemma pagination_not_clamped :
  length (filteredAndSortedRevives initial_table []) = 0%nat
  /\ totalPages initial_table [] = 0%Z
  /\ totalPages initial_table [] <>
     Z.max 1 (JS.Math_ceil (JSNum.div (JSNum.of_Z 0) (JSNum.of_Z (pageSize initial_table))))
  /\ totalPages initial_table Sample.one_record = 1%Z
  /\ currentPage (fst (handlePageChange 7 false Sample.one_record initial_table)) = 7%Q
  /\ ~ (7 <= JSNum.of_Z (totalPages initial_table Sample.one_record))%Q.
Proof.
  split; [reflexivity|]. split; [reflexivity|]. split; [by vm_compute|].
  split; [by vm_compute|]. split; [reflexivity|].
  intros H. apply Qle_bool_iff in H. by vm_compute in H.
Qed.

(** ** The filters of the view *)

Lemma elem_of_filter_if {A} (c : bool) (f : A -> bool) (l : list A) (x : A) :
  x ∈ (if c then List.filter f l else l) <-> x ∈ l /\ (if c then f x else true) = true.
Proof.
  destruct c.
  - by rewrite list_elem_of_In, filter_In, <- list_elem_of_In.
  - tauto.
Qed.

Lemma elem_of_filter_opt {A B} (o : option B) (f : B -> A -> bool) (l : list A) (x : A) :
  x ∈ match o with Some b => List.filter (f b) l | None => l end
  <-> x ∈ l /\ match o with Some b => f b x | None => true end = true.
Proof.
  destruct o.
  - by rewrite list_elem_of_In, filter_In, <- list_elem_of_In.
  - tauto.
Qed.

Lemma filtered_revives_elem_of (t : Table) (revives : list EnrichedRevive)
    (r : EnrichedRevive) :
  r ∈ filtered_revives t revives <-> r ∈ revives /\ passes t r = true.
Proof.
  unfold filtered_revives, passes. cbn zeta.
  rewrite (elem_of_filter_opt (to (dateRange t))
             (fun d r => (e_timestamp r <=? d / 1000 + 86399)%Z)).
  rewrite (elem_of_filter_opt (from (dateRange t))
             (fun d r => (d / 1000 <=? e_timestamp r)%Z)).
  rewrite !elem_of_filter_if.
  rewrite (elem_of_filter_opt (categoryFilter t) (fun c r => category_eqb (Category r) c)).
  rewrite !andb_true_iff. tauto.
Qed.

Lemma view_elem_of (t : Table) (revives : list EnrichedRevive) (r : EnrichedRevive) :
  r ∈ filteredAndSortedRevives t revives <-> r ∈ revives /\ passes t r = true.
Proof.
  unfold filteredAndSortedRevives. by rewrite sort_elem_of, filtered_revives_elem_of.
Qed.

Lemma has_false (s : gset string) (x : string) : has s x = false <-> x ∉ s.
Proof. unfold has. apply bool_decide_eq_false. Qed.

Lemma size_pos_elem_of (s : gset string) (x : string) : x ∈ s -> (0 <? size s)%nat = true.
Proof.
  intros Hx. apply Nat.ltb_lt.
  destruct (decide (size s = 0%nat)) as [Hz|Hz]; [|lia].
  apply size_empty_inv in Hz. set_solver.
Qed.

(** What a record in the view says about the exclusion sets. *)
Lemma view_excluded (t : Table) (revives : list EnrichedRevive) (r : EnrichedRevive) :
  r ∈ filteredAndSortedRevives t revives ->
  (target_name (e_target r) ∉ excludedPlayers t)
  /\ (forall f, target_faction (e_target r) = Some f ->
                faction_name f <> "" -> faction_name f ∉ excludedFactions t).
Proof.
  rewrite view_elem_of. intros [_ Hp]. unfold passes in Hp.
  rewrite !andb_true_iff in Hp.
  destruct Hp as [[[[_ Hpl] Hfa] _] _].
  split.
  - intros Hin. rewrite (size_pos_elem_of _ _ Hin) in Hpl.
    unfold player_exclusion_keeps in Hpl.
    apply negb_true_iff, has_false in Hpl. done.
  - intros f Hf Hname Hin. rewrite (size_pos_elem_of _ _ Hin) in Hfa.
    unfold faction_exclusion_keeps in Hfa. rewrite Hf in Hfa.
    apply orb_true_iff in Hfa as [Hfa|Hfa].
    + destruct (faction_name f); [done|discriminate Hfa].
    + apply negb_true_iff, has_false in Hfa. done.
Qed.

(** ** Exclusions: toggling and persistence *)

(** Saving the filters into a well-formed database succeeds and leaves them
    in its settings. *)
Lemma well_formed_save_filters (ps fs : list string) (db : IDBDatabase) :
  well_formed db ->
  exists db' s,
    saveExcludedFilters ps fs db = Some db'
    /\ well_formed db' /\ version db' = IDB.DB_VERSION
    /\ settings db' = Some s
    /\ excludedFilters s = Some {| players := ps; factions := fs |}.
Proof.
  intros Hwf.
  destruct (initDB_well_formed db Hwf) as (db1 & Hopen & Hwf1 & Hv1 & Hstores).
  pose proof Hwf1 as [Hv Hu Hf Hc].
  destruct (Hc Hv1) as ([s Hs] & Hus & Hfs).
  unfold saveExcludedFilters, with_settings. rewrite Hopen. simpl. rewrite Hs. simpl.
  eexists _, _. split; [reflexivity|].
  split; [|by repeat split].
  constructor; simpl; done.
Qed.

Lemma getExcludedFilters_open (db : IDBDatabase) (s : SettingsStore) :
  version db = IDB.DB_VERSION -> settings db = Some s ->
  getExcludedFilters db = Some (excludedFilters s, db).
Proof.
  intros Hv Hs. unfold getExcludedFilters, read_settings.
  rewrite (initDB_opened db Hv). simpl. by rewrite Hs.
Qed.

Lemma toggleExcludePlayer_saved (player : string) (t : Table) (db : IDBDatabase) :
  well_formed db ->
  well_formed (snd (toggleExcludePlayer player (t, db)))
  /\ saved_in (snd (toggleExcludePlayer player (t, db)))
       (fst (toggleExcludePlayer player (t, db))).
Proof.
  intros Hwf. unfold toggleExcludePlayer, save_or_keep. simpl.
  destruct (well_formed_save_filters
              (elements (toggle player (excludedPlayers t)))
              (elements (excludedFactions t)) db Hwf)
    as (db' & s & Hsave & Hwf' & Hv' & Hs & Hf).
  rewrite Hsave. simpl. split; [done|]. split; [done|].
  exists s, {| players := elements (toggle player (excludedPlayers t));
               factions := elements (excludedFactions t) |}.
  simpl. by rewrite !list_to_set_elements_L.
Qed.

Lemma toggleExcludeFaction_saved (fac : string) (t : Table) (db : IDBDatabase) :
  well_formed db ->
  well_formed (snd (toggleExcludeFaction fac (t, db)))
  /\ saved_in (snd (toggleExcludeFaction fac (t, db)))
       (fst (toggleExcludeFaction fac (t, db))).
Proof.
  intros Hwf. unfold toggleExcludeFaction, save_or_keep. simpl.
  destruct (well_formed_save_filters
              (elements (excludedPlayers t))
              (elements (toggle fac (excludedFactions t))) db Hwf)
    as (db' & s & Hsave & Hwf' & Hv' & Hs & Hf).
  rewrite Hsave. simpl. split; [done|]. split; [done|].
  exists s, {| players := elements (excludedPlayers t);
               factions := elements (toggle fac (excludedFactions t)) |}.
  simpl. by rewrite !list_to_set_elements_L.
Qed.

(** A reload restores the saved sets. *)
Lemma reload_saved (t : Table) (db : IDBDatabase) :
  saved_in db t ->
  snd (reload (t, db)) = db
  /\ excludedPlayers (fst (reload (t, db))) = excludedPlayers t
  /\ excludedFactions (fst (reload (t, db))) = excludedFactions t.
Proof.
  intros (Hv & s & f & Hs & Hf & Hp & Hfa).
  unfold reload, loadExcludedFilters. simpl.
  rewrite (getExcludedFilters_open db s Hv Hs), Hf. simpl. done.
Qed.

(** The events other than the two that unexclude [player] keep it
    excluded, in the table and in what is saved. *)
Lemma handle_keeps_excluded (player : string) (ev : TableEvent)
    (w : Table * IDBDatabase) :
  ~ unexcludes player ev ->
  well_formed (snd w) -> saved_in (snd w) (fst w) -> player ∈ excludedPlayers (fst w) ->
  well_formed (snd (handle ev w))
  /\ saved_in (snd (handle ev w)) (fst (handle ev w))
  /\ player ∈ excludedPlayers (fst (handle ev w)).
Proof.
  intros Hev Hwf Hsaved Hin. destruct w as [t db]. simpl in Hwf, Hsaved, Hin.
  unfold unexcludes in Hev.
  destruct ev; simpl; try case_decide; simpl; try done.
  - (* ToggleExcludePlayer *)
    destruct (toggleExcludePlayer_saved player0 t db Hwf) as [Hwf' Hs'].
    split; [done|]. split; [done|].
    unfold toggleExcludePlayer. simpl. unfold toggle.
    assert (player0 <> player) by (intros ->; apply Hev; by left).
    destruct (has (excludedPlayers t) player0); set_solver.
  - (* ToggleExcludeFaction *)
    destruct (toggleExcludeFaction_saved fac t db Hwf) as [Hwf' Hs'].
    done.
  - (* ResetFilters *)
    exfalso. apply Hev. by right.
  - (* Sort *)
    unfold handleSort. by destruct (sortField t), field, (sortDirection t).
  - (* Reload *)
    destruct (reload_saved t db Hsaved) as (Hdb & Hp & Hf).
    rewrite Hdb. split; [done|]. split.
    + destruct Hsaved as (Hv & s & f & Hs & Hfl & Hps & Hfs).
      split; [done|]. exists s, f. by rewrite Hp, Hf.
    + by rewrite Hp.
Qed.

Lemma run_keeps_excluded (player : string) (evs : list TableEvent)
    (w : Table * IDBDatabase) :
  Forall (fun ev => ~ unexcludes player ev) evs ->
  well_formed (snd w) -> saved_in (snd w) (fst w) -> player ∈ excludedPlayers (fst w) ->
  player ∈ excludedPlayers (fst (run evs w))
  /\ saved_in (snd (run evs w)) (fst (run evs w)).
Proof.
  intros Hevs. revert w. induction Hevs as [|ev evs Hev Hevs IH]; intros w Hwf Hs Hin.
  - done.
  - destruct (handle_keeps_excluded player ev w Hev Hwf Hs Hin) as (Hwf' & Hs' & Hin').
    apply (IH (handle ev w)); done.
Qed.

Lemma passes_initial_table (r : EnrichedRevive) : passes initial_table r = true.
Proof. reflexivity. Qed.

(** C6, as the code has it. The filter works on the sets the component
    holds: a record in the view has a target name outside the excluded
    players and, when its target has a faction with a name that is not
    empty, a faction name outside the excluded factions; when the empty
    name is not excluded, that is every faction name.  Once a player is
    toggled into the excluded players, the sets held are the sets saved,
    and no view of the session shows a record of that player, until the
    player is toggled again or the filters are reset.  A reload first
    renders the component without any exclusion, the saved sets untouched:
    that render shows every record; the mount effect then restores the
    saved sets, and the player is excluded again. *)
Theorem exclusion_filter (t : Table) (db : IDBDatabase) (player : string)
    (evs : list TableEvent) :
  well_formed db ->
  player ∉ excludedPlayers t ->
  Forall (fun ev => ~ ends_exclusion player ev) evs ->
  (forall revives r,
     r ∈ filteredAndSortedRevives t revives ->
     (target_name (e_target r) ∉ excludedPlayers t)
     /\ (forall f, target_faction (e_target r) = Some f ->
                   faction_name f <> "" -> faction_name f ∉ excludedFactions t)
     /\ (("" ∉ excludedFactions t) ->
         forall f, target_faction (e_target r) = Some f ->
                   faction_name f ∉ excludedFactions t))
  /\ excludedPlayers (fst (toggleExcludePlayer player (t, db)))
     = excludedPlayers t ∪ {[player]}
  /\ (let w := run evs (toggleExcludePlayer player (t, db)) in
      player ∈ excludedPlayers (fst w)
      /\ saved_in (snd w) (fst w)
      /\ (forall revives r,
            r ∈ filteredAndSortedRevives (fst w) revives ->
            target_name (e_target r) <> player)
      /\ excludedPlayers (fst (first_render w)) = ∅
      /\ excludedFactions (fst (first_render w)) = ∅
      /\ snd (first_render w) = snd w
      /\ (forall revives r,
            r ∈ filteredAndSortedRevives (fst (first_render w)) revives <-> r ∈ revives)
      /\ handle Reload w = loadExcludedFilters (first_render w)
      /\ excludedPlayers (fst (handle Reload w)) = excludedPlayers (fst w)
      /\ excludedFactions (fst (handle Reload w)) = excludedFactions (fst w)
      /\ snd (handle Reload w) = snd w
      /\ (forall revives r,
            r ∈ filteredAndSortedRevives (fst (handle Reload w)) revives ->
            target_name (e_target r) <> player)).
Proof.
  intros Hwf Hout Hevs.
  split.
  { intros revives r Hr. destruct (view_excluded t revives r Hr) as [Hp Hf].
    split; [done|]. split; [done|].
    intros Hempty f Hfac Hin.
    destruct (decide (faction_name f = "")) as [He|He].
    - apply Hempty. by rewrite <- He.
    - by apply (Hf f Hfac He). }
  split.
  { unfold toggleExcludePlayer. simpl. unfold toggle.
    apply has_false in Hout. by rewrite Hout. }
  destruct (toggleExcludePlayer_saved player t db Hwf) as [Hwf1 Hsaved1].
  assert (Hin1 : player ∈ excludedPlayers (fst (toggleExcludePlayer player (t, db)))).
  { simpl. unfold toggle. apply has_false in Hout. rewrite Hout. set_solver. }
  assert (Hevs' : Forall (fun ev => ~ unexcludes player ev) evs).
  { eapply Forall_impl; [exact Hevs|]. intros ev Hev Hun. apply Hev. by left. }
  cbn zeta.
  destruct (run_keeps_excluded player evs _ Hevs' Hwf1 Hsaved1 Hin1) as [Hin Hsaved].
  set (w := run evs (toggleExcludePlayer player (t, db))) in *.
  destruct w as [t1 db1] eqn:Ew. cbn [fst snd] in *.
  destruct (reload_saved t1 db1 Hsaved) as (Hdb & Hp & Hf).
  split; [done|]. split; [done|].
  split.
  { intros revives r Hr Heq.
    apply view_excluded in Hr as [Hr _]. by rewrite Heq in Hr. }
  split; [done|]. split; [done|]. split; [done|].
  split.
  { intros revives r. rewrite view_elem_of. cbn [first_render fst].
    rewrite passes_initial_table. tauto. }
  split; [done|].
  change (handle Reload (t1, db1)) with (reload (t1, db1)).
  split; [done|]. split; [done|]. split; [done|].
  intros revives r Hr Heq.
  apply view_excluded in Hr as [Hr _]. rewrite Hp, Heq in Hr. done.
Qed.

Lemma exclusion_filter_witness :
  well_formed no_database
  /\ ("Bob" ∉ excludedPlayers initial_table)
  /\ Forall (fun ev => ~ ends_exclusion "Bob" ev)
       [ToggleExcludeFaction "Crew"; SetPlayerSearch "b"]
  /\ (let w := run [ToggleExcludeFaction "Crew"; SetPlayerSearch "b"]
                 (toggleExcludePlayer "Bob" (initial_table, no_database)) in
      "Bob" ∈ excludedPlayers (fst w)
      /\ saved_in (snd w) (fst w)
      /\ (forall revives r,
            r ∈ filteredAndSortedRevives (fst w) revives ->
            target_name (e_target r) <> "Bob")).
Proof.
  assert (H1 : "Bob" ∉ excludedPlayers initial_table) by (simpl; set_solver).
  assert (H2 : Forall (fun ev => ~ ends_exclusion "Bob" ev)
                 [ToggleExcludeFaction "Crew"; SetPlayerSearch "b"]).
  { repeat constructor; intros [[H|H]|H]; discriminate H. }
  split; [exact no_database_well_formed|]. split; [exact H1|]. split; [exact H2|].
  pose proof (proj2 (proj2 (exclusion_filter initial_table no_database "Bob" _
                              no_database_well_formed H1 H2))) as (Ha & Hb & Hc & _).
  cbn zeta. split; [exact Ha|]. split; [exact Hb|exact Hc].
Defined.

(** After "Bob" was excluded and the page reloaded, the first render shows
    a record of Bob although Bob is among the saved excluded players. *)
Lemma exclusion_filter_first_render :
  fst <$> getExcludedFilters (snd (first_render SampleView.bob_excluded))
  = Some (Some {| players := ["Bob"]; factions := [] |})
  /\ target_name (e_target SampleView.factionless) = "Bob"
  /\ SampleView.factionless ∈
       filteredAndSortedRevives (fst (first_render SampleView.bob_excluded))
         [SampleView.factionless].
Proof.
  split; [by vm_compute|]. split; [reflexivity|].
  apply view_elem_of. split; [by left|]. apply passes_initial_table.
Qed.

(** ** Records whose target has no faction *)

Lemma passes_with_factionSearch_blank (t : Table) (search : string) (r : EnrichedRevive) :
  JS.trim search = "" ->
  passes (with_factionSearch search t) r = passes (with_factionSearch "" t) r.
Proof. intros H. unfold passes. simpl. by rewrite H. Qed.

Lemma passes_excluded_factionless (t : Table) (excluded : gset string)
    (r : EnrichedRevive) :
  target_faction (e_target r) = None ->
  passes (set_excluded (excludedPlayers t) excluded t) r =
  passes (set_excluded (excludedPlayers t) ∅ t) r.
Proof.
  intros H. unfold passes. cbn [set_excluded categoryFilter outcomeFilter playerSearch
    factionSearch excludedPlayers excludedFactions dateRange].
  unfold faction_exclusion_keeps. rewrite H.
  by destruct (0 <? size excluded)%nat, (0 <? size (∅ : gset string))%nat.
Qed.

(** C10, as the code has it. A record whose target has no faction passes
    the faction exclusion whatever the excluded factions are, so the view
    shows it or not independently of them; the faction search never keeps
    it, so it is absent from the view under every faction search that is
    not blank; a blank search (empty once trimmed) is no filter.  A search
    is blank exactly when it is made of white-space characters only, those
    of [String.prototype.trim]. *)
Theorem factionless_record (t : Table) (revives : list EnrichedRevive)
    (r : EnrichedRevive) :
  target_faction (e_target r) = None ->
  (forall excluded, faction_exclusion_keeps excluded r = true)
  /\ (forall excluded,
        r ∈ filteredAndSortedRevives (set_excluded (excludedPlayers t) excluded t) revives
        <-> r ∈ filteredAndSortedRevives (set_excluded (excludedPlayers t) ∅ t) revives)
  /\ (forall searchLower, faction_search_keeps searchLower r = false)
  /\ (forall search,
        JS.trim search <> "" ->
        r ∉ filteredAndSortedRevives (with_factionSearch search t) revives)
  /\ (forall search,
        JS.trim search = "" ->
        r ∈ filteredAndSortedRevives (with_factionSearch search t) revives
        <-> r ∈ filteredAndSortedRevives (with_factionSearch "" t) revives)
  /\ (forall search,
        JS.trim search = ""
        <-> exists cps,
              Forall (fun cp => cp ∈ JS.white_space_code_points) cps
              /\ search = JS.encode cps).
Proof.
  intros Hnone.
  split; [intros excluded; unfold faction_exclusion_keeps; by rewrite Hnone|].
  split; [intros excluded; by rewrite !view_elem_of, passes_excluded_factionless|].
  assert (Hsearch : forall searchLower, faction_search_keeps searchLower r = false)
    by (intros; unfold faction_search_keeps; by rewrite Hnone).
  split; [done|]. split; [|split; [|apply trim_blank]].
  - intros search Htrim Hin. apply view_elem_of in Hin as [_ Hp].
    unfold passes in Hp. rewrite !andb_true_iff in Hp.
    destruct Hp as [[[[[_ Hfs] _] _] _] _].
    cbn [with_factionSearch factionSearch] in Hfs.
    destruct (JS.trim search) as [|c s]; [done|].
    simpl in Hfs. by rewrite Hsearch in Hfs.
  - intros search Htrim.
    by rewrite !view_elem_of, (passes_with_factionSearch_blank t search r Htrim).
Qed.

Lemma factionless_record_witness :
  target_faction (e_target SampleView.factionless) = None
  /\ (forall search,
        JS.trim search <> "" ->
        SampleView.factionless ∉
          filteredAndSortedRevives (with_factionSearch search initial_table)
            [SampleView.factionless]).
Proof.
  split; [reflexivity|].
  exact (proj1 (proj2 (proj2 (proj2
           (factionless_record initial_table [SampleView.factionless]
              SampleView.factionless eq_refl))))).
Defined.

(** A no-break space, a line separator and a byte order mark are white
    space; a zero-width space and a next-line character are not. *)
Example trim_white_space :
  JS.trim (JS.encode [0xA0; 0x2028; 0xFEFF; 0x20; 0x3000]%N) = ""
  /\ JS.trim (JS.encode [0xA0; 0x61; 0x20; 0x62; 0x2003]%N) = "a b"
  /\ JS.trim (JS.encode [0x200B]%N) = JS.encode [0x200B]%N
  /\ JS.trim (JS.encode [0x85]%N) = JS.encode [0x85]%N.
Proof. repeat split; by vm_compute. Qed.

(** A search of one space is not empty, and does not remove the record. *)
Lemma factionless_record_blank_search :
  factionSearch SampleView.searching_blank <> ""
  /\ target_faction (e_target SampleView.factionless) = None
  /\ SampleView.factionless ∈
       filteredAndSortedRevives SampleView.searching_blank [SampleView.factionless].
Proof.
  split; [discriminate|]. split; [reflexivity|].
  apply view_elem_of. split; [by left|]. by vm_compute.
Qed.

(** ** A failed fetch *)

Lemma read_settings_open {A} (f : SettingsStore -> A) (db : IDBDatabase) :
  version db = IDB.DB_VERSION ->
  read_settings f db = (fun s => (f s, db)) <$> settings db.
Proof.
  intros Hv. unfold read_settings. rewrite (initDB_opened db Hv). simpl.
  by destruct (settings db).
Qed.

Lemma getOldestTimestamp_open (m : Mode) (db : IDBDatabase) :
  version db = IDB.DB_VERSION ->
  getOldestTimestamp m db = (fun s => (least_timestamp s, db)) <$> revives_store m db.
Proof.
  intros Hv. unfold getOldestTimestamp. rewrite (initDB_opened db Hv). simpl.
  by destruct (revives_store m db).
Qed.

Lemma try_bind_read {A B} (f : IDBDatabase -> option (A * IDBDatabase))
    (k : A -> Try.M B) (w : World) (a : A) (db' : IDBDatabase) :
  f (db w) = Some (a, db') ->
  (Try.read f ≫= k) w =
  k a {| dash := dash w; db := db'; loggedOut := loggedOut w; toasts := toasts w |}.
Proof. intros H. unfold mbind, try_bind, Try.bind, Try.read. by rewrite H. Qed.

Lemma try_bind_update {B} (g : Dashboard -> Dashboard) (k : unit -> Try.M B) (w : World) :
  (Try.update g ≫= k) w =
  k tt {| dash := g (dash w); db := db w; loggedOut := loggedOut w; toasts := toasts w |}.
Proof. reflexivity. Qed.

Lemma try_bind_ret {A B} (a : A) (k : A -> Try.M B) (w : World) :
  (Try.ret a ≫= k) w = k a w.
Proof. reflexivity. Qed.

(** What [request_for] says of the reads of an open database. *)
Lemma request_for_open (backfill : bool) (database : IDBDatabase) (req : Request) :
  version database = IDB.DB_VERSION ->
  request_for backfill database = Some req ->
  exists key m oldest,
    getApiKey database = Some (Some key, database)
    /\ getApiMode database = Some (m, database)
    /\ (if backfill then getOldestTimestamp m database = Some (oldest, database)
        else oldest = None)
    /\ req = request_of backfill m key oldest.
Proof.
  intros Hv Hreq. unfold request_for in Hreq.
  unfold getApiKey, getApiMode in *.
  rewrite !read_settings_open by done.
  rewrite read_settings_open in Hreq by done.
  destruct (settings database) as [s|] eqn:Hs; [|discriminate Hreq].
  cbn [fmap option_fmap option_map mbind option_bind fst snd] in *.
  destruct (match apiKey s with
            | Some k => if JS.truthy k then Some k else None
            | None => None
            end) as [key|]; [|discriminate Hreq].
  cbn [fmap option_fmap option_map mbind option_bind fst snd] in Hreq.
  rewrite read_settings_open in Hreq by done. rewrite Hs in Hreq.
  cbn [fmap option_fmap option_map mbind option_bind fst snd] in Hreq.
  exists key, (default user (apiMode s)).
  destruct backfill.
  - rewrite getOldestTimestamp_open in Hreq by done.
    rewrite getOldestTimestamp_open by done.
    destruct (revives_store (default user (apiMode s)) database) as [store|];
      [|discriminate Hreq].
    cbn [fmap option_fmap option_map mbind option_bind fst snd] in *.
    injection Hreq as <-. by exists (least_timestamp store).
  - cbn [fmap option_fmap option_map mbind option_bind fst snd] in Hreq.
    injection Hreq as <-. by exists None.
Qed.

(** The [try] block throws at the fetch, having only set the mode. *)
Lemma fetch_body_failure (fetch : Request -> Response) (closure : Dashboard)
    (backfill : bool) (w : World) (req : Request) :
  version (db w) = IDB.DB_VERSION ->
  request_for backfill (db w) = Some req ->
  fetch_failed (fetch req) = true ->
  fetch_body fetch closure backfill w =
  (Try.Thrown,
   {| dash := set_mode (req_mode req) (dash w); db := db w;
      loggedOut := loggedOut w; toasts := toasts w |}).
Proof.
  intros Hv Hreq Hfail.
  destruct (request_for_open backfill (db w) req Hv Hreq)
    as (key & m & oldest & Hkey & Hmode & Hold & ->).
  unfold fetch_body.
  rewrite (try_bind_read _ _ w _ _ Hkey).
  rewrite (try_bind_read getApiMode _ _ m (db w)) by exact Hmode.
  rewrite try_bind_update. cbn [dash db loggedOut toasts].
  destruct backfill.
  - rewrite (try_bind_read _ _ _ oldest (db w)) by exact Hold.
    cbn [dash db loggedOut toasts].
    destruct (fetch _); try discriminate Hfail; reflexivity.
  - rewrite try_bind_ret. subst oldest.
    destruct (fetch _); try discriminate Hfail; reflexivity.
Qed.

(** The world a failed fetch leaves. *)
Lemma fetchRevives_failure_run (fetch : Request -> Response) (closure : Dashboard)
    (backfill : bool) (w : World) (req : Request) :
  version (db w) = IDB.DB_VERSION ->
  request_for backfill (db w) = Some req ->
  fetch_failed (fetch req) = true ->
  fetchRevives fetch closure backfill w =
  {| dash :=
       set_isLoadingMore false (set_isFetching false (set_isLoading false
         (set_error "Failed to fetch revives. Please try again."
            (set_mode (req_mode req)
               (set_error ""
                  ((if backfill then set_isLoadingMore true else set_isFetching true)
                     (dash w)))))));
     db := db w; loggedOut := loggedOut w; toasts := toasts w |}.
Proof.
  intros Hv Hreq Hfail. unfold fetchRevives.
  rewrite !try_bind_update. unfold Try.update at 1. cbn iota beta.
  rewrite (fetch_body_failure fetch closure backfill _ req) by done.
  reflexivity.
Qed.

(** C8, as the code has it. When a call of [fetchRevives] over an open
    database sends its request and the fetch fails (no network, a response
    that is not ok, a body that is not JSON), the error message is set, the
    three loading flags are down, and nothing else has changed: the
    database, hence the cached records and the oldest timestamp of each
    mode, the [hasMoreData] flag, the records shown, the reference ids, and
    no toast or logout.  A failed backfill, [handleLoadMore], is such a
    call.  A failed refresh, [handleRefresh], differs in [hasMoreData]
    alone: the handler raises the flag before it fetches, and the flag is
    up afterwards whatever it was. *)
Theorem fetchRevives_failure (fetch : Request -> Response) (closure : Dashboard)
    (backfill : bool) (w : World) (req : Request) :
  version (db w) = IDB.DB_VERSION ->
  request_for backfill (db w) = Some req ->
  fetch_failed (fetch req) = true ->
  let w' := fetchRevives fetch closure backfill w in
  error (dash w') = "Failed to fetch revives. Please try again."
  /\ isLoading (dash w') = false
  /\ isFetching (dash w') = false
  /\ isLoadingMore (dash w') = false
  /\ db w' = db w
  /\ (forall m, getAllRevives m (db w') = getAllRevives m (db w))
  /\ (forall m, getOldestTimestamp m (db w') = getOldestTimestamp m (db w))
  /\ hasMoreData (dash w') = hasMoreData (dash w)
  /\ revives (dash w') = revives (dash w)
  /\ userReviveId (dash w') = userReviveId (dash w)
  /\ factionId (dash w') = factionId (dash w)
  /\ loggedOut w' = loggedOut w
  /\ toasts w' = toasts w
  /\ (backfill = true -> handleLoadMore fetch w = w')
  /\ (backfill = false ->
      dash (handleRefresh fetch w) = set_hasMoreData true (dash w')
      /\ hasMoreData (dash (handleRefresh fetch w)) = true
      /\ db (handleRefresh fetch w) = db w
      /\ loggedOut (handleRefresh fetch w) = loggedOut w
      /\ toasts (handleRefresh fetch w) = toasts w).
Proof.
  intros Hv Hreq Hfail. cbn zeta.
  rewrite (fetchRevives_failure_run fetch closure backfill w req Hv Hreq Hfail).
  cbn [dash db loggedOut toasts].
  do 13 (split; [by destruct backfill|]).
  split.
  - intros ->. unfold handleLoadMore.
    by rewrite (fetchRevives_failure_run fetch (dash w) true w req Hv Hreq Hfail).
  - intros ->. unfold handleRefresh, Try.update. cbn iota beta.
    set (w1 := {| dash := set_hasMoreData true (dash w); db := db w;
                  loggedOut := loggedOut w; toasts := toasts w |}).
    rewrite (fetchRevives_failure_run fetch (dash w) false w1 req Hv Hreq Hfail).
    by repeat split.
Qed.

Lemma fetchRevives_failure_witness :
  version (db SampleWorld.world) = IDB.DB_VERSION
  /\ request_for true (db SampleWorld.world) =
     Some {| req_mode := user; req_to := Some 100%Z; req_key := "key" |}
  /\ fetch_failed
       (SampleWorld.unauthorized
          {| req_mode := user; req_to := Some 100%Z; req_key := "key" |}) = true
  /\ (let w' := fetchRevives SampleWorld.unauthorized (dash SampleWorld.world) true
                  SampleWorld.world in
      error (dash w') = "Failed to fetch revives. Please try again."
      /\ isLoading (dash w') = false
      /\ isFetching (dash w') = false
      /\ isLoadingMore (dash w') = false
      /\ db w' = db SampleWorld.world
      /\ (forall m, getAllRevives m (db w') = getAllRevives m (db SampleWorld.world))
      /\ (forall m,
            getOldestTimestamp m (db w') = getOldestTimestamp m (db SampleWorld.world))
      /\ hasMoreData (dash w') = hasMoreData (dash SampleWorld.world)
      /\ revives (dash w') = revives (dash SampleWorld.world)
      /\ userReviveId (dash w') = userReviveId (dash SampleWorld.world)
      /\ factionId (dash w') = factionId (dash SampleWorld.world)
      /\ loggedOut w' = loggedOut SampleWorld.world
      /\ toasts w' = toasts SampleWorld.world
      /\ handleLoadMore SampleWorld.unauthorized SampleWorld.world = w').
Proof.
  assert (H1 : version (db SampleWorld.world) = IDB.DB_VERSION) by reflexivity.
  assert (H2 : request_for true (db SampleWorld.world) =
               Some {| req_mode := user; req_to := Some 100%Z; req_key := "key" |})
    by reflexivity.
  assert (H3 : fetch_failed
                 (SampleWorld.unauthorized
                    {| req_mode := user; req_to := Some 100%Z; req_key := "key" |}) = true)
    by reflexivity.
  split; [exact H1|]. split; [exact H2|]. split; [exact H3|].
  pose proof (fetchRevives_failure SampleWorld.unauthorized (dash SampleWorld.world) true
                SampleWorld.world _ H1 H2 H3)
    as (C1 & C2 & C3 & C4 & C5 & C6 & C7 & C8 & C9 & C10 & C11 & C12 & C13 & C14 & _).
  cbn zeta.
  do 13 (split; [assumption|]). exact (C14 eq_refl).
Defined.

(** The data was marked as exhausted; the refresh fails at the request, and
    the mark is gone. *)
Lemma failed_refresh_raises_hasMoreData :
  hasMoreData (dash SampleWorld.world) = false
  /\ request_for false (db SampleWorld.world) =
     Some {| req_mode := user; req_to := None; req_key := "key" |}
  /\ fetch_failed
       (SampleWorld.unauthorized
          {| req_mode := user; req_to := None; req_key := "key" |}) = true
  /\ hasMoreData (dash (handleRefresh SampleWorld.unauthorized SampleWorld.world)) = true
  /\ error (dash (handleRefresh SampleWorld.unauthorized SampleWorld.world))
     = "Failed to fetch revives. Please try again.".
Proof. repeat split; by vm_compute. Qed.

(** ** Two handlers around the claims above *)

(** X1. [handleRefresh] raises [hasMoreData] before it fetches: after a
    refresh whose fetch fails the flag is up, whatever it was. *)
Theorem handleRefresh_failure (fetch : Request -> Response) (w : World) (req : Request) :
  version (db w) = IDB.DB_VERSION ->
  request_for false (db w) = Some req ->
  fetch_failed (fetch req) = true ->
  hasMoreData (dash (handleRefresh fetch w)) = true
  /\ db (handleRefresh fetch w) = db w
  /\ error (dash (handleRefresh fetch w)) = "Failed to fetch revives. Please try again.".
Proof.
  intros Hv Hreq Hfail. unfold handleRefresh.
  unfold Try.update. cbn iota beta.
  set (w1 := {| dash := set_hasMoreData true (dash w); db := db w;
                loggedOut := loggedOut w; toasts := toasts w |}).
  assert (Hrun :
    fetchRevives fetch (dash w) false w1 =
    {| dash :=
         set_isLoadingMore false (set_isFetching false (set_isLoading false
           (set_error "Failed to fetch revives. Please try again."
              (set_mode (req_mode req)
                 (set_error "" (set_isFetching true (dash w1)))))));
       db := db w1; loggedOut := loggedOut w1; toasts := toasts w1 |}).
  { unfold fetchRevives.
    rewrite !try_bind_update. unfold Try.update at 1. cbn iota beta.
    rewrite (fetch_body_failure fetch (dash w) false _ req) by done.
    reflexivity. }
  rewrite Hrun. by repeat split.
Qed.

Lemma handleRefresh_failure_witness :
  version (db SampleWorld.world) = IDB.DB_VERSION
  /\ request_for false (db SampleWorld.world) =
     Some {| req_mode := user; req_to := None; req_key := "key" |}
  /\ hasMoreData (dash SampleWorld.world) = false
  /\ hasMoreData (dash (handleRefresh SampleWorld.unauthorized SampleWorld.world)) = true.
Proof.
  assert (H1 : version (db SampleWorld.world) = IDB.DB_VERSION) by reflexivity.
  assert (H2 : request_for false (db SampleWorld.world) =
               Some {| req_mode := user; req_to := None; req_key := "key" |})
    by reflexivity.
  split; [exact H1|]. split; [exact H2|]. split; [reflexivity|].
  exact (proj1 (handleRefresh_failure SampleWorld.unauthorized SampleWorld.world _
                  H1 H2 eq_refl)).
Defined.

(** X2. [resetFilters] empties the exclusion sets of the table and leaves
    the saved ones: a reload brings the exclusions back. *)
Theorem resetFilters_not_saved (t : Table) (database : IDBDatabase) :
  saved_in database t ->
  let w := handle ResetFilters (t, database) in
  excludedPlayers (fst w) = ∅
  /\ excludedFactions (fst w) = ∅
  /\ snd w = database
  /\ excludedPlayers (fst (handle Reload w)) = excludedPlayers t
  /\ excludedFactions (fst (handle Reload w)) = excludedFactions t.
Proof.
  intros Hsaved. cbn zeta. simpl handle at 1 2 3.
  split; [done|]. split; [done|]. split; [done|].
  destruct Hsaved as (Hv & s & f & Hs & Hf & Hp & Hfa).
  unfold handle, reload, first_render, loadExcludedFilters. cbn [fst snd].
  rewrite (getExcludedFilters_open database s Hv Hs), Hf. done.
Qed.

Lemma resetFilters_not_saved_witness :
  saved_in (snd (toggleExcludePlayer "Bob" (initial_table, SampleWorld.database)))
    (fst (toggleExcludePlayer "Bob" (initial_table, SampleWorld.database)))
  /\ excludedPlayers
       (fst (handle Reload
               (handle ResetFilters
                  (fst (toggleExcludePlayer "Bob" (initial_table, SampleWorld.database)),
                   snd (toggleExcludePlayer "Bob" (initial_table, SampleWorld.database))))))
     = excludedPlayers
         (fst (toggleExcludePlayer "Bob" (initial_table, SampleWorld.database))).
Proof.
  assert (H : saved_in
                (snd (toggleExcludePlayer "Bob" (initial_table, SampleWorld.database)))
                (fst (toggleExcludePlayer "Bob" (initial_table, SampleWorld.database)))).
  { split; [reflexivity|]. eexists _, _. split; [reflexivity|]. split; [reflexivity|].
    simpl. by rewrite !list_to_set_elements_L. }
  split; [exact H|].
  exact (proj1 (proj2 (proj2 (proj2 (resetFilters_not_saved _ _ H))))).
Defined.

(** * Further properties *)

(** ** Opening the database *)

Lemma initDB_ready (db : IDBDatabase) : ready db -> initDB db = Some (open_db db).
Proof.
  intros [[Hv Hu Hf Hc] Hp]. unfold initDB, open_db.
  destruct (Z.ltb_spec (version db) IDB.DB_VERSION) as [Hlt|Hge].
  - f_equal. unfold onupgradeneeded.
    destruct db as [v st us fs ls ps]. simpl.
    destruct st as [st|]; destruct us as [us|]; destruct fs as [fs|];
      destruct ls as [ls|]; destruct ps as [ps|]; reflexivity.
  - assert (Heq : version db = IDB.DB_VERSION) by lia.
    rewrite Heq, Z.eqb_refl.
    destruct (Hc Heq) as ([st Hst] & [us Hus] & [fs Hfs]).
    destruct (Hp Heq) as [ps Hps].
    destruct db as [v st' us' fs' ls ps']. simpl in *. by subst.
Qed.

Lemma open_db_ready (db : IDBDatabase) : ready db -> ready (open_db db).
Proof.
  intros [[Hv Hu Hf Hc] Hp]. split; [constructor|]; simpl.
  - done.
  - intros s Hs. injection Hs as Hs. rewrite <- Hs.
    destruct (userRevives db) as [us|]; [by apply Hu|constructor].
  - intros s Hs. injection Hs as Hs. rewrite <- Hs.
    destruct (factionRevives db) as [fs|]; [by apply Hf|constructor].
  - by eauto.
  - by eauto.
Qed.

Lemma initDB_open_db (db : IDBDatabase) : initDB (open_db db) = Some (open_db db).
Proof. by apply initDB_opened. Qed.

Lemma no_database_ready : ready no_database.
Proof.
  split; [exact no_database_well_formed|].
  unfold IDB.DB_VERSION. intros H. discriminate H.
Defined.

(** X3. [initDB] refuses a database of a later version, leaves one of the
    current version as it is, and whatever it returns is at the current
    version and is returned unchanged by a second [initDB]; after an
    upgrade the four stores of the schema exist and the legacy store does
    not. *)
Theorem initDB_idempotent (db : IDBDatabase) :
  ((IDB.DB_VERSION < version db)%Z -> initDB db = None)
  /\ (version db = IDB.DB_VERSION -> initDB db = Some db)
  /\ (forall db',
        initDB db = Some db' ->
        initDB db' = Some db' /\ version db' = IDB.DB_VERSION)
  /\ (forall db',
        (version db < IDB.DB_VERSION)%Z -> initDB db = Some db' ->
        is_Some (settings db') /\ is_Some (userRevives db')
        /\ is_Some (factionRevives db') /\ is_Some (paymentStatus db')
        /\ legacyRevives db' = None).
Proof.
  unfold initDB.
  destruct (Z.ltb_spec (version db) IDB.DB_VERSION) as [Hlt|Hge].
  - split; [intros; lia|]. split; [intros; lia|]. split.
    + intros db' [= <-]. split; [|done]. by apply initDB_opened.
    + intros db' _ [= <-].
      unfold onupgradeneeded. destruct db as [v st us fs ls ps]. simpl.
      destruct st as [st|]; destruct us as [us|]; destruct fs as [fs|];
        destruct ls as [ls|]; destruct ps as [ps|]; simpl; by eauto 10.
  - destruct (Z.eqb_spec (version db) IDB.DB_VERSION) as [Heq|Hne].
    + split; [intros; lia|]. split; [done|]. split.
      * intros db' [= <-]. split; [|done]. by apply initDB_opened.
      * intros; lia.
    + split; [done|]. split; [done|]. split; [intros db' H; discriminate H|].
      intros; lia.
Qed.

(** ** Settings, payment statuses and clearing *)

Lemma with_settings_ready (f : SettingsStore -> SettingsStore) (db : IDBDatabase) :
  ready db ->
  with_settings f db =
  Some (IDB.set_settings (Some (f (default empty_settings (settings db)))) (open_db db)).
Proof. intros H. unfold with_settings. by rewrite (initDB_ready db H). Qed.

Lemma read_settings_ready {A} (f : SettingsStore -> A) (db : IDBDatabase) :
  ready db ->
  read_settings f db = Some (f (default empty_settings (settings db)), open_db db).
Proof. intros H. unfold read_settings. by rewrite (initDB_ready db H). Qed.

Lemma set_settings_ready (s : SettingsStore) (db : IDBDatabase) :
  ready db -> ready (IDB.set_settings (Some s) (open_db db)).
Proof.
  intros H. destruct (open_db_ready db H) as [[Hv Hu Hf Hc] Hp].
  split; [constructor|]; simpl; done.
Qed.

Lemma getAllRevives_ready (m : Mode) (db : IDBDatabase) :
  ready db -> getAllRevives m db = Some (cached m db, open_db db).
Proof.
  intros H. unfold getAllRevives. rewrite (initDB_ready db H). by destruct m.
Qed.

Lemma getAllPaymentStatuses_ready (db : IDBDatabase) :
  ready db ->
  getAllPaymentStatuses db = Some (default ∅ (paymentStatus db), open_db db).
Proof. intros H. unfold getAllPaymentStatuses. by rewrite (initDB_ready db H). Qed.

Lemma getPaymentStatus_ready (key : string) (db : IDBDatabase) :
  ready db ->
  getPaymentStatus key db =
  Some (default false (default ∅ (paymentStatus db) !! key), open_db db).
Proof. intros H. unfold getPaymentStatus. by rewrite (initDB_ready db H). Qed.

Lemma sample_database_ready : ready SampleWorld.database.
Proof.
  split; [constructor|]; simpl; try done.
  - intros s [= <-]. unfold sorted_by_id. repeat constructor.
  - intros s [= <-]. constructor.
Defined.

(** X4. A saved API key is read back, except the empty key, which reads as
    no key; saving a key changes neither the saved mode, the saved
    exclusion filters, the cached records nor the payment statuses. *)
Theorem saveApiKey_getApiKey (key : string) (db : IDBDatabase) :
  ready db ->
  exists db',
    saveApiKey key db = Some db'
    /\ ready db'
    /\ read (getApiKey db') = Some (if JS.truthy key then Some key else None)
    /\ read (getApiMode db') = read (getApiMode db)
    /\ read (getExcludedFilters db') = read (getExcludedFilters db)
    /\ (forall m, read (getAllRevives m db') = read (getAllRevives m db))
    /\ read (getAllPaymentStatuses db') = read (getAllPaymentStatuses db).
Proof.
  intros H. eexists. split; [by apply with_settings_ready|].
  pose proof (set_settings_ready
                {| apiKey := Some key;
                   apiMode := apiMode (default empty_settings (settings db));
                   excludedFilters := excludedFilters (default empty_settings (settings db)) |}
                db H) as H'.
  split; [exact H'|].
  unfold getApiKey, getApiMode, getExcludedFilters.
  rewrite !(read_settings_ready _ _ H'), !(read_settings_ready _ _ H).
  split; [done|]. split; [done|]. split; [done|]. split.
  - intros m. rewrite (getAllRevives_ready m _ H'), (getAllRevives_ready m _ H).
    by destruct m.
  - by rewrite (getAllPaymentStatuses_ready _ H'), (getAllPaymentStatuses_ready _ H).
Qed.

Lemma saveApiKey_getApiKey_witness :
  ready no_database
  /\ exists db',
       saveApiKey "" no_database = Some db'
       /\ ready db'
       /\ read (getApiKey db') = Some (if JS.truthy "" then Some "" else None)
       /\ read (getApiMode db') = read (getApiMode no_database)
       /\ read (getExcludedFilters db') = read (getExcludedFilters no_database)
       /\ (forall m, read (getAllRevives m db') = read (getAllRevives m no_database))
       /\ read (getAllPaymentStatuses db') = read (getAllPaymentStatuses no_database).
Proof.
  split; [exact no_database_ready|].
  exact (saveApiKey_getApiKey "" no_database no_database_ready).
Defined.

(** X5. After [clearApiKey] no key is read, while the saved mode, the saved
    exclusion filters, the cached records of both modes and the payment
    statuses are what they were. *)
Theorem clearApiKey_keeps_data (db : IDBDatabase) :
  ready db ->
  exists db',
    clearApiKey db = Some db'
    /\ ready db'
    /\ read (getApiKey db') = Some None
    /\ read (getApiMode db') = read (getApiMode db)
    /\ read (getExcludedFilters db') = read (getExcludedFilters db)
    /\ (forall m, read (getAllRevives m db') = read (getAllRevives m db))
    /\ (forall m, read (getOldestTimestamp m db') = read (getOldestTimestamp m db))
    /\ read (getAllPaymentStatuses db') = read (getAllPaymentStatuses db).
Proof.
  intros H. eexists. split; [by apply with_settings_ready|].
  pose proof (set_settings_ready
                {| apiKey := None;
                   apiMode := apiMode (default empty_settings (settings db));
                   excludedFilters := excludedFilters (default empty_settings (settings db)) |}
                db H) as H'.
  split; [exact H'|].
  unfold getApiKey, getApiMode, getExcludedFilters.
  rewrite !(read_settings_ready _ _ H'), !(read_settings_ready _ _ H).
  split; [done|]. split; [done|]. split; [done|]. split; [|split].
  - intros m. rewrite (getAllRevives_ready m _ H'), (getAllRevives_ready m _ H).
    by destruct m.
  - intros m. unfold getOldestTimestamp.
    rewrite (initDB_ready _ H'), (initDB_ready _ H). by destruct m.
  - by rewrite (getAllPaymentStatuses_ready _ H'), (getAllPaymentStatuses_ready _ H).
Qed.

Lemma clearApiKey_keeps_data_witness :
  ready SampleWorld.database
  /\ exists db',
       clearApiKey SampleWorld.database = Some db'
       /\ read (getApiKey db') = Some None
       /\ read (getAllRevives user db') = read (getAllRevives user SampleWorld.database).
Proof.
  pose proof sample_database_ready as H.
  split; [exact H|].
  destruct (clearApiKey_keeps_data SampleWorld.database H)
    as (db' & Hc & _ & Hk & _ & _ & Hr & _).
  exists db'. split; [exact Hc|]. split; [exact Hk|]. exact (Hr user).
Defined.

(** X6. A saved mode is read back, and a database in which no mode was
    ever saved reads as mode [user]; saving the mode leaves the key, the
    exclusion filters and the cached records alone. *)
Theorem saveApiMode_getApiMode (m : Mode) (db : IDBDatabase) :
  ready db ->
  (settings db = None \/ (exists s, settings db = Some s /\ apiMode s = None) ->
   read (getApiMode db) = Some user)
  /\ exists db',
       saveApiMode m db = Some db'
       /\ ready db'
       /\ read (getApiMode db') = Some m
       /\ read (getApiKey db') = read (getApiKey db)
       /\ read (getExcludedFilters db') = read (getExcludedFilters db)
       /\ (forall m', read (getAllRevives m' db') = read (getAllRevives m' db)).
Proof.
  intros H. split.
  - unfold getApiMode. rewrite (read_settings_ready _ _ H).
    intros [Hs|(s & Hs & Hm)]; rewrite Hs; simpl; [done|by rewrite Hm].
  - eexists. split; [by apply with_settings_ready|].
    pose proof (set_settings_ready
                  {| apiKey := apiKey (default empty_settings (settings db));
                     apiMode := Some m;
                     excludedFilters :=
                       excludedFilters (default empty_settings (settings db)) |}
                  db H) as H'.
    split; [exact H'|].
    unfold getApiKey, getApiMode, getExcludedFilters.
    rewrite !(read_settings_ready _ _ H'), !(read_settings_ready _ _ H).
    split; [done|]. split; [done|]. split; [done|].
    intros m'. rewrite (getAllRevives_ready m' _ H'), (getAllRevives_ready m' _ H).
    by destruct m'.
Qed.

Lemma saveApiMode_getApiMode_witness :
  ready no_database
  /\ read (getApiMode no_database) = Some user
  /\ exists db',
       saveApiMode faction no_database = Some db'
       /\ read (getApiMode db') = Some faction.
Proof.
  split; [exact no_database_ready|].
  destruct (saveApiMode_getApiMode faction no_database no_database_ready)
    as (Hdefault & db' & Hsave & _ & Hmode & _).
  split; [apply Hdefault; by left|].
  exists db'. split; [exact Hsave|exact Hmode].
Defined.

(** ** Payment statuses *)

Lemma set_paymentStatus_ready (store : gmap string bool) (db : IDBDatabase) :
  ready db -> ready (IDB.set_paymentStatus (Some store) (open_db db)).
Proof.
  intros H. destruct (open_db_ready db H) as [[Hv Hu Hf Hc] Hp].
  split; [constructor|]; simpl; done.
Qed.

(** X7. A payment status that was set is read back under its id and shows
    in the map of all statuses; the statuses of the other ids stay, an id
    that was never set reads as unpaid, and setting a status touches
    neither the cached records nor the settings. *)
Theorem setPaymentStatus_getPaymentStatus (key : string) (isPaid : bool)
    (db : IDBDatabase) :
  ready db ->
  (forall statuses k,
     read (getAllPaymentStatuses db) = Some statuses -> statuses !! k = None ->
     read (getPaymentStatus k db) = Some false)
  /\ exists db',
       setPaymentStatus key isPaid db = Some db'
       /\ ready db'
       /\ read (getPaymentStatus key db') = Some isPaid
       /\ (forall k, k <> key ->
             read (getPaymentStatus k db') = read (getPaymentStatus k db))
       /\ read (getAllPaymentStatuses db') =
          (fun statuses => <[key := isPaid]> statuses) <$> read (getAllPaymentStatuses db)
       /\ (forall m, read (getAllRevives m db') = read (getAllRevives m db))
       /\ read (getApiKey db') = read (getApiKey db)
       /\ read (getExcludedFilters db') = read (getExcludedFilters db).
Proof.
  intros H. split.
  - intros statuses k.
    rewrite (getAllPaymentStatuses_ready _ H), (getPaymentStatus_ready _ _ H).
    simpl. intros [= <-] Hk. by rewrite Hk.
  - exists (IDB.set_paymentStatus
              (Some (<[key := isPaid]> (default ∅ (paymentStatus db)))) (open_db db)).
    split; [unfold setPaymentStatus; by rewrite (initDB_ready db H)|].
    pose proof (set_paymentStatus_ready
                  (<[key := isPaid]> (default ∅ (paymentStatus db))) db H) as H'.
    split; [exact H'|].
    rewrite !(getPaymentStatus_ready _ _ H'), !(getAllPaymentStatuses_ready _ H').
    rewrite !(getAllPaymentStatuses_ready _ H).
    unfold getApiKey, getExcludedFilters.
    rewrite !(read_settings_ready _ _ H'), !(read_settings_ready _ _ H).
    simpl. rewrite lookup_insert_eq.
    split; [done|]. split.
    { intros k Hk. rewrite (getPaymentStatus_ready _ _ H). simpl.
      by rewrite lookup_insert_ne. }
    split; [done|]. split; [|done].
    intros m. rewrite (getAllRevives_ready m _ H'), (getAllRevives_ready m _ H).
    by destruct m.
Qed.

Lemma setPaymentStatus_getPaymentStatus_witness :
  ready no_database
  /\ read (getPaymentStatus "100_9" no_database) = Some false
  /\ exists db',
       setPaymentStatus "100_9" true no_database = Some db'
       /\ read (getPaymentStatus "100_9" db') = Some true.
Proof.
  split; [exact no_database_ready|].
  destruct (setPaymentStatus_getPaymentStatus "100_9" true no_database no_database_ready)
    as (Hmissing & db' & Hset & _ & Hget & _).
  split; [apply (Hmissing ∅); reflexivity|].
  exists db'. split; [exact Hset|exact Hget].
Defined.

(** ** Clearing *)

(** X8. [clearAllData] succeeds on every database this application can
    have left and empties it: afterwards no key is read, the mode reads as
    [user], no exclusion filters are saved, both modes have no cached
    record and no oldest timestamp, and no payment status is stored. *)
Theorem clearAllData_empties (db : IDBDatabase) :
  ready db ->
  exists db',
    clearAllData db = Some db'
    /\ ready db'
    /\ read (getApiKey db') = Some None
    /\ read (getApiMode db') = Some user
    /\ read (getExcludedFilters db') = Some None
    /\ (forall m, read (getAllRevives m db') = Some [])
    /\ (forall m, read (getOldestTimestamp m db') = Some None)
    /\ read (getAllPaymentStatuses db') = Some ∅
    /\ (forall k, read (getPaymentStatus k db') = Some false).
Proof.
  intros H. unfold clearAllData. rewrite (initDB_ready db H). simpl.
  eexists. split; [reflexivity|].
  match goal with |- ready ?d /\ _ => assert (H' : ready d) end.
  { destruct (open_db_ready db H) as [[Hv Hu Hf Hc] Hp].
    split; [constructor|]; simpl; try done.
    - intros s [= <-]. constructor.
    - intros s [= <-]. constructor. }
  split; [exact H'|].
  unfold getApiKey, getApiMode, getExcludedFilters, getOldestTimestamp.
  rewrite !(read_settings_ready _ _ H'), (getAllPaymentStatuses_ready _ H').
  split; [done|]. split; [done|]. split; [done|]. split; [|split; [|split]].
  - intros m. rewrite (getAllRevives_ready m _ H'). by destruct m.
  - intros m. rewrite (initDB_ready _ H'). by destruct m.
  - done.
  - intros k. by rewrite (getPaymentStatus_ready _ _ H').
Qed.

Lemma clearAllData_empties_witness :
  ready SampleWorld.database
  /\ read (getAllRevives user SampleWorld.database) = Some Sample.first_page
  /\ exists db',
       clearAllData SampleWorld.database = Some db'
       /\ read (getApiKey db') = Some None
       /\ read (getAllRevives user db') = Some [].
Proof.
  pose proof sample_database_ready as H.
  split; [exact H|]. split; [reflexivity|].
  destruct (clearAllData_empties SampleWorld.database H)
    as (db' & Hc & _ & Hk & _ & _ & Hr & _).
  exists db'. split; [exact Hc|]. split; [exact Hk|exact (Hr user)].
Defined.

(** ** The oldest timestamp *)

Lemma foldl_min_le (a : Z) (l : list Z) :
  (foldl Z.min a l <= a)%Z /\ Forall (fun x => (foldl Z.min a l <= x)%Z) l.
Proof.
  revert a. induction l as [|x l IHl]; intros a; simpl; [split; [lia|constructor]|].
  destruct (IHl (Z.min a x)) as [H1 H2]. split; [lia|].
  constructor; [lia|done].
Qed.

Lemma foldl_min_attained (a : Z) (l : list Z) :
  foldl Z.min a l = a \/ foldl Z.min a l ∈ l.
Proof.
  revert a. induction l as [|x l IHl]; intros a; simpl; [by left|].
  destruct (IHl (Z.min a x)) as [H|H].
  - rewrite H. destruct (Z.min_spec a x) as [[_ ->]|[_ ->]]; [by left|right; by left].
  - right. by right.
Qed.

Lemma least_timestamp_spec (store : list ReviveData) :
  (least_timestamp store = None <-> store = [])
  /\ (forall t,
        least_timestamp store = Some t ->
        (exists r, r ∈ store /\ timestamp r = t)
        /\ (forall r, r ∈ store -> (t <= timestamp r)%Z)).
Proof.
  destruct store as [|r0 rest]; simpl.
  - split; [done|]. intros t H. discriminate H.
  - split; [split; intros H; discriminate H|].
    intros t [= <-].
    destruct (foldl_min_le (timestamp r0) (timestamp <$> rest)) as [Hle Hall].
    split.
    + destruct (foldl_min_attained (timestamp r0) (timestamp <$> rest)) as [H|H].
      * exists r0. split; [by left|done].
      * apply list_elem_of_fmap in H as (r & Hr & Hin).
        exists r. split; [by right|done].
    + intros r Hr. apply elem_of_cons in Hr as [->|Hr]; [done|].
      rewrite Forall_forall in Hall. apply Hall.
      apply list_elem_of_fmap. by exists r.
Qed.

(** X9. [getOldestTimestamp] returns no timestamp exactly when the mode has
    no cached record; otherwise it returns the timestamp of a cached record
    that no cached record of the mode is older than. *)
Theorem getOldestTimestamp_least (m : Mode) (db : IDBDatabase) :
  ready db ->
  exists oldest all,
    read (getOldestTimestamp m db) = Some oldest
    /\ read (getAllRevives m db) = Some all
    /\ (oldest = None <-> all = [])
    /\ (forall t,
          oldest = Some t ->
          (exists r, r ∈ all /\ timestamp r = t)
          /\ (forall r, r ∈ all -> (t <= timestamp r)%Z)).
Proof.
  intros H. exists (least_timestamp (cached m db)), (cached m db).
  split.
  { unfold getOldestTimestamp. rewrite (initDB_ready db H). by destruct m. }
  split; [by rewrite (getAllRevives_ready m db H)|].
  apply least_timestamp_spec.
Qed.

Lemma getOldestTimestamp_least_witness :
  ready SampleWorld.database
  /\ exists oldest all,
       read (getOldestTimestamp user SampleWorld.database) = Some oldest
       /\ read (getAllRevives user SampleWorld.database) = Some all
       /\ (oldest = None <-> all = [])
       /\ (forall t,
             oldest = Some t ->
             (exists r, r ∈ all /\ timestamp r = t)
             /\ (forall r, r ∈ all -> (t <= timestamp r)%Z)).
Proof.
  split; [exact sample_database_ready|].
  exact (getOldestTimestamp_least user SampleWorld.database sample_database_ready).
Defined.

(** ** Saving pages *)

Lemma get_elem_of (k : Z) (r : ReviveData) (store : list ReviveData) :
  IDB.get k store = Some r -> r ∈ store /\ id r = k.
Proof.
  unfold IDB.get. intros H. apply find_some in H as [Hin Hk].
  split; [by apply list_elem_of_In|by apply Z.eqb_eq].
Qed.

Lemma get_of_elem_of (r : ReviveData) (store : list ReviveData) :
  sorted_by_id store -> r ∈ store -> IDB.get (id r) store = Some r.
Proof.
  unfold sorted_by_id, IDB.get.
  induction 1 as [|x rest Hs IHs Hx]; intros Hin; [by apply elem_of_nil in Hin|].
  simpl. apply elem_of_cons in Hin as [->|Hin]; [by rewrite Z.eqb_refl|].
  rewrite Forall_forall in Hx. specialize (Hx r Hin).
  destruct (Z.eqb_spec (id x) (id r)) as [Heq|Hne]; [lia|]. by apply IHs.
Qed.

Lemma last_with_id_elem_of (k : Z) (r : ReviveData) (page : list ReviveData) :
  last_with_id k page = Some r -> r ∈ page /\ id r = k.
Proof.
  unfold last_with_id. intros H. apply last_Some_elem_of, list_elem_of_In in H.
  apply filter_In in H as [Hin Hk].
  split; [by apply list_elem_of_In|by apply Z.eqb_eq].
Qed.

(** Two stores in key order that answer every [get] alike are the same. *)
Lemma sorted_by_id_ext (l1 l2 : list ReviveData) :
  sorted_by_id l1 -> sorted_by_id l2 ->
  (forall k, IDB.get k l1 = IDB.get k l2) -> l1 = l2.
Proof.
  intros H1. revert l2. induction H1 as [|x l1 Hs1 IH Hx]; intros l2 H2 Hget.
  - destruct l2 as [|y l2]; [done|].
    specialize (Hget (id y)). unfold IDB.get in Hget. simpl in Hget.
    rewrite Z.eqb_refl in Hget. discriminate Hget.
  - destruct l2 as [|y l2].
    { specialize (Hget (id x)). unfold IDB.get in Hget. simpl in Hget.
      rewrite Z.eqb_refl in Hget. discriminate Hget. }
    pose proof H2 as H2'. apply StronglySorted_inv in H2' as [Hs2 Hy].
    rewrite Forall_forall in Hx, Hy.
    assert (Hxy : x = y).
    { pose proof (Hget (id x)) as Gx. pose proof (Hget (id y)) as Gy.
      unfold IDB.get in Gx, Gy. simpl in Gx, Gy.
      rewrite Z.eqb_refl in Gx, Gy.
      destruct (Z.eqb_spec (id y) (id x)) as [Heq|Hne]; [congruence|].
      destruct (Z.eqb_spec (id x) (id y)) as [Heq'|_]; [congruence|].
      symmetry in Gx. apply (get_elem_of (id x) x l2) in Gx as [Gx _].
      apply (get_elem_of (id y) y l1) in Gy as [Gy _].
      specialize (Hx y Gy). specialize (Hy x Gx). lia. }
    subst y. f_equal. apply IH; [done|].
    intros k. destruct (decide (k = id x)) as [->|Hne].
    + destruct (IDB.get (id x) l1) as [r|] eqn:E1.
      { apply get_elem_of in E1 as [Hin Hid]. specialize (Hx r Hin). lia. }
      destruct (IDB.get (id x) l2) as [r|] eqn:E2; [|done].
      apply get_elem_of in E2 as [Hin Hid]. specialize (Hy r Hin). lia.
    + specialize (Hget k). unfold IDB.get in Hget |- *. simpl in Hget.
      destruct (Z.eqb_spec (id x) k) as [Heq|_]; [congruence|done].
Qed.

Lemma put_page_twice (store page : list ReviveData) :
  sorted_by_id store -> put_page (put_page store page) page = put_page store page.
Proof.
  intros Hs. apply sorted_by_id_ext.
  - by apply put_all_sorted, put_all_sorted.
  - by apply put_all_sorted.
  - intros k. unfold put_page. rewrite !get_put_all.
    by destruct (last_with_id k page).
Qed.

Lemma saveRevives_ready (page : list ReviveData) (m : Mode) (db : IDBDatabase) :
  ready db ->
  saveRevives page m db =
    Some (set_revives_store m (put_page (cached m db) page) (open_db db))
  /\ ready (set_revives_store m (put_page (cached m db) page) (open_db db)).
Proof.
  intros H. split.
  - unfold saveRevives. rewrite (initDB_ready db H). by destruct m.
  - pose proof (put_all_sorted page _ (cached_sorted m db (proj1 H))) as Hsorted.
    destruct (open_db_ready db H) as [[Hv Hu Hf Hc] Hp].
    destruct m; (split; [constructor|]; simpl; try done).
    + intros s Hs. injection Hs as Hs. by rewrite <- Hs.
    + intros s Hs. injection Hs as Hs. by rewrite <- Hs.
Qed.

Lemma open_db_opened (db : IDBDatabase) :
  ready db -> version db = IDB.DB_VERSION -> open_db db = db.
Proof.
  intros H Hv. pose proof (initDB_ready db H) as H1.
  rewrite (initDB_opened db Hv) in H1. by injection H1.
Qed.

(** X10. Merging is idempotent: saving a page that was just saved leaves
    the database exactly as it is, and so does saving an empty page into an
    open database. *)
Theorem saveRevives_idempotent (page : list ReviveData) (m : Mode) (db : IDBDatabase) :
  ready db ->
  exists db',
    saveRevives page m db = Some db'
    /\ saveRevives page m db' = Some db'
    /\ saveRevives [] m db' = Some db'
    /\ (forall m', m' <> m -> read (getAllRevives m' db') = read (getAllRevives m' db)).
Proof.
  intros H. destruct (saveRevives_ready page m db H) as [Hsave H'].
  eexists. split; [exact Hsave|].
  set (db' := set_revives_store m (put_page (cached m db) page) (open_db db)) in *.
  assert (Hv : version db' = IDB.DB_VERSION) by (by destruct m).
  assert (Hc : cached m db' = put_page (cached m db) page) by (by destruct m).
  destruct (saveRevives_ready page m db' H') as [Hsave2 _].
  destruct (saveRevives_ready [] m db' H') as [Hsave0 _].
  rewrite Hsave2, Hsave0, (open_db_opened db' H' Hv), Hc.
  rewrite (put_page_twice _ _ (cached_sorted m db (proj1 H))).
  split; [by destruct m|]. split; [by destruct m|].
  intros m' Hne. rewrite (getAllRevives_ready m' _ H'), (getAllRevives_ready m' _ H).
  by destruct m, m'.
Qed.

Lemma saveRevives_idempotent_witness :
  ready SampleWorld.database
  /\ exists db',
       saveRevives Sample.second_page user SampleWorld.database = Some db'
       /\ saveRevives Sample.second_page user db' = Some db'
       /\ saveRevives [] user db' = Some db'
       /\ (forall m', m' <> user ->
             read (getAllRevives m' db') = read (getAllRevives m' SampleWorld.database)).
Proof.
  split; [exact sample_database_ready|].
  exact (saveRevives_idempotent Sample.second_page user SampleWorld.database
           sample_database_ready).
Defined.

Lemma least_timestamp_le (store : list ReviveData) (r : ReviveData) :
  r ∈ store -> exists t, least_timestamp store = Some t /\ (t <= timestamp r)%Z.
Proof.
  intros Hr. destruct (least_timestamp store) as [t|] eqn:E.
  - exists t. split; [done|].
    by apply (proj2 (least_timestamp_spec store) t E).
  - apply (proj1 (least_timestamp_spec store)) in E. subst store.
    by apply elem_of_nil in Hr.
Qed.

Lemma getOldestTimestamp_ready (m : Mode) (db : IDBDatabase) :
  ready db -> read (getOldestTimestamp m db) = Some (least_timestamp (cached m db)).
Proof.
  intros H. unfold getOldestTimestamp. rewrite (initDB_ready db H). by destruct m.
Qed.

(** X11. When the records of a page carry the timestamps under which their
    ids are already cached, saving the page does not raise the oldest
    timestamp of the mode, and the new oldest timestamp is not above that
    of any record the page leaves in the store. *)
Theorem saveRevives_floor (page : list ReviveData) (m : Mode) (db : IDBDatabase) :
  ready db ->
  (forall r r', r ∈ page -> r' ∈ cached m db -> id r = id r' ->
                timestamp r = timestamp r') ->
  exists db',
    saveRevives page m db = Some db'
    /\ (forall t,
          read (getOldestTimestamp m db) = Some (Some t) ->
          exists t', read (getOldestTimestamp m db') = Some (Some t') /\ (t' <= t)%Z)
    /\ (forall r,
          last_with_id (id r) page = Some r ->
          exists t', read (getOldestTimestamp m db') = Some (Some t')
                     /\ (t' <= timestamp r)%Z).
Proof.
  intros H Hsame. destruct (saveRevives_ready page m db H) as [Hsave H'].
  eexists. split; [exact Hsave|].
  rewrite (getOldestTimestamp_ready m _ H'), (getOldestTimestamp_ready m _ H).
  assert (Hc : cached m (set_revives_store m (put_page (cached m db) page) (open_db db))
               = put_page (cached m db) page) by (by destruct m).
  rewrite Hc.
  pose proof (cached_sorted m db (proj1 H)) as Hsorted.
  split.
  - intros t [= Ht].
    destruct (proj2 (least_timestamp_spec _) t Ht) as [(rmin & Hin & Hts) _].
    assert (Hex : exists r, r ∈ put_page (cached m db) page /\ timestamp r = t).
    { pose proof (get_put_all (id rmin) page (cached m db)) as Hget.
      fold (put_page (cached m db) page) in Hget.
      destruct (last_with_id (id rmin) page) as [r|] eqn:E.
      - apply get_elem_of in Hget as [Hr _]. exists r. split; [done|].
        apply last_with_id_elem_of in E as [Hp Hid].
        rewrite <- Hts. by apply Hsame.
      - rewrite (get_of_elem_of rmin _ Hsorted Hin) in Hget.
        apply get_elem_of in Hget as [Hr _]. by exists rmin. }
    destruct Hex as (r & Hr & <-).
    destruct (least_timestamp_le _ r Hr) as (t' & Ht' & Hle).
    exists t'. by rewrite Ht'.
  - intros r Hlast.
    pose proof (get_put_all (id r) page (cached m db)) as Hget.
    fold (put_page (cached m db) page) in Hget. rewrite Hlast in Hget.
    apply get_elem_of in Hget as [Hr _].
    destruct (least_timestamp_le _ r Hr) as (t' & Ht' & Hle).
    exists t'. by rewrite Ht'.
Qed.

Lemma saveRevives_floor_witness :
  ready SampleWorld.database
  /\ (forall r r', r ∈ Sample.first_page -> r' ∈ cached user SampleWorld.database ->
                   id r = id r' -> timestamp r = timestamp r')
  /\ exists db',
       saveRevives Sample.first_page user SampleWorld.database = Some db'
       /\ (forall t,
             read (getOldestTimestamp user SampleWorld.database) = Some (Some t) ->
             exists t', read (getOldestTimestamp user db') = Some (Some t')
                        /\ (t' <= t)%Z)
       /\ (forall r,
             last_with_id (id r) Sample.first_page = Some r ->
             exists t', read (getOldestTimestamp user db') = Some (Some t')
                        /\ (t' <= timestamp r)%Z).
Proof.
  split; [exact sample_database_ready|].
  assert (Hsame : forall r r', r ∈ Sample.first_page ->
                    r' ∈ cached user SampleWorld.database ->
                    id r = id r' -> timestamp r = timestamp r').
  { intros r r' Hr Hr'. simpl in Hr'. unfold Sample.first_page in Hr, Hr'.
    apply elem_of_cons in Hr as [->|Hr];
      [|apply elem_of_cons in Hr as [->|Hr]; [|by apply elem_of_nil in Hr]];
      (apply elem_of_cons in Hr' as [->|Hr'];
       [|apply elem_of_cons in Hr' as [->|Hr']; [|by apply elem_of_nil in Hr']]);
      simpl; intros Hid; first [reflexivity|discriminate Hid]. }
  split; [exact Hsame|].
  exact (saveRevives_floor Sample.first_page user SampleWorld.database
           sample_database_ready Hsame).
Defined.

(** Without that agreement the oldest timestamp can go up: the second page
    carries id 2 at time 250, cached at time 200. *)
Example saveRevives_floor_can_rise :
  read (getOldestTimestamp user
          {| version := IDB.DB_VERSION; settings := Some empty_settings;
             userRevives := Some [Sample.revive_of 2 200 40 "Bob" None];
             factionRevives := Some []; legacyRevives := None;
             paymentStatus := Some ∅ |}) = Some (Some 200%Z)
  /\ (saveRevives Sample.second_page user
        {| version := IDB.DB_VERSION; settings := Some empty_settings;
           userRevives := Some [Sample.revive_of 2 200 40 "Bob" None];
           factionRevives := Some []; legacyRevives := None;
           paymentStatus := Some ∅ |}
      ≫= fun db' => read (getOldestTimestamp user db')) = Some (Some 250%Z).
Proof. split; reflexivity. Qed.

(** ** A fetch that succeeds *)

Lemma try_bind_write {B} (f : IDBDatabase -> option IDBDatabase)
    (k : unit -> Try.M B) (w : World) (db' : IDBDatabase) :
  f (db w) = Some db' ->
  (Try.write f ≫= k) w =
  k tt {| dash := dash w; db := db'; loggedOut := loggedOut w; toasts := toasts w |}.
Proof. intros H. unfold mbind, try_bind, Try.bind, Try.write. by rewrite H. Qed.

Lemma try_bind_when {B} (b : bool) (g : Dashboard -> Dashboard)
    (k : unit -> Try.M B) (w : World) :
  (Try.when b (Try.update g) ≫= k) w =
  k tt {| dash := if b then g (dash w) else dash w; db := db w;
          loggedOut := loggedOut w; toasts := toasts w |}.
Proof. destruct b; [reflexivity|]. by destruct w. Qed.

Lemma raw_of_enrichRevives (revives : list ReviveData) (uid : Z) :
  raw_of <$> enrichRevives revives uid = revives.
Proof.
  rewrite enrichRevives_unfold. cbn zeta.
  rewrite (gain_loop_preserves raw_of) by done.
  rewrite <- list_fmap_compose.
  rewrite <- (list_fmap_id revives) at 2.
  apply list_fmap_ext. intros _ r _. apply raw_of_enrich_one.
Qed.





(** X13. When the page fetched is empty (or the body has no [revives]), the
    database and the records shown stay as they are and no error is set;
    a backfill then marks the data as exhausted ([hasMoreData] false) and
    shows the toast "No more data", a refresh leaves [hasMoreData] alone and
    shows no toast. *)
Theorem fetchRevives_empty_page (fetch : Request -> Response) (closure : Dashboard)
    (backfill : bool) (w : World) (req : Request) (data : option (list ReviveData)) :
  version (db w) = IDB.DB_VERSION ->
  request_for backfill (db w) = Some req ->
  fetch req = Body data -> default [] data = [] ->
  let w' := fetchRevives fetch closure backfill w in
  db w' = db w
  /\ revives (dash w') = revives (dash w)
  /\ error (dash w') = ""
  /\ isLoading (dash w') = false
  /\ isFetching (dash w') = false
  /\ isLoadingMore (dash w') = false
  /\ hasMoreData (dash w') = (if backfill then false else hasMoreData (dash w))
  /\ userReviveId (dash w') = userReviveId (dash w)
  /\ loggedOut w' = loggedOut w
  /\ toasts w' = (if backfill then toasts w ++ ["No more data"] else toasts w)%list.
Proof.
  intros Hv Hreq Hfetch Hempty. cbn zeta.
  destruct (request_for_open backfill (db w) req Hv Hreq)
    as (key & m & oldest & Hkey & Hmode & Hold & ->).
  assert (Hrun :
    fetchRevives fetch closure backfill w =
    {| dash :=
         set_isLoadingMore false (set_isFetching false (set_isLoading false
           ((if backfill then set_hasMoreData false else fun d => d)
              (set_mode m
                 (set_error ""
                    ((if backfill then set_isLoadingMore true else set_isFetching true)
                       (dash w)))))));
       db := db w; loggedOut := loggedOut w;
       toasts := (if backfill then toasts w ++ ["No more data"] else toasts w)%list |}).
  { unfold fetchRevives.
    rewrite !try_bind_update. unfold Try.update at 1. cbn iota beta.
    unfold fetch_body.
    rewrite (try_bind_read getApiKey _ _ (Some key) (db w)) by exact Hkey.
    rewrite (try_bind_read getApiMode _ _ m (db w)) by exact Hmode.
    rewrite try_bind_update. cbn [dash db loggedOut toasts].
    destruct backfill.
    - rewrite (try_bind_read (getOldestTimestamp m) _ _ oldest (db w)) by exact Hold.
      cbn [dash db loggedOut toasts].
      rewrite Hfetch, Hempty. reflexivity.
    - rewrite try_bind_ret. subst oldest.
      rewrite Hfetch, Hempty. reflexivity. }
  rewrite Hrun. cbn [dash db loggedOut toasts].
  repeat split; by destruct backfill.
Qed.

Lemma fetchRevives_empty_page_witness :
  version (db SampleWorld.world) = IDB.DB_VERSION
  /\ request_for true (db SampleWorld.world) =
     Some {| req_mode := user; req_to := Some 100%Z; req_key := "key" |}
  /\ (let w' := fetchRevives (fun _ => Body None) (dash SampleWorld.world) true
                  SampleWorld.world in
      db w' = db SampleWorld.world
      /\ revives (dash w') = revives (dash SampleWorld.world)
      /\ error (dash w') = ""
      /\ isLoading (dash w') = false
      /\ isFetching (dash w') = false
      /\ isLoadingMore (dash w') = false
      /\ hasMoreData (dash w') = false
      /\ userReviveId (dash w') = userReviveId (dash SampleWorld.world)
      /\ loggedOut w' = loggedOut SampleWorld.world
      /\ toasts w' = (toasts SampleWorld.world ++ ["No more data"])%list).
Proof.
  assert (H2 : request_for true (db SampleWorld.world) =
               Some {| req_mode := user; req_to := Some 100%Z; req_key := "key" |})
    by reflexivity.
  split; [reflexivity|]. split; [exact H2|].
  exact (fetchRevives_empty_page (fun _ => Body None) (dash SampleWorld.world) true
           SampleWorld.world _ None eq_refl H2 eq_refl eq_refl).
Defined.

(** X14. When no key is saved (or the saved key is empty), [fetchRevives]
    calls [onLogout] and sends no request: whatever the data source would
    answer, the outcome is the same, with no error, the database, the
    records shown and [hasMoreData] as they were, and the loading flags
    down. *)
Theorem fetchRevives_no_key (fetch : Request -> Response) (closure : Dashboard)
    (backfill : bool) (w : World) :
  version (db w) = IDB.DB_VERSION ->
  read (getApiKey (db w)) = Some None ->
  let w' := fetchRevives fetch closure backfill w in
  loggedOut w' = true
  /\ (forall fetch', fetchRevives fetch' closure backfill w = w')
  /\ db w' = db w
  /\ error (dash w') = ""
  /\ isLoading (dash w') = false
  /\ isFetching (dash w') = false
  /\ isLoadingMore (dash w') = false
  /\ hasMoreData (dash w') = hasMoreData (dash w)
  /\ revives (dash w') = revives (dash w)
  /\ mode (dash w') = mode (dash w)
  /\ toasts w' = toasts w.
Proof.
  intros Hv Hkey. cbn zeta.
  assert (Hkey' : getApiKey (db w) = Some (None, db w)).
  { unfold getApiKey in *. rewrite read_settings_open in * by done.
    destruct (settings (db w)) as [s|]; [|discriminate Hkey].
    simpl in *. by injection Hkey as ->. }
  assert (Hrun : forall f,
    fetchRevives f closure backfill w =
    {| dash :=
         set_isLoadingMore false (set_isFetching false (set_isLoading false
           (set_error ""
              ((if backfill then set_isLoadingMore true else set_isFetching true)
                 (dash w)))));
       db := db w; loggedOut := true; toasts := toasts w |}).
  { intros f. unfold fetchRevives.
    rewrite !try_bind_update. unfold Try.update at 1. cbn iota beta.
    unfold fetch_body.
    rewrite (try_bind_read getApiKey _ _ None (db w)) by exact Hkey'.
    reflexivity. }
  rewrite Hrun. cbn [dash db loggedOut toasts].
  split; [done|]. split; [intros fetch'; apply Hrun|].
  repeat split; by destruct backfill.
Qed.

Lemma fetchRevives_no_key_witness :
  version (open_db no_database) = IDB.DB_VERSION
  /\ read (getApiKey (open_db no_database)) = Some None
  /\ loggedOut
       (fetchRevives SampleWorld.unauthorized initial_dashboard false
          {| dash := initial_dashboard; db := open_db no_database;
             loggedOut := false; toasts := [] |}) = true.
Proof.
  split; [reflexivity|]. split; [reflexivity|].
  exact (proj1 (fetchRevives_no_key SampleWorld.unauthorized initial_dashboard false
                  {| dash := initial_dashboard; db := open_db no_database;
                     loggedOut := false; toasts := [] |} eq_refl eq_refl)).
Defined.

(** ** Loading from the cache, logging out *)


Lemma clearAllData_ready (db : IDBDatabase) :
  ready db ->
  exists db',
    clearAllData db = Some db' /\ ready db'
    /\ settings db' = Some empty_settings /\ (forall m, cached m db' = []).
Proof.
  intros H. unfold clearAllData. rewrite (initDB_ready db H). simpl.
  eexists. split; [reflexivity|].
  split; [|split; [done|intros m; by destruct m]].
  destruct (open_db_ready db H) as [[Hv Hu Hf Hc] Hp].
  split; [constructor|]; simpl; try done.
  - intros s [= <-]. constructor.
  - intros s [= <-]. constructor.
Qed.

(** X16. [handleLogout] removes the key, shows its toast and calls
    [onLogout], and keeps the cached records; [handleClearAllData] does the
    same and leaves no cached record.  When the database cannot be opened
    neither handler does anything: nobody is logged out. *)
Theorem logout_handlers (w : World) :
  (initDB (db w) = None -> handleLogout w = w /\ handleClearAllData w = w)
  /\ (ready (db w) ->
      loggedOut (handleLogout w) = true
      /\ toasts (handleLogout w) = (toasts w ++ ["Logged out"])%list
      /\ read (getApiKey (db (handleLogout w))) = Some None
      /\ (forall m, read (getAllRevives m (db (handleLogout w)))
                    = read (getAllRevives m (db w)))
      /\ dash (handleLogout w) = dash w
      /\ loggedOut (handleClearAllData w) = true
      /\ toasts (handleClearAllData w) = (toasts w ++ ["All data cleared"])%list
      /\ read (getApiKey (db (handleClearAllData w))) = Some None
      /\ (forall m, read (getAllRevives m (db (handleClearAllData w))) = Some [])
      /\ dash (handleClearAllData w) = dash w).
Proof.
  split.
  - intros Hfail. unfold handleLogout, handleClearAllData. cbn zeta.
    unfold mbind, try_bind, Try.bind, Try.write.
    unfold clearApiKey, with_settings, clearAllData. rewrite Hfail. by split.
  - intros Hready.
    set (s1 := {| apiKey := None;
                  apiMode := apiMode (default empty_settings (settings (db w)));
                  excludedFilters :=
                    excludedFilters (default empty_settings (settings (db w))) |}).
    pose proof (with_settings_ready
                  (fun s => {| apiKey := None; apiMode := apiMode s;
                               excludedFilters := excludedFilters s |})
                  (db w) Hready) as Hc1.
    fold (clearApiKey (db w)) in Hc1. cbv beta in Hc1. fold s1 in Hc1.
    pose proof (set_settings_ready s1 (db w) Hready) as Hr1.
    set (db1 := IDB.set_settings (Some s1) (open_db (db w))) in *.
    destruct (clearAllData_ready (db w) Hready) as (db2 & Hc2 & Hr2 & Hs2 & Hcached2).
    unfold handleLogout, handleClearAllData. cbn zeta.
    rewrite (try_bind_write clearApiKey _ _ db1) by exact Hc1.
    rewrite (try_bind_write clearAllData _ _ db2) by exact Hc2.
    unfold mbind, try_bind, Try.bind, Try.toast, Try.onLogout.
    cbn [dash db loggedOut toasts snd]. unfold getApiKey.
    rewrite (read_settings_ready _ _ Hr1), (read_settings_ready _ _ Hr2), Hs2.
    split; [done|]. split; [done|]. split; [done|]. split.
    { intros m. rewrite (getAllRevives_ready m _ Hr1), (getAllRevives_ready m _ Hready).
      by destruct m. }
    split; [done|]. split; [done|]. split; [done|]. split; [done|]. split; [|done].
    intros m. by rewrite (getAllRevives_ready m _ Hr2), Hcached2.
Qed.

(** ** The sorted view *)

Lemma filter_if {A} (c : bool) (f : A -> bool) (l : list A) :
  (if c then List.filter f l else l) = List.filter (fun x => if c then f x else true) l.
Proof.
  destruct c; [done|]. induction l as [|x l IH]; simpl; congruence.
Qed.

Lemma filter_opt {A B} (o : option B) (f : B -> A -> bool) (l : list A) :
  match o with Some b => List.filter (f b) l | None => l end
  = List.filter (fun x => match o with Some b => f b x | None => true end) l.
Proof.
  destruct o; [done|]. induction l as [|x l IH]; simpl; congruence.
Qed.

Lemma filter_filter_andb {A} (f g : A -> bool) (l : list A) :
  List.filter g (List.filter f l) = List.filter (fun x => f x && g x) l.
Proof.
  induction l as [|x l IH]; simpl; [done|].
  destruct (f x); simpl; [|done]. destruct (g x); congruence.
Qed.

Lemma filtered_revives_filter (t : Table) (revives : list EnrichedRevive) :
  filtered_revives t revives = List.filter (passes t) revives.
Proof.
  unfold filtered_revives. cbn zeta.
  rewrite (filter_opt (to (dateRange t))
             (fun d r => (e_timestamp r <=? d / 1000 + 86399)%Z)).
  rewrite (filter_opt (from (dateRange t))
             (fun d r => (d / 1000 <=? e_timestamp r)%Z)).
  rewrite !filter_if.
  rewrite (filter_opt (categoryFilter t) (fun c r => category_eqb (Category r) c)).
  rewrite !filter_filter_andb.
  apply List.filter_ext. intros r. unfold passes. by rewrite !andb_assoc.
Qed.

Lemma compare_revives_in_order (t : Table) (a b : EnrichedRevive) :
  Qle_bool (compare_revives t a b) 0 = true
  <-> in_order (sortField t) (sortDirection t) a b.
Proof.
  rewrite Qle_bool_iff. unfold compare_revives, in_order, sort_key. cbn zeta.
  assert (Hsub : forall x y : Q, (JSNum.sub x y == x - y)%Q)
    by (intros; apply Qred_correct).
  assert (Hz : forall x y : Z, (JSNum.of_Z (x - y) == JSNum.of_Z x - JSNum.of_Z y)%Q).
  { intros x y. unfold JSNum.of_Z. unfold Z.sub.
    by rewrite inject_Z_plus, inject_Z_opp. }
  destruct (sortField t), (sortDirection t); rewrite ?Hsub, ?Hz;
    split; intros H; lra.
Qed.

Section SortOrder.
Context {A : Type} (compareFn : A -> A -> Q) (R : A -> A -> Prop).
Hypothesis compareFn_spec : forall x y, Qle_bool (compareFn x y) 0 = true <-> R x y.
Hypothesis R_total : forall x y, R x y \/ R y x.
Hypothesis R_trans : forall x y z, R x y -> R y z -> R x z.

Lemma sort_insert_sorted (x : A) (l : list A) :
  StronglySorted R l -> StronglySorted R (JSNum.sort_insert compareFn x l).
Proof.
  induction l as [|y l IH]; intros Hs; simpl.
  - repeat constructor.
  - apply StronglySorted_inv in Hs as [Hs Hy].
    destruct (Qle_bool (compareFn x y) 0) eqn:Hc.
    + apply compareFn_spec in Hc.
      constructor; [by constructor|].
      constructor; [exact Hc|].
      eapply Forall_impl; [exact Hy|]. intros z Hz. by apply (R_trans x y z).
    + constructor; [by apply IH|].
      rewrite sort_insert_perm. constructor; [|done].
      destruct (R_total x y) as [H|H]; [|exact H].
      apply compareFn_spec in H. congruence.
Qed.

Lemma sort_sorted (l : list A) : StronglySorted R (JSNum.sort compareFn l).
Proof.
  induction l as [|x l IH]; simpl; [constructor|]. by apply sort_insert_sorted.
Qed.

End SortOrder.

Section SortedView.
Variable t : Table.

Let R := in_order (sortField t) (sortDirection t).
Let cmp := compare_revives t.

Lemma in_order_total (a b : EnrichedRevive) : R a b \/ R b a.
Proof.
  unfold R, in_order.
  destruct (sortDirection t);
    destruct (Qlt_le_dec (sort_key (sortField t) a) (sort_key (sortField t) b)) as [H|H];
    auto using Qlt_le_weak.
Qed.

Lemma in_order_trans (a b c : EnrichedRevive) : R a b -> R b c -> R a c.
Proof.
  unfold R, in_order. destruct (sortDirection t); intros H1 H2; lra.
Qed.

Lemma sort_in_order (l : list EnrichedRevive) : StronglySorted R (JSNum.sort cmp l).
Proof.
  apply sort_sorted.
  - apply compare_revives_in_order.
  - apply in_order_total.
  - apply in_order_trans.
Qed.

Lemma with_key_sort_insert (k : Q) (x : EnrichedRevive) (l : list EnrichedRevive) :
  with_key (sortField t) k (JSNum.sort_insert cmp x l)
  = with_key (sortField t) k (x :: l).
Proof.
  unfold with_key.
  induction l as [|y l IH]; simpl; [done|].
  destruct (Qle_bool (cmp x y) 0) eqn:Hc; [done|].
  simpl. simpl in IH. rewrite IH.
  destruct (Qeq_bool (sort_key (sortField t) x) k) eqn:Hx; [|done].
  destruct (Qeq_bool (sort_key (sortField t) y) k) eqn:Hy; [|done].
  exfalso. apply Qeq_bool_iff in Hx, Hy.
  assert (H : R x y).
  { unfold R, in_order. destruct (sortDirection t); lra. }
  apply compare_revives_in_order in H. unfold cmp in Hc. congruence.
Qed.

Lemma with_key_sort (k : Q) (l : list EnrichedRevive) :
  with_key (sortField t) k (JSNum.sort cmp l) = with_key (sortField t) k l.
Proof.
  induction l as [|x l IH]; simpl; [done|].
  rewrite with_key_sort_insert. unfold with_key in *. simpl. by rewrite IH.
Qed.

End SortedView.

(** X17. The view holds the records that pass the filters, each as often
    as it is given, in the order of the chosen sort field and direction;
    records with the same sort value stay in the order in which they were
    given. *)
Theorem view_sorted (t : Table) (revives : list EnrichedRevive) :
  filteredAndSortedRevives t revives ≡ₚ List.filter (passes t) revives
  /\ StronglySorted (in_order (sortField t) (sortDirection t))
       (filteredAndSortedRevives t revives)
  /\ forall k,
       with_key (sortField t) k (filteredAndSortedRevives t revives)
       = with_key (sortField t) k (List.filter (passes t) revives).
Proof.
  unfold filteredAndSortedRevives. rewrite filtered_revives_filter.
  split; [apply sort_perm|]. split; [apply sort_in_order|].
  intros k. apply with_key_sort.
Qed.

(** X18. A click on a column header never changes which records are
    shown, nor the page, the page size or any filter: it selects the
    clicked field, in descending order when the field is new and in the
    opposite direction when it is the current one, and the view is then in
    that order.  Three clicks on one header give what one click gives. *)
Theorem handleSort_view (field : SortField) (t : Table) (revives : list EnrichedRevive) :
  filteredAndSortedRevives (handleSort field t) revives
    ≡ₚ filteredAndSortedRevives t revives
  /\ sortField (handleSort field t) = field
  /\ (sortField t = field -> sortDirection (handleSort field t) = flipped (sortDirection t))
  /\ (sortField t <> field -> sortDirection (handleSort field t) = desc)
  /\ StronglySorted (in_order field (sortDirection (handleSort field t)))
       (filteredAndSortedRevives (handleSort field t) revives)
  /\ currentPage (handleSort field t) = currentPage t
  /\ pageSize (handleSort field t) = pageSize t
  /\ (forall r, passes (handleSort field t) r = passes t r)
  /\ handleSort field (handleSort field (handleSort field t)) = handleSort field t.
Proof.
  assert (Hpasses : forall r, passes (handleSort field t) r = passes t r).
  { intros r. unfold handleSort. by destruct (sortField t), field. }
  assert (Hfield : sortField (handleSort field t) = field).
  { unfold handleSort. by destruct (sortField t), field. }
  split.
  { unfold filteredAndSortedRevives. rewrite !sort_perm, !filtered_revives_filter.
    by rewrite (List.filter_ext _ _ Hpasses). }
  split; [exact Hfield|].
  split.
  { intros <-. unfold handleSort. by destruct (sortField t). }
  split.
  { intros Hne. unfold handleSort. destruct (sortField t), field; try done. }
  split.
  { pose proof (sort_in_order (handleSort field t)
                  (filtered_revives (handleSort field t) revives)) as H.
    by rewrite Hfield in H. }
  split; [unfold handleSort; by destruct (sortField t), field|].
  split; [unfold handleSort; by destruct (sortField t), field|].
  split; [exact Hpasses|].
  unfold handleSort. destruct t as [f d ? ? ? ? ? ? ? ? ? ?]. simpl.
  by destruct f, field, d.
Qed.

(** ** The pages of the view *)

Lemma Qred_of_Z (q : Q) (z : Z) : (q == JSNum.of_Z z)%Q -> Qred q = JSNum.of_Z z.
Proof.
  intros H. rewrite (Qred_complete _ _ H). apply inject_Z_Qred.
Qed.

Lemma to_integer_of_Z (z : Z) : JSArray.to_integer (JSNum.of_Z z) = z.
Proof. unfold JSArray.to_integer, JSNum.of_Z, inject_Z. simpl. apply Z.quot_1_r. Qed.

Lemma slice_of_Z {A} (a b : Z) (l : list A) :
  (0 <= a <= b)%Z ->
  JSArray.slice (JSNum.of_Z a) (JSNum.of_Z b) l
  = take (Z.to_nat (b - a)) (drop (Z.to_nat a) l).
Proof.
  intros Hab. unfold JSArray.slice, JSArray.relative_index. cbn zeta.
  rewrite !to_integer_of_Z.
  destruct (Z.ltb_spec a 0) as [?|_]; [lia|].
  destruct (Z.ltb_spec b 0) as [?|_]; [lia|].
  destruct (Z_le_gt_dec (Z.of_nat (length l)) a) as [Hlen|Hlen].
  - rewrite (drop_ge l (Z.to_nat a)) by lia.
    rewrite (drop_ge l (Z.to_nat (Z.min a _))) by lia.
    by rewrite !take_nil.
  - rewrite (Z.min_l a) by lia.
    destruct (Z_le_gt_dec b (Z.of_nat (length l))) as [Hb|Hb].
    + rewrite (Z.min_l b) by lia. by rewrite Z.max_l by lia.
    + rewrite (Z.min_r b) by lia. rewrite Z.max_l by lia.
      rewrite !take_ge; [done| |]; rewrite length_drop; lia.
Qed.

Lemma concat_chunks {A} (size n : nat) (l : list A) :
  (0 < size)%nat -> (length l <= n * size)%nat ->
  concat ((fun i => take size (drop (i * size) l)) <$> seq 0 n) = l.
Proof.
  intros Hsize. revert l. induction n as [|n IH]; intros l Hlen.
  - simpl in *. destruct l; [done|simpl in Hlen; lia].
  - rewrite <- cons_seq, <- fmap_S_seq, fmap_cons, <- list_fmap_compose.
    simpl. rewrite drop_0.
    rewrite <- (take_drop size l) at 2. f_equal.
    etrans; [|apply (IH (drop size l)); rewrite length_drop; lia].
    f_equal. apply list_fmap_ext. intros _ i _. simpl.
    rewrite drop_drop. f_equal.
Qed.

Lemma paginatedRevives_on_page (p : Z) (t : Table) (revives : list EnrichedRevive) :
  (0 < pageSize t)%Z -> (1 <= p)%Z ->
  paginatedRevives (on_page p t) revives
  = take (Z.to_nat (pageSize t))
      (drop (Z.to_nat ((p - 1) * pageSize t)) (filteredAndSortedRevives t revives)).
Proof.
  intros Hsize Hp. unfold paginatedRevives. cbn zeta.
  change (pageSize (on_page p t)) with (pageSize t).
  change (currentPage (on_page p t)) with (JSNum.of_Z p).
  change (filteredAndSortedRevives (on_page p t) revives)
    with (filteredAndSortedRevives t revives).
  assert (Hstart : JSNum.mul (JSNum.sub (JSNum.of_Z p) 1) (JSNum.of_Z (pageSize t))
                   = JSNum.of_Z ((p - 1) * pageSize t)).
  { unfold JSNum.mul, JSNum.sub. apply Qred_of_Z.
    rewrite Qred_correct. unfold JSNum.of_Z.
    rewrite inject_Z_mult. unfold Z.sub. rewrite inject_Z_plus, inject_Z_opp.
    reflexivity. }
  rewrite Hstart.
  assert (Hend : Qred (JSNum.of_Z ((p - 1) * pageSize t) + JSNum.of_Z (pageSize t))
                 = JSNum.of_Z (p * pageSize t)).
  { apply Qred_of_Z. unfold JSNum.of_Z. rewrite <- inject_Z_plus.
    f_equiv. lia. }
  rewrite Hend, slice_of_Z by nia.
  do 2 f_equal. lia.
Qed.

(** X19. With a positive page size the pages [1 .. totalPages] cut the
    view into consecutive runs of [pageSize] records: page [p] holds the
    records from index [(p - 1) * pageSize] on, every page up to
    [totalPages] holds at least one record and every page before the last
    holds exactly [pageSize], a page beyond [totalPages] is empty, and the
    pages taken together are the view, in its order. *)
Theorem pages_partition (t : Table) (revives : list EnrichedRevive) :
  (0 < pageSize t)%Z ->
  (forall p, (1 <= p)%Z ->
     paginatedRevives (on_page p t) revives
     = take (Z.to_nat (pageSize t))
         (drop (Z.to_nat ((p - 1) * pageSize t)) (filteredAndSortedRevives t revives)))
  /\ (forall p, (1 <= p <= totalPages t revives)%Z ->
        (0 < length (paginatedRevives (on_page p t) revives))%nat
        /\ (Z.of_nat (length (paginatedRevives (on_page p t) revives)) <= pageSize t)%Z
        /\ ((p < totalPages t revives)%Z ->
            Z.of_nat (length (paginatedRevives (on_page p t) revives)) = pageSize t))
  /\ (forall p, (totalPages t revives < p)%Z ->
        paginatedRevives (on_page p t) revives = [])
  /\ concat ((fun i => paginatedRevives (on_page (Z.of_nat i) t) revives)
               <$> seq 1 (Z.to_nat (totalPages t revives)))
     = filteredAndSortedRevives t revives.
Proof.
  intros Hsize.
  pose proof (total_pages_of_ceil (length (filteredAndSortedRevives t revives))
                (pageSize t) Hsize) as Hceil.
  change (total_pages_of _ _) with (totalPages t revives) in Hceil.
  set (v := filteredAndSortedRevives t revives) in *.
  set (n := totalPages t revives) in *.
  set (size := pageSize t) in *.
  split; [intros p Hp; by apply paginatedRevives_on_page|].
  split.
  { intros p Hp.
    rewrite paginatedRevives_on_page by (done || lia).
    fold v size. rewrite length_take, length_drop.
    split; [|split]; [nia|lia|intros Hlt; nia]. }
  split.
  { intros p Hp.
    assert (0 <= n)%Z by nia.
    rewrite paginatedRevives_on_page by (done || lia).
    fold v size. rewrite drop_ge; [by rewrite take_nil|]. nia. }
  assert (Hn : (0 <= n)%Z) by nia.
  rewrite <- fmap_S_seq, <- list_fmap_compose.
  etrans; [|apply (concat_chunks (Z.to_nat size) (Z.to_nat n) v); nia].
  f_equal. apply list_fmap_ext. intros _ i _. simpl.
  rewrite paginatedRevives_on_page by (done || lia).
  fold v size. do 2 f_equal. lia.
Qed.

Lemma pages_partition_witness :
  (0 < pageSize initial_table)%Z
  /\ concat ((fun i => paginatedRevives (on_page (Z.of_nat i) initial_table)
                         Sample.one_record)
               <$> seq 1 (Z.to_nat (totalPages initial_table Sample.one_record)))
     = filteredAndSortedRevives initial_table Sample.one_record.
Proof.
  assert (H : (0 < pageSize initial_table)%Z) by (simpl; lia).
  split; [exact H|].
  exact (proj2 (proj2 (proj2 (pages_partition initial_table Sample.one_record H)))).
Defined.

(** ** The names offered for exclusion *)

Lemma set_add_spec (x : string) (s : list string) :
  NoDup s -> NoDup (set_add x s) /\ forall y, y ∈ set_add x s <-> y ∈ s \/ y = x.
Proof.
  intros Hnd. unfold set_add. case_bool_decide as Hx.
  - split; [done|]. intros y. split; [auto|]. intros [?| ->]; done.
  - split.
    + apply NoDup_app. split; [done|]. split; [|apply NoDup_singleton].
      intros y Hy Hy'. apply list_elem_of_singleton in Hy'. by subst.
    + intros y. by rewrite elem_of_app, list_elem_of_singleton.
Qed.

Section Collect.
Variable name_of : EnrichedRevive -> option string.
Variable step : list string -> EnrichedRevive -> list string.
Hypothesis step_spec : forall acc r,
  step acc r = match name_of r with Some x => set_add x acc | None => acc end.

Lemma collect_spec (revives : list EnrichedRevive) (acc : list string) :
  NoDup acc ->
  NoDup (foldl step acc revives)
  /\ forall x, x ∈ foldl step acc revives
               <-> x ∈ acc \/ exists r, r ∈ revives /\ name_of r = Some x.
Proof.
  revert acc. induction revives as [|r revives IH]; intros acc Hnd; simpl.
  - split; [done|]. intros x. split; [auto|].
    intros [?|(r & Hr & _)]; [done|]. by apply elem_of_nil in Hr.
  - assert (Hstep : NoDup (step acc r)
                    /\ forall y, y ∈ step acc r <-> y ∈ acc \/ name_of r = Some y).
    { rewrite step_spec. destruct (name_of r) as [x|].
      - destruct (set_add_spec x acc Hnd) as [H1 H2]. split; [done|].
        intros y. rewrite H2. split; (intros [?|H]; [by left|right; congruence]).
      - split; [done|]. intros y. split; [auto|]. by intros [?|?]. }
    destruct Hstep as [Hnd' Hin].
    destruct (IH (step acc r) Hnd') as [H1 H2]. split; [done|].
    intros x. rewrite H2, Hin. split.
    + intros [[?|Hr]|(r' & Hr' & Hx)]; [by left| |].
      * right. exists r. split; [apply list_elem_of_here|done].
      * right. exists r'. split; [by apply list_elem_of_further|done].
    + intros [?|(r' & Hr' & Hx)]; [by left; left|].
      apply elem_of_cons in Hr' as [->|Hr']; [by left; right|].
      right. by exists r'.
Qed.

End Collect.

Lemma truthy_nonempty (s : string) : JS.truthy s = true <-> s <> "".
Proof. destruct s; simpl; split; done. Qed.

(** The two arrays as the memos create them. *)
Lemma unique_names_created (revives : list EnrichedRevive) :
  (forall x, x ∈ uniquePlayers revives
             <-> x <> "" /\ exists r, r ∈ revives /\ target_name (e_target r) = x)
  /\ NoDup (uniquePlayers revives)
  /\ (forall x, x ∈ uniqueFactions revives
                <-> x <> "" /\ exists r f, r ∈ revives
                                         /\ target_faction (e_target r) = Some f
                                         /\ faction_name f = x)
  /\ NoDup (uniqueFactions revives).
Proof.
  unfold uniquePlayers, uniqueFactions. cbn zeta.
  set (stepP := fun (players : list string) (r : EnrichedRevive) =>
                  if JS.truthy (target_name (e_target r))
                  then set_add (target_name (e_target r)) players else players).
  set (stepF := fun (factions : list string) (r : EnrichedRevive) =>
                  match target_faction (e_target r) with
                  | Some f => if JS.truthy (faction_name f)
                              then set_add (faction_name f) factions else factions
                  | None => factions
                  end).
  set (nameP := fun r : EnrichedRevive =>
                  if JS.truthy (target_name (e_target r))
                  then Some (target_name (e_target r)) else None).
  set (nameF := fun r : EnrichedRevive =>
                  match target_faction (e_target r) with
                  | Some f => if JS.truthy (faction_name f)
                              then Some (faction_name f) else None
                  | None => None
                  end).
  assert (HP : forall acc r, stepP acc r
               = match nameP r with Some x => set_add x acc | None => acc end).
  { intros acc r. unfold stepP, nameP. by destruct (JS.truthy _). }
  assert (HF : forall acc r, stepF acc r
               = match nameF r with Some x => set_add x acc | None => acc end).
  { intros acc r. unfold stepF, nameF.
    destruct (target_faction _) as [f|]; [|done]. by destruct (JS.truthy _). }
  destruct (collect_spec nameP stepP HP revives [] NoDup_nil_2) as [HndP HinP].
  destruct (collect_spec nameF stepF HF revives [] NoDup_nil_2) as [HndF HinF].
  split; [|split; [by rewrite sort_perm|]].
  { intros x. rewrite sort_elem_of, HinP. unfold nameP. split.
    - intros [Hx|(r & Hr & Hn)]; [by apply elem_of_nil in Hx|].
      destruct (JS.truthy _) eqn:Ht; [|done].
      injection Hn as Hn. rewrite <- Hn.
      split; [by apply truthy_nonempty|by exists r].
    - intros [Hne (r & Hr & Hn)]. right. exists r. split; [done|].
      rewrite Hn. by rewrite (proj2 (truthy_nonempty x) Hne). }
  split; [|by rewrite sort_perm].
  intros x. rewrite sort_elem_of, HinF. unfold nameF. split.
  - intros [Hx|(r & Hr & Hn)]; [by apply elem_of_nil in Hx|].
    destruct (target_faction (e_target r)) as [f|] eqn:Hf; [|done].
    destruct (JS.truthy _) eqn:Ht; [|done].
    injection Hn as Hn. rewrite <- Hn.
    split; [by apply truthy_nonempty|by exists r, f].
  - intros [Hne (r & f & Hr & Hf & Hn)]. right. exists r. split; [done|].
    rewrite Hf, Hn. by rewrite (proj2 (truthy_nonempty x) Hne).
Qed.

Lemma elem_of_List_filter {A} (f : A -> bool) (l : list A) (x : A) :
  x ∈ List.filter f l <-> x ∈ l /\ f x = true.
Proof. by rewrite !list_elem_of_In, filter_In. Qed.

Lemma NoDup_List_filter {A} (f : A -> bool) (l : list A) :
  NoDup l -> NoDup (List.filter f l).
Proof.
  induction 1 as [|x l Hx Hl IH]; simpl; [constructor|].
  destruct (f x); [|done].
  constructor; [|done]. rewrite elem_of_List_filter. by intros [? _].
Qed.

(** X20. Whatever the collation of the host and the order the engine's
    sort leaves, and in whatever order earlier renders have left the two
    arrays of names, each exclusion picker shows every name once, and only
    names that are not empty and occur in the records: target names in the
    one, names of the targets' factions in the other.  Without a search in
    the picker these are all such names.  The array the picker draws from
    is rearranged by the picker, never changed in its content. *)
Theorem unique_names (localeCompare : string -> string -> Q)
    (sort : (string -> string -> Q) -> list string -> list string)
    (revives : list EnrichedRevive) (t : Table)
    (excludePlayerSearch excludeFactionSearch : string)
    (playerNames factionNames : list string) :
  (forall compareFn l, sort compareFn l ≡ₚ l) ->
  playerNames ≡ₚ uniquePlayers revives ->
  factionNames ≡ₚ uniqueFactions revives ->
  let players :=
    filteredPlayersForExclude localeCompare sort t excludePlayerSearch playerNames in
  let factions :=
    filteredFactionsForExclude localeCompare sort t excludeFactionSearch factionNames in
  NoDup (fst players)
  /\ (forall x, x ∈ fst players ->
        x <> "" /\ exists r, r ∈ revives /\ target_name (e_target r) = x)
  /\ (JS.trim excludePlayerSearch = "" ->
      forall x, x ∈ fst players
                <-> x <> "" /\ exists r, r ∈ revives /\ target_name (e_target r) = x)
  /\ snd players ≡ₚ uniquePlayers revives
  /\ NoDup (fst factions)
  /\ (forall x, x ∈ fst factions ->
        x <> "" /\ exists r f, r ∈ revives /\ target_faction (e_target r) = Some f
                               /\ faction_name f = x)
  /\ (JS.trim excludeFactionSearch = "" ->
      forall x, x ∈ fst factions
                <-> x <> "" /\ exists r f, r ∈ revives
                                         /\ target_faction (e_target r) = Some f
                                         /\ faction_name f = x)
  /\ snd factions ≡ₚ uniqueFactions revives.
Proof.
  intros Hsort HpermP HpermF. cbn zeta.
  destruct (unique_names_created revives) as (HinP & HndP & HinF & HndF).
  assert (HndP' : NoDup playerNames) by (by rewrite HpermP).
  assert (HndF' : NoDup factionNames) by (by rewrite HpermF).
  assert (HP :
    let players :=
      filteredPlayersForExclude localeCompare sort t excludePlayerSearch playerNames in
    NoDup (fst players)
    /\ (forall x, x ∈ fst players -> x ∈ playerNames)
    /\ (JS.trim excludePlayerSearch = "" -> forall x, x ∈ fst players <-> x ∈ playerNames)
    /\ snd players ≡ₚ playerNames).
  { cbn zeta. unfold filteredPlayersForExclude.
    destruct (JS.trim excludePlayerSearch) as [|c rest]; cbn [JS.truthy fst snd].
    - split; [by rewrite Hsort|]. split; [intros x; by rewrite Hsort|].
      split; [intros _ x; by rewrite Hsort|apply Hsort].
    - split; [rewrite Hsort; by apply NoDup_List_filter|].
      split; [|done].
      intros x. rewrite Hsort, elem_of_List_filter. by intros [? _]. }
  assert (HF :
    let factions :=
      filteredFactionsForExclude localeCompare sort t excludeFactionSearch factionNames in
    NoDup (fst factions)
    /\ (forall x, x ∈ fst factions -> x ∈ factionNames)
    /\ (JS.trim excludeFactionSearch = "" ->
        forall x, x ∈ fst factions <-> x ∈ factionNames)
    /\ snd factions ≡ₚ factionNames).
  { cbn zeta. unfold filteredFactionsForExclude.
    destruct (JS.trim excludeFactionSearch) as [|c rest]; cbn [JS.truthy fst snd].
    - split; [by rewrite Hsort|]. split; [intros x; by rewrite Hsort|].
      split; [intros _ x; by rewrite Hsort|apply Hsort].
    - split; [rewrite Hsort; by apply NoDup_List_filter|].
      split; [|done].
      intros x. rewrite Hsort, elem_of_List_filter. by intros [? _]. }
  cbn zeta in HP, HF.
  destruct HP as (P1 & P2 & P3 & P4). destruct HF as (F1 & F2 & F3 & F4).
  split; [exact P1|].
  split; [intros x Hx; apply HinP; rewrite <- HpermP; by apply P2|].
  split; [intros Hb x; by rewrite (P3 Hb x), HpermP|].
  split; [by rewrite P4|].
  split; [exact F1|].
  split; [intros x Hx; apply HinF; rewrite <- HpermF; by apply F2|].
  split; [intros Hb x; by rewrite (F3 Hb x), HpermF|].
  by rewrite F4.
Qed.

Lemma unique_names_witness :
  (forall (compareFn : string -> string -> Q) (l : list string),
     JSNum.sort compareFn l ≡ₚ l)
  /\ uniquePlayers Sample.one_record ≡ₚ uniquePlayers Sample.one_record
  /\ uniqueFactions Sample.one_record ≡ₚ uniqueFactions Sample.one_record
  /\ NoDup (fst (filteredPlayersForExclude default_compare (@JSNum.sort string)
                   initial_table "" (uniquePlayers Sample.one_record)))
  /\ fst (filteredPlayersForExclude default_compare (@JSNum.sort string)
            initial_table "" (uniquePlayers Sample.one_record)) = ["Ann"].
Proof.
  assert (H : forall (compareFn : string -> string -> Q) l,
              JSNum.sort compareFn l ≡ₚ l) by (intros; apply sort_perm).
  split; [exact H|]. split; [reflexivity|]. split; [reflexivity|].
  split; [|by vm_compute].
  exact (proj1 (unique_names default_compare (@JSNum.sort string) Sample.one_record
                  initial_table "" "" _ _ H (reflexivity _) (reflexivity _))).
Defined.

(** ** Payment marks *)

Lemma pretty_N_go_occurs (c : ascii) (x : N) (s : string) :
  (forall d, pretty_N_char d <> c) ->
  occurs c s = false -> occurs c (pretty_N_go x s) = false.
Proof.
  intros Hc. revert s. induction (N.lt_wf_0 x) as [x _ IH]; intros s Hs.
  assert (x = 0 \/ 0 < x)%N as [->|Hpos] by lia.
  - by rewrite pretty_N_go_0.
  - rewrite pretty_N_go_step by done. apply IH; [by apply N.div_lt|].
    simpl. rewrite Hs, orb_false_r. apply Ascii.eqb_neq. apply Hc.
Qed.

Lemma pretty_Z_underscore (z : Z) : occurs "_" (pretty z) = false.
Proof.
  assert (Hd : forall d, pretty_N_char d <> "_"%char).
  { intros d. unfold pretty_N_char. by repeat case_match. }
  assert (Hp : forall p : positive, occurs "_" (pretty p) = false).
  { intros p. unfold pretty, pretty_positive, pretty, pretty_N.
    case_decide; [done|]. by apply pretty_N_go_occurs. }
  destruct z as [|p|p]; [done|apply Hp|].
  change (pretty (Z.neg p)) with ("-" +:+ pretty p). simpl. apply Hp.
Qed.

Lemma app_separator_inj (c : ascii) (s1 s2 t1 t2 : string) :
  occurs c s1 = false -> occurs c s2 = false ->
  s1 +:+ String c t1 = s2 +:+ String c t2 -> s1 = s2 /\ t1 = t2.
Proof.
  revert s2. induction s1 as [|a s1 IH]; intros [|b s2]; simpl.
  - intros _ _ H. by injection H.
  - intros _ Hb H. injection H as Hc _. subst b.
    rewrite Ascii.eqb_refl in Hb. done.
  - intros Ha _ H. injection H as Hc _. subst a.
    rewrite Ascii.eqb_refl in Ha. done.
  - intros Ha Hb H. injection H as Hab H. subst b.
    apply orb_false_iff in Ha as [_ Ha]. apply orb_false_iff in Hb as [_ Hb].
    destruct (IH s2 Ha Hb H) as [-> ->]. done.
Qed.

Lemma payment_id_inj (ts tid ts' tid' : Z) :
  payment_id ts tid = payment_id ts' tid' -> ts = ts' /\ tid = tid'.
Proof.
  unfold payment_id. intros H.
  apply (app_separator_inj "_") in H as [H1 H2]; try apply pretty_Z_underscore.
  split; by apply (inj pretty).
Qed.

Lemma setPaymentStatus_ready (key : string) (b : bool) (db : IDBDatabase) :
  ready db ->
  setPaymentStatus key b db
  = Some (IDB.set_paymentStatus
            (Some (<[key := b]> (default ∅ (paymentStatus db)))) (open_db db)).
Proof. intros H. unfold setPaymentStatus. by rewrite (initDB_ready db H). Qed.

(** X21. When the marks the table shows are the stored ones, a click on a
    row's payment mark inverts the mark of that row and of no row with
    another timestamp or another target; the marks shown and stored still
    agree, so a reload shows the same marks, a second click gives back
    what was shown before, and the cached records are not touched. *)
Theorem togglePaymentStatus_spec (timestamp targetId : Z)
    (paymentStatuses : gmap string bool) (db : IDBDatabase) :
  ready db ->
  read (getAllPaymentStatuses db) = Some paymentStatuses ->
  ready (snd (togglePaymentStatus timestamp targetId (paymentStatuses, db)))
  /\ read (getAllPaymentStatuses
             (snd (togglePaymentStatus timestamp targetId (paymentStatuses, db))))
     = Some (fst (togglePaymentStatus timestamp targetId (paymentStatuses, db)))
  /\ fst (loadPaymentStatuses
            (∅, snd (togglePaymentStatus timestamp targetId (paymentStatuses, db))))
     = fst (togglePaymentStatus timestamp targetId (paymentStatuses, db))
  /\ isPaid (fst (togglePaymentStatus timestamp targetId (paymentStatuses, db)))
       timestamp targetId
     = negb (isPaid paymentStatuses timestamp targetId)
  /\ (forall timestamp' targetId',
        timestamp' <> timestamp \/ targetId' <> targetId ->
        isPaid (fst (togglePaymentStatus timestamp targetId (paymentStatuses, db)))
          timestamp' targetId'
        = isPaid paymentStatuses timestamp' targetId')
  /\ (forall timestamp' targetId',
        isPaid (fst (togglePaymentStatus timestamp targetId
                       (togglePaymentStatus timestamp targetId (paymentStatuses, db))))
          timestamp' targetId'
        = isPaid paymentStatuses timestamp' targetId')
  /\ (forall m,
        read (getAllRevives m
                (snd (togglePaymentStatus timestamp targetId (paymentStatuses, db))))
        = read (getAllRevives m db)).
Proof.
  intros Hready Hall.
  rewrite (getAllPaymentStatuses_ready _ Hready) in Hall. simpl in Hall.
  injection Hall as Hall.
  set (id := payment_id timestamp targetId).
  set (b := negb (default false (paymentStatuses !! id))).
  assert (Hrun : togglePaymentStatus timestamp targetId (paymentStatuses, db)
                 = (<[id := b]> paymentStatuses,
                    IDB.set_paymentStatus (Some (<[id := b]> paymentStatuses))
                      (open_db db))).
  { unfold togglePaymentStatus. cbn zeta. fold id. fold b.
    by rewrite (setPaymentStatus_ready id b db Hready), Hall. }
  pose proof (set_paymentStatus_ready (<[id := b]> paymentStatuses) db Hready) as Hready'.
  set (db' := IDB.set_paymentStatus (Some (<[id := b]> paymentStatuses)) (open_db db)) in *.
  assert (Hstored : read (getAllPaymentStatuses db') = Some (<[id := b]> paymentStatuses)).
  { by rewrite (getAllPaymentStatuses_ready _ Hready'). }
  assert (Hrun' : togglePaymentStatus timestamp targetId (<[id := b]> paymentStatuses, db')
                  = (<[id := negb b]> (<[id := b]> paymentStatuses),
                     IDB.set_paymentStatus
                       (Some (<[id := negb b]> (<[id := b]> paymentStatuses)))
                       (open_db db'))).
  { unfold togglePaymentStatus. cbn zeta. fold id.
    rewrite lookup_insert_eq. change (default false (Some b)) with b.
    by rewrite (setPaymentStatus_ready id (negb b) db' Hready'). }
  rewrite Hrun, Hrun'. cbn [fst snd].
  split; [exact Hready'|]. split; [exact Hstored|].
  split.
  { unfold loadPaymentStatuses. cbn [snd].
    by rewrite (getAllPaymentStatuses_ready _ Hready'). }
  unfold isPaid. fold id.
  split; [by rewrite lookup_insert_eq|].
  split.
  { intros ts' tid' Hne. rewrite lookup_insert_ne; [done|].
    unfold id. intros Heq. apply payment_id_inj in Heq as [-> ->]. by destruct Hne. }
  split.
  { intros ts' tid'.
    destruct (decide (id = payment_id ts' tid')) as [<-|Hne].
    - rewrite lookup_insert_eq. change (default false (Some (negb b))) with (negb b).
      unfold b. by rewrite negb_involutive.
    - by rewrite !lookup_insert_ne. }
  intros m. rewrite (getAllRevives_ready m _ Hready'), (getAllRevives_ready m _ Hready).
  by destruct m.
Qed.

Lemma togglePaymentStatus_spec_witness :
  ready SampleWorld.database
  /\ read (getAllPaymentStatuses SampleWorld.database) = Some ∅
  /\ isPaid (fst (togglePaymentStatus 100 7 (∅, SampleWorld.database))) 100 7
     = negb (isPaid ∅ 100 7).
Proof.
  pose proof sample_database_ready as H.
  assert (Hall : read (getAllPaymentStatuses SampleWorld.database) = Some ∅)
    by reflexivity.
  split; [exact H|]. split; [exact Hall|].
  exact (proj1 (proj2 (proj2 (proj2
           (togglePaymentStatus_spec 100 7 ∅ SampleWorld.database H Hall))))).
Defined.

(** ** Mounting the dashboard *)

Lemma loadFromCache_run (w : World) :
  ready (db w) -> version (db w) = IDB.DB_VERSION ->
  exists d,
    loadFromCache w
    = {| dash := d; db := db w; loggedOut := loggedOut w; toasts := toasts w |}
    /\ error d = error (dash w)
    /\ hasMoreData d = hasMoreData (dash w)
    /\ (cached (default user (apiMode (default empty_settings (settings (db w))))) (db w)
         <> [] ->
        raw_of <$> revives d
        = cached (default user (apiMode (default empty_settings (settings (db w))))) (db w))
    /\ (cached (default user (apiMode (default empty_settings (settings (db w))))) (db w)
         = [] ->
        revives d = revives (dash w)).
Proof.
  intros Hready Hv.
  pose proof (read_settings_ready (fun s => default user (apiMode s)) _ Hready) as Hmode.
  rewrite (open_db_opened _ Hready Hv) in Hmode. fold (getApiMode (db w)) in Hmode.
  set (m := default user (apiMode (default empty_settings (settings (db w))))) in *.
  pose proof (getAllRevives_ready m _ Hready) as Hall.
  rewrite (open_db_opened _ Hready Hv) in Hall.
  unfold loadFromCache. cbn zeta.
  rewrite (try_bind_read getApiMode _ _ m (db w)) by exact Hmode.
  rewrite try_bind_update. cbn [dash db loggedOut toasts].
  rewrite (try_bind_read (getAllRevives m) _ _ _ (db w)) by exact Hall.
  cbn [dash db loggedOut toasts].
  destruct (cached m (db w)) as [|r rest] eqn:Hc.
  - eexists. split; [reflexivity|]. by repeat split.
  - change (0 <? length (r :: rest))%nat with true. cbn iota.
    rewrite try_bind_update. cbn [dash db loggedOut toasts].
    rewrite try_bind_when. cbn [dash db loggedOut toasts].
    unfold Try.when, Try.update, Try.ret.
    destruct (first_reviver_id (r :: rest) =? 0)%Z;
      destruct (first_faction_id (r :: rest) =? 0)%Z;
      cbn [negb dash db loggedOut toasts snd];
      (eexists; split; [reflexivity|]);
      (split; [done|]); (split; [done|]);
      (split; [intros _; apply raw_of_enrichRevives|intros H; discriminate H]).
Qed.

(** X22. Mounting the dashboard when the request cannot be answered (no
    network, a response that is not ok, a body that is not JSON): the
    cached records of the saved mode are shown all the same, with the
    error message set and the loading flags down; the database is
    untouched, nobody is logged out and no toast is shown. *)
Theorem mount_offline (fetch : Request -> Response) (w : World) (req : Request) :
  ready (db w) ->
  version (db w) = IDB.DB_VERSION ->
  request_for false (db w) = Some req ->
  fetch_failed (fetch req) = true ->
  error (dash (mount fetch w)) = "Failed to fetch revives. Please try again."
  /\ isLoading (dash (mount fetch w)) = false
  /\ isFetching (dash (mount fetch w)) = false
  /\ isLoadingMore (dash (mount fetch w)) = false
  /\ mode (dash (mount fetch w)) = req_mode req
  /\ read (getApiMode (db w)) = Some (req_mode req)
  /\ (forall all, read (getAllRevives (req_mode req) (db w)) = Some all ->
        (all <> [] -> raw_of <$> revives (dash (mount fetch w)) = all)
        /\ (all = [] -> revives (dash (mount fetch w)) = revives (dash w)))
  /\ hasMoreData (dash (mount fetch w)) = hasMoreData (dash w)
  /\ db (mount fetch w) = db w
  /\ loggedOut (mount fetch w) = loggedOut w
  /\ toasts (mount fetch w) = toasts w.
Proof.
  intros Hready Hv Hreq Hfail.
  destruct (loadFromCache_run w Hready Hv) as (d & Hload & Herr & Hmore & Hshown & Hkept).
  destruct (request_for_open false (db w) req Hv Hreq)
    as (key & m & oldest & Hkey & Hmode & Hold & Hr).
  pose proof (read_settings_ready (fun s => default user (apiMode s)) _ Hready) as Hmode'.
  rewrite (open_db_opened _ Hready Hv) in Hmode'. fold (getApiMode (db w)) in Hmode'.
  assert (Hm : m = default user (apiMode (default empty_settings (settings (db w)))))
    by congruence.
  assert (Hrm : req_mode req = m) by (by rewrite Hr).
  rewrite <- Hm in Hshown, Hkept.
  assert (Hrun :
    mount fetch w =
    {| dash :=
         set_isLoadingMore false (set_isFetching false (set_isLoading false
           (set_error "Failed to fetch revives. Please try again."
              (set_mode (req_mode req) (set_error "" (set_isFetching true d))))));
       db := db w; loggedOut := loggedOut w; toasts := toasts w |}).
  { unfold mount. rewrite Hload. unfold fetchRevives.
    rewrite !try_bind_update. unfold Try.update at 1. cbn iota beta.
    rewrite (fetch_body_failure fetch initial_dashboard false _ req) by done.
    reflexivity. }
  rewrite Hrun. cbn [dash db loggedOut toasts].
  split; [done|]. split; [done|]. split; [done|]. split; [done|]. split; [done|].
  split; [by rewrite Hmode, Hrm|].
  split.
  { intros all. rewrite Hrm, (getAllRevives_ready m _ Hready). simpl.
    intros Hall. injection Hall as Hall. rewrite <- Hall.
    split; [apply Hshown|apply Hkept]. }
  by repeat split.
Qed.

Lemma mount_offline_witness :
  ready (db SampleWorld.world)
  /\ read (getAllRevives user (db SampleWorld.world)) = Some Sample.first_page
  /\ error (dash (mount SampleWorld.unauthorized SampleWorld.world))
     = "Failed to fetch revives. Please try again."
  /\ raw_of <$> revives (dash (mount SampleWorld.unauthorized SampleWorld.world))
     = Sample.first_page.
Proof.
  pose proof sample_database_ready as H.
  assert (Hreq : request_for false (db SampleWorld.world)
                 = Some {| req_mode := user; req_to := None; req_key := "key" |})
    by reflexivity.
  pose proof (mount_offline SampleWorld.unauthorized SampleWorld.world _
                H eq_refl Hreq eq_refl) as (Herr & _ & _ & _ & _ & _ & Hshown & _).
  split; [exact H|]. split; [reflexivity|]. split; [exact Herr|].
  apply (Hshown Sample.first_page); [reflexivity|discriminate].
Defined.
